(** * Quantum holiday tree: gesture phases, hand tracker, tree generator,
      theme fallback and tone mapping

    A shallow embedding of the TypeScript sources:

    - the shared types: [GestureType], [AppPhase], [HandData],
      [ThemeResponse], [AppState];
    - the hand tracker component: the [onResults] callback (gesture
      recognition);
    - the scene container: the per-frame callback of [InteractionHandler];
    - the application component: [setPhase] and [hexToFreq];
    - the tree component: [useTreeData] with [addPoint] and [generateBranch];
    - the theme service: [generateTheme];
    - the per-frame callbacks of the ambient particles
      ([EmanatingParticles]), of the tree group ([ChristmasTree]) and of the
      snowflakes ([IntroSnowflakes]), and the ambience button of the
      application ([toggleAmbiance], [startAudio], [stopAudio],
      [updateAudioDrone]).

    Numbers.  For the continuous quantities (positions, sizes, brightness,
    scales and their bounds) a JavaScript number is modelled as an exact
    rational ([Q]): every finite double is a rational, and the arithmetic is
    the exact arithmetic that the double operations round.  Where the exact
    outcome of the arithmetic decides a discrete result (the gesture, which
    compares a computed mean with two thresholds; the frequency that
    [hexToFreq] computes from a parsed string) a number is an IEEE 754 double
    ([Double]), with its rounding, its NaN and its infinities.  Host functions
    that the language leaves to the implementation ([Math.sqrt], [Math.pow],
    [Math.cos], [Math.sin], three.js [Color], the number printer,
    [JSON.parse], the remote call) are section variables, so every theorem
    holds for any implementation of them.  [Math.random()] is a stream of
    numbers, read in call order.

    Strings.  A string is the sequence of bytes of its UTF-8 encoding.  The
    white space of the language (what [parseInt] skips, what [trim] and the
    class [\s] of a pattern take) is recognised in its one-, two- and
    three-byte encodings. *)

From Stdlib Require Import QArith Qround Qminmax Qpower ZArith List String Ascii Bool Arith Lia Lqa.
From Stdlib Require Import SpecFloat.
Import ListNotations.

Open Scope Q_scope.

(** ** Number comparisons as the code writes them *)

Definition Number := Q.

(** [a < b] on numbers, as a boolean. *)
Definition Qltb (a b : Q) : bool := negb (Qle_bool b a).

(** [a > b] on numbers. *)
Definition Qgtb (a b : Q) : bool := Qltb b a.

(** ** Numbers as IEEE 754 doubles

    Where a claim is about the exact outcome of arithmetic (on which side of
    a threshold a computed mean falls, which integer a parsed string gives) a
    number is a binary64 value: [spec_float] of the Standard Library, the
    specification of its primitive floats, at precision 53 and maximal
    exponent 1024.  It has one NaN, as the language has. *)

Module Double.

Local Open Scope Z_scope.

Definition double : Type := spec_float.

Definition prec : Z := 53.
Definition emax : Z := 1024.

Definition NaN : double := S754_nan.

(** [+], [-], [*], [/] of the language, and [Math.sqrt] as IEEE 754 has it. *)
Definition add : double -> double -> double := SFadd prec emax.
Definition sub : double -> double -> double := SFsub prec emax.
Definition mul : double -> double -> double := SFmul prec emax.
Definition div : double -> double -> double := SFdiv prec emax.
Definition sqrt : double -> double := SFsqrt prec emax.

(** [a < b] and [a > b]: false when either side is NaN. *)
Definition lt (a b : double) : bool := SFltb a b.
Definition gt (a b : double) : bool := SFltb b a.

(** The Number value of an integer: the nearest double, ties to even, and
    infinite from 2^1024 on. *)
Definition toNumber (z : Z) : double := binary_normalize prec emax z 0 false.

(** The Number value of a decimal literal [n/d] with [n] and [d] below 2^53:
    the double nearest to the fraction (division is correctly rounded). *)
Definition literal (n d : Z) : double := div (toNumber n) (toNumber d).

(** [n % d] (Number::remainder): NaN for a NaN operand, an infinite
    dividend or a zero divisor; the dividend for an infinite divisor or a zero
    dividend; otherwise the exact remainder of the truncated division, with
    the sign of the dividend. *)
Definition rem (n d : double) : double :=
  match n, d with
  | S754_nan, _ | _, S754_nan => S754_nan
  | S754_infinity _, _ => S754_nan
  | _, S754_zero _ => S754_nan
  | _, S754_infinity _ => n
  | S754_zero _, _ => n
  | S754_finite sn mn en, S754_finite _ md ed =>
      let e := Z.min en ed in
      let r := (Zpos mn * 2 ^ (en - e)) mod (Zpos md * 2 ^ (ed - e)) in
      binary_normalize prec emax (if sn then - r else r) e sn
  end.

(** The same double (NaN is the same as NaN, [+0] is not [-0]). *)
Definition same (a b : double) : bool :=
  match a, b with
  | S754_zero s, S754_zero t => Bool.eqb s t
  | S754_infinity s, S754_infinity t => Bool.eqb s t
  | S754_nan, S754_nan => true
  | S754_finite s m e, S754_finite t n f => Bool.eqb s t && Pos.eqb m n && Z.eqb e f
  | _, _ => false
  end.

End Double.

(** ** types.ts *)

Inductive GestureType := OPEN | FIST | NONE.
Inductive AppPhase := SNOW | GATHER | TREE.

Record HandData := mkHandData {
  rawX : Number;
  rawY : Number;
  gesture : GestureType;
  isTracking : bool
}.

Record ThemeResponse := mkTheme {
  theme_colors : list string;
  theme_greeting : string;
  theme_musicMood : option string
}.

Record AppState := mkAppState {
  colors : list string;
  greeting : string;
  loading : bool;
  themeName : string;
  musicMood : option string;
  isPlayingMusic : bool;
  phase : AppPhase
}.

Definition GestureType_eq_dec (a b : GestureType) : {a = b} + {a <> b}.
Proof. decide equality. Defined.

Definition AppPhase_eq_dec (a b : AppPhase) : {a = b} + {a <> b}.
Proof. decide equality. Defined.

(** A React ref: [current] is an object or [null].  The one [HandData]
    object is shared by the tracker (writer) and the frame loop; each callback
    below takes the content of the ref and returns the content it leaves. *)
Definition Ref (A : Type) := option A.

(** ** HandTracker.tsx: the [onResults] callback

    The callback on rationals, for what does not depend on rounding: which
    landmarks are read, when the callback throws, what is written to the
    shared record and that the position stays in the frame.  The threshold
    test itself, whose outcome depends on rounding, is treated on doubles in
    [HandTracker64] below. *)

Module HandTracker.

Record Landmark := mkLandmark { lx : Number; ly : Number }.

(** [results.multiHandLandmarks]: absent, or one landmark list per hand. *)
Record Results := mkResults {
  multiHandLandmarks : option (list (list Landmark))
}.

Section Recognition.

(** [Math.sqrt], a host function. *)
Variable Math_sqrt : Number -> Number.

(** [Math.pow(x, 2)]. *)
Definition pow2 (x : Number) : Number := x ^ 2.

(** [const tips = [8, 12, 16, 20]] *)
Definition tips : list nat := [8; 12; 16; 20]%nat.

(** The body of [tips.forEach]: [landmarks[idx]] is [undefined] out of range
    and reading [tip.x] then throws ([None]). *)
Definition addTipDistance (landmarks : list Landmark) (wrist : Landmark)
    (totalDist : option Number) (idx : nat) : option Number :=
  match totalDist with
  | None => None
  | Some total =>
      match nth_error landmarks idx with
      | None => None
      | Some tip =>
          let d := Math_sqrt (pow2 (lx tip - lx wrist) + pow2 (ly tip - ly wrist)) in
          Some (total + d)
      end
  end.

(** [avgDist]: [totalDist / 4], with [wrist = landmarks[0]]. *)
Definition avgDist (landmarks : list Landmark) : option Number :=
  match nth_error landmarks 0 with
  | None => None
  | Some wrist =>
      match fold_left (addTipDistance landmarks wrist) tips (Some 0) with
      | None => None
      | Some totalDist => Some (totalDist / 4)
      end
  end.

(** The threshold test on [avgDist]; [gesture] starts as ['NONE'].  On
    rationals the test is that of the exact mean; which gesture the code
    writes at the thresholds is settled by [HandTracker64.gestureOf]. *)
Definition gestureOf (avg : Number) : GestureType :=
  if Qgtb avg 0.25 then OPEN
  else if Qltb avg 0.15 then FIST
  else NONE.

(** [hands.onResults(results => ...)] on the content of [handDataRef].
    [None] is a thrown [TypeError]; otherwise the new content of the ref. *)
Definition onResults (results : Results) (current : Ref HandData)
    : option (Ref HandData) :=
  match multiHandLandmarks results with
  | Some (landmarks :: _) =>
      match nth_error landmarks 8, avgDist landmarks with
      | Some indexTip, Some avg =>
          let g := gestureOf avg in
          match current with
          | Some _ =>
              Some (Some {| rawX := 1 - lx indexTip;
                            rawY := ly indexTip;
                            gesture := g;
                            isTracking := true |})
          | None => Some None
          end
      | _, _ => None
      end
  | _ =>
      match current with
      | Some hd =>
          Some (Some {| rawX := rawX hd;
                        rawY := rawY hd;
                        gesture := NONE;
                        isTracking := false |})
      | None => Some None
      end
  end.

(** A detection result with no hand: the field is missing or the list is
    empty. *)
Definition noHand (results : Results) : Prop :=
  match multiHandLandmarks results with
  | Some (_ :: _) => False
  | _ => True
  end.

(** The Euclidean distance of a landmark from the wrist. *)
Definition euclid (p w : Landmark) : Number :=
  Math_sqrt ((lx p - lx w) ^ 2 + (ly p - ly w) ^ 2).

End Recognition.

End HandTracker.

(** ** HandTracker.tsx: the [onResults] callback on doubles

    The same callback with every number a double, for what depends on the
    exact outcome of its arithmetic: the gesture is decided by comparing a
    rounded sum with the doubles nearest to 0.25 and 0.15. *)

Module HandTracker64.

Import Double.

Record Landmark := mkLandmark { lx : double; ly : double }.

Record Results := mkResults {
  multiHandLandmarks : option (list (list Landmark))
}.

(** [HandData] of types.ts with its numbers as doubles. *)
Record HandData := mkHandData {
  rawX : double;
  rawY : double;
  gesture : GestureType;
  isTracking : bool
}.

Section Recognition.

(** [Math.sqrt] and [Math.pow], host functions (the language leaves their
    precision to the implementation). *)
Variable Math_sqrt : double -> double.
Variable Math_pow : double -> double -> double.

(** [const tips = [8, 12, 16, 20]] *)
Definition tips : list nat := [8; 12; 16; 20]%nat.

(** [Math.sqrt(Math.pow(tip.x - wrist.x, 2) + Math.pow(tip.y - wrist.y, 2))] *)
Definition distance (tip wrist : Landmark) : double :=
  Math_sqrt (add (Math_pow (sub (lx tip) (lx wrist)) (toNumber 2))
                 (Math_pow (sub (ly tip) (ly wrist)) (toNumber 2))).

(** The body of [tips.forEach]: [landmarks[idx]] is [undefined] out of range
    and reading [tip.x] then throws ([None]). *)
Definition addTipDistance (landmarks : list Landmark) (wrist : Landmark)
    (totalDist : option double) (idx : nat) : option double :=
  match totalDist with
  | None => None
  | Some total =>
      match nth_error landmarks idx with
      | None => None
      | Some tip => Some (add total (distance tip wrist))
      end
  end.

(** [avgDist]: [totalDist / 4], with [wrist = landmarks[0]] and
    [totalDist] starting at 0. *)
Definition avgDist (landmarks : list Landmark) : option double :=
  match nth_error landmarks 0 with
  | None => None
  | Some wrist =>
      match fold_left (addTipDistance landmarks wrist) tips (Some (toNumber 0)) with
      | None => None
      | Some totalDist => Some (div totalDist (toNumber 4))
      end
  end.

(** The threshold test on [avgDist]; [gesture] starts as ['NONE']. *)
Definition gestureOf (avg : double) : GestureType :=
  if gt avg (literal 25 100) then OPEN
  else if lt avg (literal 15 100) then FIST
  else NONE.

(** [hands.onResults(results => ...)] on the content of [handDataRef].
    [None] is a thrown [TypeError]; otherwise the new content of the ref. *)
Definition onResults (results : Results) (current : Ref HandData)
    : option (Ref HandData) :=
  match multiHandLandmarks results with
  | Some (landmarks :: _) =>
      match nth_error landmarks 8, avgDist landmarks with
      | Some indexTip, Some avg =>
          let g := gestureOf avg in
          match current with
          | Some _ =>
              Some (Some {| rawX := sub (toNumber 1) (lx indexTip);
                            rawY := ly indexTip;
                            gesture := g;
                            isTracking := true |})
          | None => Some None
          end
      | _, _ => None
      end
  | _ =>
      match current with
      | Some hd =>
          Some (Some {| rawX := rawX hd;
                        rawY := rawY hd;
                        gesture := NONE;
                        isTracking := false |})
      | None => Some None
      end
  end.

(** The mean of the four fingertip-to-wrist distances, written from the
    specification's sentence (index 8, middle 12, ring 16, pinky 20, wrist 0)
    as the sum from 0 in that order, divided by 4. *)
Definition meanTipDistance (landmarks : list Landmark) : double :=
  let at_ i := nth i landmarks (mkLandmark (toNumber 0) (toNumber 0)) in
  div (add (add (add (add (toNumber 0)
                          (distance (at_ 8%nat) (at_ 0%nat)))
                     (distance (at_ 12%nat) (at_ 0%nat)))
                (distance (at_ 16%nat) (at_ 0%nat)))
           (distance (at_ 20%nat) (at_ 0%nat)))
      (toNumber 4).

End Recognition.

End HandTracker64.

(** ** App.tsx: [setPhase] *)

Module App.

(** [setState(prev => ({ ...prev, phase: p }))] *)
Definition setPhase (p : AppPhase) (prev : AppState) : AppState :=
  {| colors := colors prev;
     greeting := greeting prev;
     loading := loading prev;
     themeName := themeName prev;
     musicMood := musicMood prev;
     isPlayingMusic := isPlayingMusic prev;
     phase := p |}.

(** The initial [useState] value. *)
Definition initialState : AppState :=
  {| colors := ["#00F0FF"; "#7000FF"; "#FF0066"; "#FFD700"; "#FFFFFF"]%string;
     greeting := "Welcome to the Quantum Holiday experience.";
     loading := false;
     themeName := "Default Quantum";
     musicMood := Some "Ethereal"%string;
     isPlayingMusic := false;
     phase := SNOW |}.

End App.

(** ** SceneContainer.tsx: the frame callback of [InteractionHandler] *)

Module SceneContainer.

(** The pointer of [useThree()], each coordinate in [-1, 1]. *)
Record Mouse := mkMouse { mouse_x : Number; mouse_y : Number }.

(** The mouse fallback: written only while the tracker is not tracking. *)
Definition mouseFallback (mouse : Mouse) (hd : HandData) : HandData :=
  if isTracking hd then hd
  else {| rawX := (mouse_x mouse + 1) / 2;
          rawY := (mouse_y mouse + 1) / 2;
          gesture := gesture hd;
          isTracking := isTracking hd |}.

(** The phase logic: the argument of the [setPhase] call the frame makes, if
    it makes one. *)
Definition phaseLogic (phase : AppPhase) (g : GestureType) : option AppPhase :=
  match phase with
  | SNOW =>
      match g with
      | OPEN => Some GATHER
      | _ => None
      end
  | GATHER =>
      match g with
      | FIST => Some TREE
      | NONE => Some SNOW
      | OPEN => None
      end
  | TREE => None
  end.

(** One [useFrame] tick: the new content of the ref and the [setPhase]
    request.  With a [null] ref the callback does nothing. *)
Definition useFrame (mouse : Mouse) (phase : AppPhase) (current : Ref HandData)
    : Ref HandData * option AppPhase :=
  match current with
  | None => (None, None)
  | Some hd =>
      let hd' := mouseFallback mouse hd in
      (Some hd', phaseLogic phase (gesture hd'))
  end.

(** One frame on the application state: [InteractionHandler] reads the
    [phase] prop and its [setPhase] request goes through [App.setPhase]. *)
Definition frame (mouse : Mouse) (current : Ref HandData) (st : AppState)
    : Ref HandData * AppState :=
  let '(current', request) := useFrame mouse (phase st) current in
  (current',
   match request with
   | Some p => App.setPhase p st
   | None => st
   end).

(** The phase after one frame whose latest gesture sample is [g]. *)
Definition phaseStep (ph : AppPhase) (g : GestureType) : AppPhase :=
  match phaseLogic ph g with
  | Some p => p
  | None => ph
  end.

(** What a frame sees: the pointer and the content of the hand ref as the
    tracker (or anything else outside the frame loop) left it. *)
Definition FrameInput : Type := Mouse * Ref HandData.

(** Frames in sequence.  Between two frames the ref may have been rewritten,
    so each frame takes the content it finds. *)
Fixpoint runFrames (inputs : list FrameInput) (st : AppState) : AppState :=
  match inputs with
  | [] => st
  | (mouse, current) :: rest => runFrames rest (snd (frame mouse current st))
  end.

(** The phases visited, frame by frame. *)
Fixpoint phaseTrace (inputs : list FrameInput) (st : AppState) : list AppPhase :=
  match inputs with
  | [] => []
  | (mouse, current) :: rest =>
      let st' := snd (frame mouse current st) in
      phase st' :: phaseTrace rest st'
  end.

End SceneContainer.

(** ** App.tsx: [hexToFreq]

    Strings.  A string of the program is modelled by its UTF-8 encoding, one
    [ascii] for each byte.  The characters the code tests for ([#], the
    digits, the signs, the backtick) are single bytes; white space is not:
    [parseInt], [trim] and [\s] skip the WhiteSpace and LineTerminator
    characters of the language, of one, two or three bytes. *)

Module Tone.

Open Scope string_scope.
Open Scope Z_scope.

(** The value of one radix-16 digit. *)
Definition hexDigit (c : ascii) : option Z :=
  let n := Z.of_nat (nat_of_ascii c) in
  if (48 <=? n) && (n <=? 57) then Some (n - 48)
  else if (97 <=? n) && (n <=? 102) then Some (n - 87)
  else if (65 <=? n) && (n <=? 70) then Some (n - 55)
  else None.

(** White space of one byte: tab, line feed, vertical tab, form feed,
    carriage return, space. *)
Definition isWhiteSpace (c : ascii) : bool :=
  let n := nat_of_ascii c in
  ((9 <=? n) && (n <=? 13))%nat || (n =? 32)%nat.

(** White space of two bytes: the no-break space U+00A0 (C2 A0). *)
Definition isWhiteSpace2 (a b : ascii) : bool :=
  ((nat_of_ascii a =? 194) && (nat_of_ascii b =? 160))%nat.

(** White space of three bytes: U+1680 (E1 9A 80); U+2000 to U+200A
    (E2 80 80 to E2 80 8A); the line and paragraph separators U+2028 and
    U+2029 (E2 80 A8, E2 80 A9); U+202F (E2 80 AF); U+205F (E2 81 9F);
    U+3000 (E3 80 80); the byte order mark U+FEFF (EF BB BF). *)
Definition isWhiteSpace3 (a b c : ascii) : bool :=
  let a := nat_of_ascii a in
  let b := nat_of_ascii b in
  let c := nat_of_ascii c in
  ((a =? 225) && (b =? 154) && (c =? 128)
   || (a =? 226) && (b =? 128)
      && ((128 <=? c) && (c <=? 138) || (c =? 168) || (c =? 169) || (c =? 175))
   || (a =? 226) && (b =? 129) && (c =? 159)
   || (a =? 227) && (b =? 128) && (c =? 128)
   || (a =? 239) && (b =? 187) && (c =? 191))%nat.

(** The text after one white-space character, if the text starts with
    one. *)
Definition whiteSpaceRest (s : string) : option string :=
  match s with
  | String a rest =>
      if isWhiteSpace a then Some rest
      else
        match rest with
        | String b rest2 =>
            if isWhiteSpace2 a b then Some rest2
            else
              match rest2 with
              | String c rest3 => if isWhiteSpace3 a b c then Some rest3 else None
              | EmptyString => None
              end
        | EmptyString => None
        end
  | EmptyString => None
  end.

(** The text without the white space it starts with. *)
Fixpoint trimStart (s : string) : string :=
  match s with
  | String a rest =>
      if isWhiteSpace a then trimStart rest
      else
        match rest with
        | String b rest2 =>
            if isWhiteSpace2 a b then trimStart rest2
            else
              match rest2 with
              | String c rest3 => if isWhiteSpace3 a b c then trimStart rest3 else s
              | EmptyString => s
              end
        | EmptyString => s
        end
  | EmptyString => s
  end.

(** A text of white space only (the empty text too). *)
Definition isBlank (s : string) : bool := String.eqb (trimStart s) EmptyString.

(** [hex.replace('#', '')]: a string pattern replaces the first occurrence
    only. *)
Fixpoint removeFirstHash (s : string) : string :=
  match s with
  | EmptyString => EmptyString
  | String c rest =>
      if Ascii.eqb c "#" then rest else String c (removeFirstHash rest)
  end.

(** The digits of the longest radix-16 prefix, accumulated left to right;
    the flag says whether a digit was seen. *)
Fixpoint parseDigits (s : string) (acc : Z) (seen : bool) : Z * bool :=
  match s with
  | EmptyString => (acc, seen)
  | String c rest =>
      match hexDigit c with
      | Some d => parseDigits rest (16 * acc + d) true
      | None => (acc, seen)
      end
  end.

(** The integer [parseInt(s, 16)] reads, before it is made a Number: skip
    leading white space, take a sign, strip a [0x]/[0X] prefix, read the
    longest prefix of digits.  The result is whether the sign is [-] and the
    value of the digits; [None] when there is no digit. *)
Definition mathInt16 (s : string) : option (bool * Z) :=
  let s1 := trimStart s in
  let '(negative, s2) :=
    match s1 with
    | String c rest =>
        if Ascii.eqb c "-" then (true, rest)
        else if Ascii.eqb c "+" then (false, rest)
        else (false, s1)
    | EmptyString => (false, s1)
    end in
  let s3 :=
    match s2 with
    | String c1 (String c2 rest) =>
        if Ascii.eqb c1 "0" && (Ascii.eqb c2 "x" || Ascii.eqb c2 "X") then rest else s2
    | _ => s2
    end in
  match parseDigits s3 0 false with
  | (v, true) => Some (negative, v)
  | (_, false) => None
  end.

(** [parseInt(s, 16)]: NaN without a digit; otherwise the Number value of
    the signed integer, which is the nearest double (and [-0] for a zero
    with a minus sign). *)
Definition parseInt16 (s : string) : Double.double :=
  match mathInt16 s with
  | None => Double.NaN
  | Some (negative, v) =>
      binary_normalize Double.prec Double.emax (if negative then - v else v) 0 negative
  end.

(** [hexToFreq(hex, base)]:
    [val = parseInt(hex.replace('#', ''), 16); offset = val % 300;
     return base + offset]. *)
Definition hexToFreq (hex : string) (base : Double.double) : Double.double :=
  let val := parseInt16 (removeFirstHash hex) in
  let offset := Double.rem val (Double.toNumber 300) in
  Double.add base offset.

(** The default parameter [base = 200]. *)
Definition hexToFreq_default (hex : string) : Double.double :=
  hexToFreq hex (Double.toNumber 200).

(** The frequency of slot [i] in [updateAudioDrone]:
    [hexToFreq(color, 150 + (i * 100))]. *)
Definition slotFreq (color : string) (i : nat) : Double.double :=
  hexToFreq color
    (Double.add (Double.toNumber 150)
                (Double.mul (Double.toNumber (Z.of_nat i)) (Double.toNumber 100))).

(** The integer a string of hexadecimal digits denotes, written from the
    positional definition (digit times power of sixteen), to be compared with
    what [parseInt16] reads.  A character that is no digit counts as zero;
    the theorems use it on digit strings only. *)
Fixpoint hexValue (digits : string) : Z :=
  match digits with
  | EmptyString => 0
  | String c rest =>
      match hexDigit c with
      | Some d => d * 16 ^ Z.of_nat (String.length rest) + hexValue rest
      | None => hexValue rest
      end
  end.

Fixpoint allHexDigits (s : string) : bool :=
  match s with
  | EmptyString => true
  | String c rest =>
      match hexDigit c with
      | Some _ => allHexDigits rest
      | None => false
      end
  end.

End Tone.

(** ** The theme service: [generateTheme] *)

Module ThemeService.

Open Scope string_scope.

(** A value as [JSON.parse] returns it.  [generateTheme] casts the parsed
    value to [ThemeResponse] without looking at it, so what it returns is a
    value of this type. *)
#[local] Unset Elimination Schemes.
Inductive JSON :=
| JNull
| JBool (b : bool)
| JNumber (n : Number)
| JString (s : string)
| JArray (items : list JSON)
| JObject (fields : list (string * JSON)).
#[local] Set Elimination Schemes.

(** How an awaited call settles. *)
Inductive Settled (A : Type) :=
| Resolved (a : A)
| Rejected.
Arguments Resolved {A} a.
Arguments Rejected {A}.

(** [response.text]: a string or [undefined]. *)
Record GenerateContentResponse := mkResponse { text : option string }.

Definition startsWith (p s : string) : bool :=
  match String.length p <=? String.length s with
  | true => String.eqb p (substring 0 (String.length p) s)
  | false => false
  end%nat.

Definition endsWith (p s : string) : bool :=
  match String.length p <=? String.length s with
  | true => String.eqb p (substring (String.length s - String.length p) (String.length p) s)
  | false => false
  end%nat.

Definition dropStart (n : nat) (s : string) : string :=
  substring n (String.length s - n) s.

Definition dropEnd (n : nat) (s : string) : string :=
  substring 0 (String.length s - n) s.

(** The text without the white space it ends with: from the first place
    after which there is only white space, nothing is kept. *)
Fixpoint trimEnd (s : string) : string :=
  match s with
  | EmptyString => EmptyString
  | String c rest =>
      if Tone.isBlank (String c rest) then EmptyString else String c (trimEnd rest)
  end.

(** [String.prototype.trim] *)
Definition trim (s : string) : string := trimEnd (Tone.trimStart s).

(** [text.replace(/^```json\s*/, "")] *)
Definition stripFenceStart (s : string) : string :=
  if startsWith "```json" s then Tone.trimStart (dropStart 7 s) else s.

(** [.replace(/```$/, "")] *)
Definition stripFenceEnd (s : string) : string :=
  if endsWith "```" s then dropEnd 3 s else s.

(** The clean-up of markdown fences before parsing. *)
Definition cleanUp (s : string) : string := trim (stripFenceEnd (stripFenceStart s)).

(** The object the [catch] block returns. *)
Definition fallback : JSON :=
  JObject
    [ ("colors", JArray [JString "#FF0000"; JString "#00FF00"; JString "#FFD700";
                         JString "#FFFFFF"; JString "#0000FF"]);
      ("greeting", JString "Happy Holidays! (System Rebooting... Energy restored)");
      ("musicMood", JString "Traditional") ].

(** Property lookup on a parsed value. *)
Fixpoint assoc (k : string) (fields : list (string * JSON)) : option JSON :=
  match fields with
  | [] => None
  | (k', v) :: rest => if String.eqb k k' then Some v else assoc k rest
  end.

Definition getField (k : string) (v : JSON) : option JSON :=
  match v with
  | JObject fields => assoc k fields
  | _ => None
  end.

(** The double quote character. *)
Definition doubleQuote : ascii := ascii_of_nat 34.

Section Service.

(** [ai.models.generateContent], called with the [contents] string: the
    remote call resolves with a response or rejects. *)
Variable generateContent : string -> Settled GenerateContentResponse.

(** [JSON.parse]: [None] is a thrown [SyntaxError]. *)
Variable JSON_parse : string -> option JSON.

(** The request text built from the prompt, which it puts between double
    quotes. *)
Definition contentsOf (prompt : string) : string :=
  "Generate a visual theme based on this description: "
  ++ String doubleQuote (prompt ++ String doubleQuote EmptyString).

(** The [try] block: [None] stands for an exception that reaches [catch]. *)
Definition tryBlock (prompt : string) : option JSON :=
  match generateContent (contentsOf prompt) with
  | Rejected => None
  | Resolved response =>
      match text response with
      | None => None
      | Some "" => None
      | Some t => JSON_parse (cleanUp t)
      end
  end.

(** [generateTheme(prompt)]: how the returned promise settles.  The [catch]
    block logs and returns the fallback. *)
Definition generateTheme (prompt : string) : Settled JSON :=
  match tryBlock prompt with
  | Some parsed => Resolved parsed
  | None => Resolved fallback
  end.

(** The three ways the [try] block fails: the call rejects, the response has
    no text, or the cleaned text is not JSON.  (A text that is JSON of another
    shape than [ThemeResponse] does not make it fail.) *)
Definition serviceFails (prompt : string) : Prop :=
  generateContent (contentsOf prompt) = Rejected.

Definition responseNotJSON (prompt : string) : Prop :=
  exists response,
    generateContent (contentsOf prompt) = Resolved response /\
    match text response with
    | None => True
    | Some t => t = "" \/ JSON_parse (cleanUp t) = None
    end.

End Service.

End ThemeService.

(** ** The tree component: [useTreeData] *)

Module ChristmasTree.

Open Scope string_scope.
Open Scope list_scope.

(** The fixed accent palette; the last entry is the dimmed white. *)
Definition HSR_PALETTE : list string :=
  ["#00F0FF"; "#7000FF"; "#FF0066"; "#FFD700"; "#D0D0FF"].

Inductive DecorationType := photo | bell | spinning_star | twinkling_bauble | bauble.

Definition Vec3 : Type := Number * Number * Number.

Record DecorationData := mkDecoration {
  dec_type : DecorationType;
  dec_position : Vec3;
  dec_rotation : option Vec3;
  dec_color : option string;
  dec_id : string;
  dec_size : option Number;
  dec_url : option string
}.

(** The returned object.  [positions] and [colors] are flat: three numbers
    for each point. *)
Record TreeData := mkTreeData {
  positions : list Number;
  tree_colors : list Number;
  tree_decorations : list DecorationData
}.

(** The arrays the closures of [useTreeData] push to, with the number of
    [Math.random()] calls made so far. *)
Record Buffers := mkBuffers {
  points : list Number;
  pointColors : list Number;
  decorations : list DecorationData;
  draws : nat
}.

(** How a call ends: normally, with a [TypeError], or with the recursion
    budget of the model used up. *)
Inductive Outcome (A : Type) :=
| Done (a : A) (st : Buffers)
| TypeError
| OutOfFuel.
Arguments Done {A} a st.
Arguments TypeError {A}.
Arguments OutOfFuel {A}.

Definition M (A : Type) : Type := Buffers -> Outcome A.

Definition ret {A} (a : A) : M A := fun st => Done a st.

Definition bind {A B} (m : M A) (f : A -> M B) : M B :=
  fun st =>
    match m st with
    | Done a st' => f a st'
    | TypeError => TypeError
    | OutOfFuel => OutOfFuel
    end.

Definition throwTypeError {A} : M A := fun _ => TypeError.
Definition outOfFuel {A} : M A := fun _ => OutOfFuel.

Notation "x <- m ;; k" := (bind m (fun x => k))
  (at level 61, m at next level, right associativity).
Notation "m ;;; k" := (bind m (fun _ => k))
  (at level 61, right associativity).

(** [for (let i = start; i < start + count; i++) body], threading the local
    variables the body assigns. *)
Fixpoint forN {S : Type} (count start : nat) (body : nat -> S -> M S) (s : S) : M S :=
  match count with
  | O => ret s
  | Datatypes.S count' => s' <- body start s ;; forN count' (Datatypes.S start) body s'
  end.

(** [String.prototype.toLowerCase] on one-byte characters. *)
Definition lowerChar (c : ascii) : ascii :=
  let n := nat_of_ascii c in
  if ((65 <=? n) && (n <=? 90))%nat then ascii_of_nat (n + 32) else c.

Fixpoint toLowerCase (s : string) : string :=
  match s with
  | EmptyString => EmptyString
  | String c rest => String (lowerChar c) (toLowerCase rest)
  end.

(** [arr[Math.floor(x)]]: [undefined] when the index is out of range. *)
Definition atFloor {A} (arr : list A) (x : Number) : option A :=
  let i := Qfloor x in
  if (0 <=? i)%Z then nth_error arr (Z.to_nat i) else None.

(** [arr.length] as a number. *)
Definition lengthOf {A} (arr : list A) : Number := inject_Z (Z.of_nat (List.length arr)).

(** [arr[Math.floor(r * arr.length)]] *)
Definition pick {A} (arr : list A) (r : Number) : option A :=
  atFloor arr (r * lengthOf arr).

(** [c !== '#FFFFFF' && c !== '#ffffff'] *)
Definition isRich (c : string) : bool :=
  negb (String.eqb c "#FFFFFF") && negb (String.eqb c "#ffffff").

(** A number of the loop counter. *)
Definition ofNat (n : nat) : Number := inject_Z (Z.of_nat n).

Section Generator.

(** Host functions. *)
Variable Math_cos Math_sin Math_sqrt : Number -> Number.
Variable Math_PI : Number.
(** [new Color(hex)]: the red, green and blue components. *)
Variable Color : string -> Number * Number * Number.
(** A number in a template literal. *)
Variable Number_toString : Number -> string.
(** The random source: [random n] is what the [n]-th call of [Math.random()]
    returns. *)
Variable random : nat -> Number.
(** The palette, argument of [useTreeData]. *)
Variable colors : list string.

(** [Math.random()] *)
Definition Math_random : M Number :=
  fun st =>
    Done (random (draws st))
         {| points := points st; pointColors := pointColors st;
            decorations := decorations st; draws := S (draws st) |}.

Definition combinedPalette : list string := colors ++ HSR_PALETTE.

Definition treeHeight : Number := 11.
Definition trunkBaseY : Number := -3.5.
Definition maxRadius : Number := 5.5.
Definition totalBranches : nat := 140.

(** [addPoint]: [colorHex] is [undefined] when the palette index missed, and
    [colorHex.toLowerCase()] then throws. *)
Definition addPoint (x y z : Number) (colorHex : option string) (brightnessMod : Number)
    : M unit :=
  match colorHex with
  | None => throwTypeError
  | Some hex =>
      let mod0 := Qmin brightnessMod 0.9 in
      let mod1 :=
        if String.eqb (toLowerCase hex) "#ffffff" || String.eqb (toLowerCase hex) "#fff"
        then mod0 * 0.7 else mod0 in
      let '(r, g, b) := Color hex in
      fun st =>
        Done tt
          {| points := points st ++ [x; y; z];
             pointColors := pointColors st ++ [r * mod1; g * mod1; b * mod1];
             decorations := decorations st;
             draws := draws st |}
  end.

(** [decorations.push(d)] *)
Definition pushDecoration (d : DecorationData) : M unit :=
  fun st =>
    Done tt
      {| points := points st; pointColors := pointColors st;
         decorations := decorations st ++ [d]; draws := draws st |}.

Definition segments : nat := 15.

(** The local variables the segment loop assigns:
    [currentX], [currentY], [currentZ], [dirY]. *)
Record Turtle := mkTurtle {
  currentX : Number;
  currentY : Number;
  currentZ : Number;
  dirY : Number
}.

(** The turtle move at segment [s]. *)
Definition advance (dirX dirZ length droopFactor : Number) (s : nat) (t : Turtle) : Turtle :=
  let progress := ofNat s / ofNat segments in
  let stepSize := length / ofNat segments in
  let dirY' := dirY t - droopFactor * 0.12 * progress in
  {| currentX := currentX t + dirX * stepSize;
     currentY := currentY t + dirY' * stepSize;
     currentZ := currentZ t + dirZ * stepSize;
     dirY := dirY' |}.

(** One foliage point: three scatter draws, one palette draw. *)
Definition foliagePoint (t : Turtle) (volumeSpread progress : Number) : M unit :=
  rx <- Math_random ;;
  ry <- Math_random ;;
  rz <- Math_random ;;
  let px := currentX t + (rx - 0.5) * volumeSpread in
  let py := currentY t + (ry - 0.5) * volumeSpread * 0.8 in
  let pz := currentZ t + (rz - 0.5) * volumeSpread in
  rc <- Math_random ;;
  let col := pick combinedPalette rc in
  addPoint px py pz col (0.4 + progress * 0.3).

Definition densityAt (depth : nat) : nat := if (depth =? 0)%nat then 20 else 8.

(** The decoration at the tip of a main branch. *)
Definition placeDecoration (startX startY directionAngle dirX dirZ : Number) (t : Turtle)
    : M unit :=
  rand <- Math_random ;;
  rid <- Math_random ;;
  let id := ("deco-" ++ Number_toString startX ++ "-" ++ Number_toString startY
             ++ "-" ++ Number_toString rid)%string in
  let tipX := currentX t + dirX * 0.2 in
  let tipY := currentY t - 0.2 in
  let tipZ := currentZ t + dirZ * 0.2 in
  let richPalette0 := filter isRich colors in
  let richPalette :=
    if (List.length richPalette0 =? 0)%nat
    then richPalette0 ++ [nth 2 HSR_PALETTE ""] else richPalette0 in
  let colorPool := richPalette ++ [nth 2 HSR_PALETTE ""; nth 3 HSR_PALETTE ""] in
  if Qgtb rand 0.96 then
    pushDecoration
      {| dec_type := photo;
         dec_position := (tipX, tipY - 0.3, tipZ);
         dec_rotation := Some (0, - directionAngle + Math_PI / 2, 0);
         dec_color := None;
         dec_id := id;
         dec_size := None;
         dec_url := Some ("https://picsum.photos/200/300?random=" ++ id)%string |}
  else if Qgtb rand 0.8 then
    rc <- Math_random ;;
    rs <- Math_random ;;
    pushDecoration
      {| dec_type := bell;
         dec_position := (tipX, tipY, tipZ);
         dec_rotation := None;
         dec_color := pick HSR_PALETTE rc;
         dec_id := id;
         dec_size := Some (0.6 + rs * 0.4);
         dec_url := None |}
  else if Qgtb rand 0.6 then
    rc <- Math_random ;;
    rs <- Math_random ;;
    pushDecoration
      {| dec_type := spinning_star;
         dec_position := (tipX, tipY + 0.1, tipZ);
         dec_rotation := None;
         dec_color := pick colorPool rc;
         dec_id := id;
         dec_size := Some (0.5 + rs * 0.5);
         dec_url := None |}
  else if Qgtb rand 0.4 then
    rc <- Math_random ;;
    rs <- Math_random ;;
    pushDecoration
      {| dec_type := twinkling_bauble;
         dec_position := (tipX, tipY, tipZ);
         dec_rotation := None;
         dec_color := pick colorPool rc;
         dec_id := id;
         dec_size := Some (0.6 + rs * 0.3);
         dec_url := None |}
  else
    rc <- Math_random ;;
    rs <- Math_random ;;
    pushDecoration
      {| dec_type := bauble;
         dec_position := (tipX, tipY, tipZ);
         dec_rotation := None;
         dec_color := pick colorPool rc;
         dec_id := id;
         dec_size := Some (0.5 + rs * 0.8);
         dec_url := None |}.

(** The signature of [generateBranch] once the budget is fixed. *)
Definition Branch : Type :=
  Number -> Number -> Number -> Number -> Number -> Number -> nat -> M unit.

(** The sub-branching block of the segment loop; [recur] is the recursive
    call.  [Math.random()] is called only when [depth === 0] holds, and
    [s > 1] is tested last. *)
Definition subBranch (recur : Branch) (directionAngle length progress : Number)
    (depth s : nat) (t1 : Turtle) : M unit :=
  if (depth =? 0)%nat then
    r <- Math_random ;;
    if Qltb r 0.45 && (1 <? s)%nat then
      ra <- Math_random ;;
      let spurAngle := directionAngle + (ra - 0.5) * 2.5 in
      let spurLength := length * 0.4 * (1 - progress) in
      rd <- Math_random ;;
      let spurDroop := if Qgtb rd 0.4 then -0.2 else 0.3 in
      recur (currentX t1) (currentY t1) (currentZ t1)
            spurAngle spurLength spurDroop (depth + 1)%nat
    else ret tt
  else ret tt.

(** The body of the segment loop. *)
Definition segment (recur : Branch) (directionAngle dirX dirZ length droopFactor : Number)
    (depth s : nat) (t0 : Turtle) : M Turtle :=
  let progress := ofNat s / ofNat segments in
  let t1 := advance dirX dirZ length droopFactor s t0 in
  let volumeSpread := (1.0 - progress) * (if (depth =? 0)%nat then 0.7 else 0.4) in
  forN (densityAt depth) 0
       (fun _ u => foliagePoint t1 volumeSpread progress ;;; ret u) tt ;;;
  subBranch recur directionAngle length progress depth s t1 ;;;
  ret t1.

(** [generateBranch].  The recursion of the source is on nothing that
    decreases, so the model recurses on a budget [fuel]: a call with no budget
    left ends in [OutOfFuel]. *)
Fixpoint generateBranch (fuel : nat)
    (startX startY startZ directionAngle length droopFactor : Number) (depth : nat)
    : M unit :=
  match fuel with
  | O => outOfFuel
  | S fuel' =>
      let dirX := Math_cos directionAngle in
      let dirZ := Math_sin directionAngle in
      t <- forN segments 0
             (segment (generateBranch fuel') directionAngle dirX dirZ length droopFactor depth)
             {| currentX := startX; currentY := startY; currentZ := startZ; dirY := 0.25 |} ;;
      if (depth =? 0)%nat
      then placeDecoration startX startY directionAngle dirX dirZ t
      else ret tt
  end.

Definition goldenAngle : Number := Math_PI * (3 - Math_sqrt 5).

(** The body of the main loop for branch [i]. *)
Definition mainBranch (fuel : nat) (i : nat) : M unit :=
  let t := ofNat i / ofNat totalBranches in
  let y := trunkBaseY + (t * treeHeight) in
  let r := maxRadius * (1 - t) + 0.3 in
  let theta := ofNat i * goldenAngle in
  rv <- Math_random ;;
  let variance := (rv - 0.5) * 1.2 in
  let angle := theta + variance in
  rl <- Math_random ;;
  let length := r * (0.5 + rl * 0.9) in
  let droop := 0.6 - (t * 0.9) in
  generateBranch fuel 0 y 0 angle length droop 0.

Definition emptyBuffers : Buffers :=
  {| points := []; pointColors := []; decorations := []; draws := 0 |}.

(** The whole [useMemo] callback, from empty buffers. *)
Definition generate (fuel : nat) : Outcome unit :=
  forN totalBranches 0 (fun i u => mainBranch fuel i ;;; ret u) tt emptyBuffers.

(** [useTreeData(colors)]: the generated object, or how the call failed. *)
Definition useTreeData (fuel : nat) : Outcome TreeData :=
  match generate fuel with
  | Done _ st =>
      Done {| positions := points st;
              tree_colors := pointColors st;
              tree_decorations := decorations st |} st
  | TypeError => TypeError
  | OutOfFuel => OutOfFuel
  end.

End Generator.

(** The number of points of the cloud. *)
Definition pointCount (td : TreeData) : nat := (List.length (positions td) / 3)%nat.

End ChristmasTree.

(** * Specification vocabulary *)

Module TreeSpec.

Import ChristmasTree.
Open Scope string_scope.
Open Scope list_scope.

(** [post T m st P]: from [st] the call [m] ends normally in a result and
    state that satisfy [P]; it may end in a [TypeError] only if [T] holds, and
    never runs out of budget. *)
Definition post {A} (T : Prop) (m : M A) (st : Buffers) (P : A -> Buffers -> Prop) : Prop :=
  match m st with
  | Done a st' => P a st'
  | TypeError => T
  | OutOfFuel => False
  end.

(** The contract of [Math.random()]: a number in [0, 1). *)
Definition inUnit (random : nat -> Number) : Prop :=
  forall n, 0 <= random n /\ random n < 1.

(** Random sources whose draws all pass, or all fail, the test [< c]. *)
Definition allBelow (random : nat -> Number) (c : Number) : Prop :=
  forall n, random n < c.
Definition noneBelow (random : nat -> Number) (c : Number) : Prop :=
  forall n, c <= random n.

(** [st'] extends [st] by [np] points (three numbers each, in both flat
    arrays) and by the decorations [ds]; draws are only added. *)
Definition grew (st st' : Buffers) (np : nat) (ds : list DecorationData) : Prop :=
  List.length (points st') = (List.length (points st) + 3 * np)%nat /\
  List.length (pointColors st') = (List.length (pointColors st) + 3 * np)%nat /\
  decorations st' = decorations st ++ ds /\
  (draws st <= draws st')%nat.

(** The decoration bands in the specification's words: above 0.96 a photo,
    above 0.8 a bell, above 0.6 a spinning star, above 0.4 a twinkling bauble,
    else a plain bauble. *)
Definition bandOfSpec (r : Number) : DecorationType :=
  if Qgtb r 0.96 then photo
  else if Qgtb r 0.8 then bell
  else if Qgtb r 0.6 then spinning_star
  else if Qgtb r 0.4 then twinkling_bauble
  else bauble.

(** The turtle after the segments [start .. start + count - 1]. *)
Fixpoint walk (dirX dirZ length droopFactor : Number) (count start : nat) (t : Turtle)
    : Turtle :=
  match count with
  | O => t
  | S count' =>
      walk dirX dirZ length droopFactor count' (S start)
           (advance dirX dirZ length droopFactor start t)
  end.

(** The tip of a branch: the turtle after all fifteen segments. *)
Definition branchTip (Math_cos Math_sin : Number -> Number)
    (startX startY startZ directionAngle length droopFactor : Number) : Turtle :=
  walk (Math_cos directionAngle) (Math_sin directionAngle) length droopFactor segments 0
       {| currentX := startX; currentY := startY; currentZ := startZ; dirY := 0.25 |}.

(** Where a decoration of a given kind hangs relative to the tip. *)
Definition tipPosition (dirX dirZ : Number) (t : Turtle) (kind : DecorationType) : Vec3 :=
  let tipX := currentX t + dirX * 0.2 in
  let tipY := currentY t - 0.2 in
  let tipZ := currentZ t + dirZ * 0.2 in
  match kind with
  | photo => (tipX, tipY - 0.3, tipZ)
  | spinning_star => (tipX, tipY + 0.1, tipZ)
  | _ => (tipX, tipY, tipZ)
  end.

(** The colour of a decoration: a photo has none; a bell takes an accent
    colour; the others take a colour the filter kept or one of the two accent
    colours added to the pool. *)
Definition colourOK (colors : list string) (d : DecorationData) : Prop :=
  match dec_type d with
  | photo => dec_color d = None
  | bell => exists c, dec_color d = Some c /\ In c HSR_PALETTE
  | _ => exists c, dec_color d = Some c /\
                   In c (filter isRich colors ++ ["#FF0066"; "#FFD700"])
  end.

(** [k] spurs were spawned where at most [bound] could be: all of them when
    every draw passes the spur test, none when every draw fails it. *)
Definition spurBound (random : nat -> Number) (k bound : nat) : Prop :=
  (k <= bound)%nat /\
  (allBelow random 0.45 -> k = bound) /\
  (noneBelow random 0.45 -> k = 0%nat).

(** The decoration [d] of a main branch with tip [tip]: its kind is the band
    of one draw made between [lo] and [hi], it hangs at the tip, and its
    colour is as [colourOK] says when the random source keeps its contract. *)
Definition tipDecoration (random : nat -> Number) (colors : list string)
    (dirX dirZ : Number) (tip : Turtle) (lo hi : nat) (d : DecorationData) : Prop :=
  (exists i, (lo <= i < hi)%nat /\ dec_type d = bandOfSpec (random i)) /\
  dec_position d = tipPosition dirX dirZ tip (dec_type d) /\
  (inUnit random -> colourOK colors d).

(** What the whole tree keeps of [tipDecoration]: the band and the colour. *)
Definition mainDecoration (random : nat -> Number) (colors : list string)
    (d : DecorationData) : Prop :=
  (exists i, dec_type d = bandOfSpec (random i)) /\
  (inUnit random -> colourOK colors d).

End TreeSpec.


(** * Further vocabulary *)

Module Coverage.

Import ListNotations.
Open Scope string_scope.
Open Scope list_scope.

(** The range the comments of [HandData] give its coordinates: 0 to 1. *)
Definition inFrame (hd : HandData) : Prop :=
  0 <= rawX hd /\ rawX hd <= 1 /\ 0 <= rawY hd /\ rawY hd <= 1.

(** A landmark in normalized image coordinates (0 left to 1 right, 0 top
    to 1 bottom). *)
Definition normalized (l : HandTracker.Landmark) : Prop :=
  0 <= HandTracker.lx l /\ HandTracker.lx l <= 1 /\
  0 <= HandTracker.ly l /\ HandTracker.ly l <= 1.

(** The pointer of the canvas, each coordinate between -1 and 1. *)
Definition pointerInRange (m : SceneContainer.Mouse) : Prop :=
  -1 <= SceneContainer.mouse_x m /\ SceneContainer.mouse_x m <= 1 /\
  -1 <= SceneContainer.mouse_y m /\ SceneContainer.mouse_y m <= 1.

(** A colour written as [#] and one to thirteen hexadecimal digits (a
    colour has three to eight; up to thirteen the value is below 2^52). *)
Definition isHexColor (s : string) : bool :=
  match s with
  | String c digits =>
      Ascii.eqb c "#" && Tone.allHexDigits digits &&
      negb (String.eqb digits EmptyString) &&
      (String.length digits <=? 13)%nat
  | EmptyString => false
  end.

(** [state.colors.slice(0, 3).forEach((color, i) => ...)] of
    [updateAudioDrone]: the frequency given to the oscillator of each slot,
    [hexToFreq(color, 150 + (i * 100))]. *)
Fixpoint slotsFrom (i : nat) (colors : list string) : list Double.double :=
  match colors with
  | [] => []
  | color :: rest => Tone.slotFreq color i :: slotsFrom (S i) rest
  end.

Definition droneFrequencies (colors : list string) : list Double.double :=
  slotsFrom 0 (firstn 3 colors).

End Coverage.

(** * The tree component: what is rendered *)

Module TreeCoverage.

Import ListNotations.
Import ChristmasTree.
Open Scope string_scope.
Open Scope list_scope.

(** The element the [decorations.map] of the component returns for one
    decoration.  [deco.url!] and [deco.color!] are assertions of the type
    checker only: what is passed is the field as it is, [undefined] ([None])
    included; [deco.rotation || [0,0,0]] has a default. *)
Inductive Element :=
| PhotoOrnament (key : string) (position rotation : Vec3) (url : option string)
| HolographicBell (key : string) (position : Vec3) (color : option string)
                  (size : option Number)
| SpinningStar (key : string) (position : Vec3) (color : option string)
               (size : option Number)
| TwinklingBauble (key : string) (position : Vec3) (color : option string)
                  (size : option Number)
| QuantumBauble (key : string) (position : Vec3) (color : option string)
                (size : option Number).

Definition renderDecoration (deco : DecorationData) : Element :=
  match dec_type deco with
  | photo =>
      PhotoOrnament (dec_id deco) (dec_position deco)
        (match dec_rotation deco with Some r => r | None => (0, 0, 0) end)
        (dec_url deco)
  | bell => HolographicBell (dec_id deco) (dec_position deco) (dec_color deco) (dec_size deco)
  | spinning_star =>
      SpinningStar (dec_id deco) (dec_position deco) (dec_color deco) (dec_size deco)
  | twinkling_bauble =>
      TwinklingBauble (dec_id deco) (dec_position deco) (dec_color deco) (dec_size deco)
  | bauble => QuantumBauble (dec_id deco) (dec_position deco) (dec_color deco) (dec_size deco)
  end.

(** An element all of whose properties are defined, with the size of each
    kind of ornament in the range its generator line gives it. *)
Definition sizeWithin (lo hi : Number) (size : option Number) : Prop :=
  exists s, size = Some s /\ lo <= s /\ s < hi.

Definition complete (e : Element) : Prop :=
  match e with
  | PhotoOrnament _ _ _ url => exists u, url = Some u
  | HolographicBell _ _ color size => (exists c, color = Some c) /\ sizeWithin 0.6 1.0 size
  | SpinningStar _ _ color size => (exists c, color = Some c) /\ sizeWithin 0.5 1.0 size
  | TwinklingBauble _ _ color size => (exists c, color = Some c) /\ sizeWithin 0.6 0.9 size
  | QuantumBauble _ _ color size => (exists c, color = Some c) /\ sizeWithin 0.5 1.3 size
  end.

(** The record of a decoration as the generator pushes it: a photo carries
    a rotation and the picture address built from its id, and nothing else;
    every other kind carries a colour and a size, and nothing else. *)
Definition placed (d : DecorationData) : Prop :=
  match dec_type d with
  | photo =>
      dec_color d = None /\ dec_size d = None /\
      (exists r, dec_rotation d = Some r) /\
      dec_url d = Some ("https://picsum.photos/200/300?random=" ++ dec_id d)%string
  | _ =>
      (exists c, dec_color d = Some c) /\ (exists s, dec_size d = Some s) /\
      dec_rotation d = None /\ dec_url d = None
  end /\
  complete (renderDecoration d).

(** The test of [addPoint] for a white colour. *)
Definition whiteTest (hex : string) : bool :=
  String.eqb (toLowerCase hex) "#ffffff" || String.eqb (toLowerCase hex) "#fff".

(** The three numbers [addPoint] pushes for a colour scaled by [m]. *)
Definition shaded (Color : string -> Number * Number * Number)
    (shade : string * Number) : list Number :=
  let '(hex, m) := shade in
  let '(r, g, b) := Color hex in
  [r * m; g * m; b * m].

(** A colour of the combined palette with its brightness: between 0.4 and
    0.68, times 0.7 for a colour the white test catches. *)
Definition shadeOK (colors : list string) (shade : string * Number) : Prop :=
  let '(hex, m) := shade in
  In hex (colors ++ HSR_PALETTE) /\
  0.28 <= m /\ m <= 0.68 /\
  (whiteTest hex = true -> m <= 0.476) /\
  (whiteTest hex = false -> 0.4 <= m).

End TreeCoverage.

(** * The ornament colours: vocabulary

    [addPoint] takes a colour for white when its lower-case form is #ffffff
    or #fff ([whiteTest]); the filter of the ornament palette, whose comment
    says that it keeps white out of the ornaments, removes the two spellings
    #FFFFFF and #ffffff ([isRich]).  The statements on the ornament colours
    are about the palettes on which the two agree. *)

Module OrnamentSpec.

Import ChristmasTree TreeCoverage.
Open Scope string_scope.
Open Scope list_scope.


(** A palette with no entry other than white: empty, or white throughout,
    in whatever spelling. *)
Definition allWhite (colors : list string) : Prop :=
  forall c, In c colors -> whiteTest c = true.



(** An ornament as the generator makes them when every draw is 0: a plain
    bauble of the colour [c]. *)
Definition baubleOf (c : string) (d : DecorationData) : Prop :=
  dec_type d = bauble /\ dec_color d = Some c.

End OrnamentSpec.

(** * The theme service: shapes of a response text *)

Module ThemeCoverage.

Open Scope string_scope.

(** A string of white space only. *)
Definition allWhiteSpace (s : string) : bool := Tone.isBlank s.

(** A text with no white space at either end. *)
Definition trimmed (s : string) : Prop :=
  Tone.trimStart s = s /\ ThemeService.trimEnd s = s.

(** The last character of a string, if it has one. *)
Fixpoint lastChar (s : string) : option ascii :=
  match s with
  | EmptyString => None
  | String c EmptyString => Some c
  | String _ rest => lastChar rest
  end.

(** A body between markdown fences, with white space [ws1] and [ws2]
    around it inside the fences and [ws3] after the closing fence. *)
Definition fenced (ws1 body ws2 ws3 : string) : string :=
  "```json" ++ ws1 ++ body ++ ws2 ++ "```" ++ ws3.

End ThemeCoverage.

(** * The per-frame simulators *)

(** [MathUtils.lerp(x, y, t)] of three.js: [(1 - t) * x + t * y]. *)
Definition lerp (x y t : Number) : Number := (1 - t) * x + t * y.

(** ** The ambient particles of the tree: [EmanatingParticles] *)

Module Emanating.

Import ListNotations.
Open Scope list_scope.

(** An entry of [metaData]. *)
Record Particle := mkParticle {
  velocity : Number;
  angle : Number;
  radius : Number;
  y : Number
}.

(** [speedMultiplier] and [rotationForce]: set from the hand record while
    its gesture is ['NONE'], else the defaults 1 and 0.5. *)
Definition handControl (handData : Ref HandData) : Number * Number :=
  match handData with
  | Some hd =>
      match gesture hd with
      | NONE => (0.5 + ((1 - rawY hd) * 2), (rawX hd - 0.5) * 4)
      | _ => (1, 0.5)
      end
  | None => (1, 0.5)
  end.

Section Frame.

Variable Math_cos Math_sin : Number -> Number.
Variable Math_PI : Number.
(** [random n] is the [n]-th number this component gets from
    [Math.random()]. *)
Variable random : nat -> Number.

(** The object the [map] callback of [metaData] builds: four draws, in the
    order of its properties. *)
Definition newParticle (draws : nat) : Particle :=
  {| velocity := random draws * 0.03 + 0.01;
     angle := random (draws + 1) * Math_PI * 2;
     radius := random (draws + 2) * 4.5;
     y := random (draws + 3) * 10 - 4 |}.

(** [new Array(count).fill(0).map(...)] *)
Fixpoint newMetaData (count draws : nat) : list Particle :=
  match count with
  | O => []
  | S count' => newParticle draws :: newMetaData count' (draws + 4)
  end.

(** The body of the loop for one particle: the particle as the frame leaves
    it, the triple given to [setXYZ], and the number of draws made so far.
    The radius used for the position is computed before the respawn test. *)
Definition stepParticle (speedMultiplier rotationForce delta : Number)
    (particle : Particle) (draws : nat) : Particle * (Number * Number * Number) * nat :=
  let y1 := y particle + velocity particle * speedMultiplier * (delta * 60) in
  let angle1 := angle particle + rotationForce * 0.01 in
  let heightFactor := Qmax 0 ((10 - (y1 + 2)) / 10) in
  let currentRadius := radius particle * heightFactor in
  let '(y2, radius2, draws2) :=
    if Qgtb y1 8 then (-4, random draws * 5.0, S draws)
    else (y1, radius particle, draws) in
  let x := Math_cos angle1 * currentRadius in
  let z := Math_sin angle1 * currentRadius in
  ({| velocity := velocity particle; angle := angle1; radius := radius2; y := y2 |},
   (x, y2, z), draws2).

(** The loop over [metaData] (its length is [count]), in index order. *)
Fixpoint stepParticles (speedMultiplier rotationForce delta : Number)
    (metaData : list Particle) (draws : nat)
    : list Particle * list (Number * Number * Number) * nat :=
  match metaData with
  | [] => ([], [], draws)
  | particle :: rest =>
      let '(particle', xyz, draws1) :=
        stepParticle speedMultiplier rotationForce delta particle draws in
      let '(rest', positions, draws2) :=
        stepParticles speedMultiplier rotationForce delta rest draws1 in
      (particle' :: rest', xyz :: positions, draws2)
  end.

(** What the frame callback reads and writes: [metaData], the position
    attribute (one triple for each particle) and the draws made. *)
Record State := mkState {
  metaData : list Particle;
  positions : list (Number * Number * Number);
  drawn : nat
}.

(** One [useFrame] tick; without a mesh ([meshRef.current] is [null]) the
    callback returns at once. *)
Definition useFrame (mesh : bool) (handData : Ref HandData) (delta : Number)
    (st : State) : State :=
  if mesh then
    let '(speedMultiplier, rotationForce) := handControl handData in
    let '(metaData', positions', drawn') :=
      stepParticles speedMultiplier rotationForce delta (metaData st) (drawn st) in
    {| metaData := metaData'; positions := positions'; drawn := drawn' |}
  else st.

(** A frame as the render loop supplies it: the content of the hand ref
    and the time since the last frame. *)
Definition Tick : Type := Ref HandData * Number.

Fixpoint runFrames (ticks : list Tick) (st : State) : State :=
  match ticks with
  | [] => st
  | (handData, delta) :: rest => runFrames rest (useFrame true handData delta st)
  end.

(** The state at mount: 800 particles, a position buffer of zeros. *)
Definition count : nat := 800.

Definition initialState : State :=
  {| metaData := newMetaData count 0;
     positions := repeat (0, 0, 0) count;
     drawn := 4 * count |}.

End Frame.

(** A particle within the bounds the code keeps: the speed it was born
    with, a radius of at most 5, a height between the floor -4 and the
    ceiling 8. *)
Definition inBounds (p : Particle) : Prop :=
  0.01 <= velocity p /\ velocity p <= 0.04 /\
  0 <= radius p /\ radius p <= 5 /\
  -4 <= y p /\ y p <= 8.

(** A tick of the render loop: time does not run backwards, and the hand
    record, if there is one, is within the frame. *)
Definition tickOK (tick : Tick) : Prop :=
  0 <= snd tick /\
  match fst tick with
  | Some hd => 0 <= rawX hd /\ rawX hd <= 1 /\ 0 <= rawY hd /\ rawY hd <= 1
  | None => True
  end.

End Emanating.

(** ** The tree group: the frame callback of [ChristmasTree] *)

Module TreeGroup.

Import ListNotations.
Open Scope list_scope.

(** What the callback reads and writes of the group: its scale (the three
    components are always set to one number), its rotation about the vertical
    axis and [revealTimeRef.current]. *)
Record State := mkState {
  scale : Number;
  rotationY : Number;
  revealTime : Number
}.

(** The group is mounted with [scale = [0, 0, 0]]. *)
Definition initialState : State := {| scale := 0; rotationY := 0; revealTime := 0 |}.

(** One [useFrame] tick; without a group the callback returns at once. *)
Definition useFrame (group visible : bool) (handData : Ref HandData) (delta : Number)
    (st : State) : State :=
  if group then
    let '(scaleControl, rotationSpeed) :=
      match handData with
      | Some hd =>
          if visible then
            match gesture hd with
            | NONE => (1 - rawY hd, rawX hd * 0.3)
            | _ => (0.5, 0.2)
            end
          else (0.5, 0.2)
      | None => (0.5, 0.2)
      end in
    let revealTime' := if visible then lerp (revealTime st) 1 (delta * 0.5) else 0 in
    let dynamicScale := 0.5 + scaleControl in
    let finalScale := if visible then dynamicScale * revealTime' else 0 in
    let lerpedScale := lerp (scale st) finalScale 0.05 in
    let rotationY' :=
      if visible
      then rotationY st + ((rotationSpeed - 0.15) * 0.02 + 0.0008)
      else rotationY st in
    {| scale := lerpedScale; rotationY := rotationY'; revealTime := revealTime' |}
  else st.

(** A frame: whether the tree is visible (the phase is TREE), the content
    of the hand ref and the time since the last frame. *)
Definition Tick : Type := bool * Ref HandData * Number.

Fixpoint runFrames (ticks : list Tick) (st : State) : State :=
  match ticks with
  | [] => st
  | (visible, handData, delta) :: rest =>
      runFrames rest (useFrame true visible handData delta st)
  end.

(** A tick with a frame time of at most two seconds and a hand record
    within the frame. *)
Definition tickOK (tick : Tick) : Prop :=
  let '(visible, handData, delta) := tick in
  0 <= delta /\ delta <= 2 /\
  match handData with
  | Some hd => 0 <= rawX hd /\ rawX hd <= 1 /\ 0 <= rawY hd /\ rawY hd <= 1
  | None => True
  end.

End TreeGroup.

(** ** The snowflakes: [IntroSnowflakes]

    The position and colour attributes are [Float32Array]s: the code stores
    each number rounded to single precision.  As everywhere in this file the
    numbers are exact here, so the equations below are those of the
    arithmetic the stores round. *)

Module Snowflakes.

Import ListNotations.
Open Scope list_scope.

Definition Vec3 : Type := Number * Number * Number.

Section Frame.

Variable Math_sin Math_sqrt : Number -> Number.
(** The components of [new Color('#E0FFFF')] and [new Color('#0088FF')]. *)
Variable white blue : Vec3.
(** [random n] is the [n]-th number this component gets from
    [Math.random()]. *)
Variable random : nat -> Number.

(** The body of the loop for one flake: its position [(cx, cy, cz)] and
    colour as the frame leaves them.  [velocity] and [target] are its entries
    of [initialData.velocities] and [targetPositions]; [r] is the number
    [Math.random()] returns if the TREE branch asks for one.  (The swirl
    values [nx] and [nz] of the GATHER branch are computed and never used.) *)
Definition stepFlake (phase : AppPhase) (delta currentTime r : Number)
    (position velocity target color : Vec3) : Vec3 * Vec3 :=
  let '(cx, cy, cz) := position in
  let '(vx, vy, vz) := velocity in
  let lerpSpeed := delta * 2.5 in
  match phase with
  | SNOW =>
      let cx1 := cx + (vx + Math_sin (currentTime + cy) * 0.01) in
      let cy1 := cy + (vy - 0.01) in
      let cz1 := cz + vz in
      let cy2 := if Qltb cy1 (-10) then 10 else cy1 in
      ((cx1, cy2, cz1), white)
  | GATHER =>
      let '(tx, ty, tz) := target in
      let '(r0, g0, b0) := color in
      let '(br, bg, bb) := blue in
      ((lerp cx tx lerpSpeed, lerp cy ty lerpSpeed, lerp cz tz lerpSpeed),
       (lerp r0 br lerpSpeed, lerp g0 bg lerpSpeed, lerp b0 bb lerpSpeed))
  | TREE =>
      let dist := Math_sqrt (cx * cx + cz * cz) in
      let cx1 := cx + (cx / (dist + 0.1)) * 0.1 in
      let cz1 := cz + (cz / (dist + 0.1)) * 0.1 in
      let cy1 := cy - (0.2 + (r * 0.2)) in
      let cy2 := if Qltb cy1 (-10) then -100 else cy1 in
      ((cx1, cy2, cz1), color)
  end.

(** What the frame callback reads and writes: the position and colour
    attributes (one triple for each flake), the rotation of the mesh about the
    z axis and the draws made. *)
Record State := mkState {
  positions : list Vec3;
  colors : list Vec3;
  rotationZ : Number;
  drawn : nat
}.

(** The loop over the flakes from index [i], with the velocities and
    targets of the same indices.  The TREE branch makes one draw for each
    flake; the other branches make none. *)
Fixpoint stepFlakes (phase : AppPhase) (delta currentTime : Number)
    (positions velocities targets colors : list Vec3) (draws : nat)
    : list Vec3 * list Vec3 * nat :=
  match positions, velocities, targets, colors with
  | position :: ps, velocity :: vs, target :: ts, color :: cs =>
      let '(position', color') :=
        stepFlake phase delta currentTime (random draws) position velocity target color in
      let draws1 := match phase with TREE => S draws | _ => draws end in
      let '(ps', cs', draws2) :=
        stepFlakes phase delta currentTime ps vs ts cs draws1 in
      (position' :: ps', color' :: cs', draws2)
  | _, _, _, _ => ([], [], draws)
  end.

(** One [useFrame] tick; without a mesh the callback returns at once. *)
Definition useFrame (mesh : bool) (phase : AppPhase) (delta currentTime : Number)
    (velocities targets : list Vec3) (st : State) : State :=
  if mesh then
    let '(positions', colors', drawn') :=
      stepFlakes phase delta currentTime (positions st) velocities targets (colors st)
                 (drawn st) in
    {| positions := positions';
       colors := colors';
       rotationZ := match phase with
                    | GATHER => rotationZ st + delta * 0.2
                    | _ => rotationZ st
                    end;
       drawn := drawn' |}
  else st.

(** A frame as the render loop supplies it: the phase, the time since the
    last frame and the clock. *)
Definition Tick : Type := AppPhase * Number * Number.

Fixpoint runFrames (ticks : list Tick) (velocities targets : list Vec3) (st : State)
    : State :=
  match ticks with
  | [] => st
  | (phase, delta, currentTime) :: rest =>
      runFrames rest velocities targets
                (useFrame true phase delta currentTime velocities targets st)
  end.

(** [initialData]: for each flake three draws for its position and three
    for its velocity. *)
Fixpoint initialData (count draws : nat) : list Vec3 * list Vec3 :=
  match count with
  | O => ([], [])
  | S count' =>
      let p := ((random draws - 0.5) * 25,
                (random (draws + 1) - 0.5) * 25,
                (random (draws + 2) - 0.5) * 10) in
      let v := ((random (draws + 3) - 0.5) * 0.02,
                (random (draws + 4) - 0.5) * 0.02,
                (random (draws + 5) - 0.5) * 0.02) in
      let '(ps, vs) := initialData count' (draws + 6) in
      (p :: ps, v :: vs)
  end.

End Frame.

(** The four arrays have one entry for each of [count] flakes. *)
Definition sized (count : nat) (velocities targets : list Vec3) (st : State) : Prop :=
  List.length (positions st) = count /\ List.length (colors st) = count /\
  List.length velocities = count /\ List.length targets = count.

End Snowflakes.

(** * Example inputs *)

Module Examples.

Import ListNotations.

(** A hand of 21 landmarks, all at the centre of the image. *)
Definition centredHand : list HandTracker.Landmark :=
  repeat (HandTracker.mkLandmark 0.5 0.5) 21.

Definition restingHand : HandData :=
  {| rawX := 0.5; rawY := 0.5; gesture := NONE; isTracking := false |}.

(** Three frames: an open hand, a fist, and a frame with a [null] ref. *)
Definition threeFrames : list SceneContainer.FrameInput :=
  [ (SceneContainer.mkMouse 0 0,
     Some {| rawX := 0.5; rawY := 0.5; gesture := OPEN; isTracking := true |});
    (SceneContainer.mkMouse 0 0,
     Some {| rawX := 0.5; rawY := 0.5; gesture := FIST; isTracking := true |});
    (SceneContainer.mkMouse 0 0, None) ].

(** Host functions that answer with a constant. *)
Definition hostZero (x : Number) : Number := 0.
Definition hostIdentity (x : Number) : Number := x.
Definition hostWhite (hex : string) : Number * Number * Number := (1, 1, 1).
Definition hostPrint (x : Number) : string := "0"%string.

(** Random sources that return the same number at every call. *)
Definition alwaysHalf (n : nat) : Number := 0.5.
Definition alwaysZero (n : nat) : Number := 0.

(** Palettes of one white: spelled #FFFFFF, and spelled #fff. *)
Definition longWhite : list string := ["#FFFFFF"%string].
Definition shortWhite : list string := ["#fff"%string].


Definition shiftedHand64 : list HandTracker64.Landmark :=
  HandTracker64.mkLandmark (Double.literal 2 10) (Double.toNumber 0)
  :: repeat (HandTracker64.mkLandmark (Double.literal 35 100) (Double.toNumber 0)) 20.

Definition edgeHand64 : list HandTracker64.Landmark :=
  HandTracker64.mkLandmark (Double.toNumber 0) (Double.toNumber 0)
  :: repeat (HandTracker64.mkLandmark (Double.literal 15 100) (Double.toNumber 0)) 20.


(** [Math.pow(x, 2)] computed as the rounded product. *)
Definition hostSquare (x y : Double.double) : Double.double := Double.mul x x.

(** A theme service that is down, and a parser that accepts nothing. *)
Definition serviceDown (contents : string)
    : ThemeService.Settled ThemeService.GenerateContentResponse :=
  ThemeService.Rejected.
Definition parseNothing (text : string) : option ThemeService.JSON := None.

(** A theme service that answers with the text [null], and a parser that
    accepts that text only. *)
Definition serviceNull (contents : string)
    : ThemeService.Settled ThemeService.GenerateContentResponse :=
  ThemeService.Resolved {| ThemeService.text := Some "null"%string |}.
Definition parseNull (text : string) : option ThemeService.JSON :=
  if String.eqb text "null" then Some ThemeService.JNull else None.

(** Texts with white space beyond ASCII: a no-break space (U+00A0) before
    the digits FF; the JSON text of an empty object between a no-break space
    and a line separator (U+2028) followed by a byte order mark (U+FEFF). *)
Definition noBreakSpace : string :=
  String (ascii_of_nat 194) (String (ascii_of_nat 160) EmptyString).
Definition lineSeparator : string :=
  String (ascii_of_nat 226) (String (ascii_of_nat 128)
    (String (ascii_of_nat 168) EmptyString)).
Definition byteOrderMark : string :=
  String (ascii_of_nat 239) (String (ascii_of_nat 187)
    (String (ascii_of_nat 191) EmptyString)).
Definition spacedDigits : string := (noBreakSpace ++ "FF")%string.
Definition spacedObject : string :=
  (noBreakSpace ++ "{}" ++ lineSeparator ++ byteOrderMark)%string.

End Examples.

(** * App.tsx: the ambience button

    [startAudio], [stopAudio], [updateAudioDrone] and [toggleAmbiance] work
    on three refs and on the [isPlayingMusic] flag of the state.  Of the
    audio objects the code tests only whether a ref is [null], so a ref is
    modelled by whether it holds an object, and [oscillatorsRef.current] by the
    frequencies given to the oscillators it holds.  [setTimeout] is modelled by
    the number of callbacks scheduled and not yet run (they are all the same
    callback).  Each handler runs on the state of the latest render. *)

Module Audio.

Import ListNotations.
Open Scope list_scope.

Record State := mkState {
  audioCtx : bool;                       (* audioCtxRef.current !== null *)
  gain : bool;                           (* gainRef.current !== null *)
  oscillators : list Double.double;      (* oscillatorsRef.current *)
  timers : nat;                          (* scheduled timeouts *)
  app : AppState
}.

(** [setState(prev => ({ ...prev, isPlayingMusic: b }))] *)
Definition setPlaying (b : bool) (prev : AppState) : AppState :=
  {| colors := colors prev;
     greeting := greeting prev;
     loading := loading prev;
     themeName := themeName prev;
     musicMood := musicMood prev;
     isPlayingMusic := b;
     phase := phase prev |}.

(** [updateAudioDrone]: without a context or a gain node it returns;
    otherwise the old oscillators are told to stop, the list is emptied and
    one oscillator is pushed for each of the first three colours. *)
Definition updateAudioDrone (st : State) : State :=
  if negb (audioCtx st) || negb (gain st) then st
  else {| audioCtx := audioCtx st;
          gain := gain st;
          oscillators := Coverage.droneFrequencies (colors (app st));
          timers := timers st;
          app := app st |}.

(** [startAudio]: returns at once when there is a context. *)
Definition startAudio (st : State) : State :=
  if audioCtx st then st
  else
    let st1 := {| audioCtx := true; gain := true; oscillators := oscillators st;
                  timers := timers st; app := app st |} in
    let st2 := updateAudioDrone st1 in
    {| audioCtx := audioCtx st2; gain := gain st2; oscillators := oscillators st2;
       timers := timers st2; app := setPlaying true (app st2) |}.

(** [stopAudio]: with a gain node and a context it schedules the callback
    that closes the context one second later; the flag is cleared at once. *)
Definition stopAudio (st : State) : State :=
  {| audioCtx := audioCtx st;
     gain := gain st;
     oscillators := oscillators st;
     timers := if gain st && audioCtx st then S (timers st) else timers st;
     app := setPlaying false (app st) |}.

(** The callback given to [setTimeout]. *)
Definition onTimeout (st : State) : State :=
  {| audioCtx := false;
     gain := false;
     oscillators := [];
     timers := pred (timers st);
     app := app st |}.

Definition toggleAmbiance (st : State) : State :=
  if isPlayingMusic (app st) then stopAudio st else startAudio st.

(** What can happen between two renders: a click on the button, a scheduled
    callback that runs (only if one is scheduled), a [setPhase] from the frame
    loop. *)
Inductive Event :=
| Click
| Timeout
| Phase (p : AppPhase).

Definition step (e : Event) (st : State) : option State :=
  match e with
  | Click => Some (toggleAmbiance st)
  | Timeout => match timers st with O => None | S _ => Some (onTimeout st) end
  | Phase p =>
      Some {| audioCtx := audioCtx st; gain := gain st; oscillators := oscillators st;
              timers := timers st; app := App.setPhase p (app st) |}
  end.

Fixpoint run (events : list Event) (st : State) : option State :=
  match events with
  | [] => Some st
  | e :: rest =>
      match step e st with
      | Some st' => run rest st'
      | None => None
      end
  end.

(** The component as it is mounted: null refs, no oscillator, no timeout. *)
Definition mounted (a : AppState) : State :=
  {| audioCtx := false; gain := false; oscillators := []; timers := 0; app := a |}.

(** The three conditions the audio can be in. *)
Definition silent (st : State) : Prop :=
  audioCtx st = false /\ gain st = false /\ oscillators st = [] /\
  timers st = 0%nat /\ isPlayingMusic (app st) = false.

Definition playing (st : State) : Prop :=
  audioCtx st = true /\ gain st = true /\
  oscillators st = Coverage.droneFrequencies (colors (app st)) /\
  timers st = 0%nat /\ isPlayingMusic (app st) = true.

Definition fading (st : State) : Prop :=
  audioCtx st = true /\ gain st = true /\
  oscillators st = Coverage.droneFrequencies (colors (app st)) /\
  timers st = 1%nat /\ isPlayingMusic (app st) = false.

End Audio.

(** * Inputs for the further instances *)

Module CoverageExamples.

Import ListNotations.
Open Scope string_scope.
Open Scope list_scope.

(** A hand with one landmark missing. *)
Definition shortHand : list HandTracker.Landmark :=
  repeat (HandTracker.mkLandmark 0.5 0.5) 20.

(** The centred hand with its thumb tip (landmark 4) moved away. *)
Definition thumbMoved : list HandTracker.Landmark :=
  repeat (HandTracker.mkLandmark 0.5 0.5) 4 ++
  [HandTracker.mkLandmark 0.9 0.1] ++
  repeat (HandTracker.mkLandmark 0.5 0.5) 16.

(** What the tracker writes for the centred hand. *)
Definition trackedHand : HandData :=
  {| rawX := 1 - 0.5; rawY := 0.5; gesture := FIST; isTracking := true |}.

Definition newline : string := String (ascii_of_nat 10) EmptyString.

(** A service that answers with an empty object in a markdown fence, and
    one that ends its answer with a line break. *)
Definition serviceFenced (contents : string)
    : ThemeService.Settled ThemeService.GenerateContentResponse :=
  ThemeService.Resolved
    {| ThemeService.text := Some (ThemeCoverage.fenced newline "{}" newline "") |}.

Definition serviceFencedNewline (contents : string)
    : ThemeService.Settled ThemeService.GenerateContentResponse :=
  ThemeService.Resolved
    {| ThemeService.text := Some (ThemeCoverage.fenced newline "{}" newline newline) |}.

(** A parser that accepts the empty object only. *)
Definition parseBraces (text : string) : option ThemeService.JSON :=
  if String.eqb text "{}" then Some (ThemeService.JObject []) else None.

(** Two frames of the ambient field: without a hand, and with the resting
    hand. *)
Definition ambientTicks : list Emanating.Tick :=
  [ (None, 0.016); (Some Examples.restingHand, 0.016) ].

(** A particle just below the ceiling. *)
Definition risingParticle : Emanating.Particle :=
  {| Emanating.velocity := 0.04; Emanating.angle := 0;
     Emanating.radius := 3; Emanating.y := 7.99 |}.

(** Frames of the tree group: two while it is hidden; one visible and one
    hidden. *)
Definition hiddenTicks : list TreeGroup.Tick :=
  [ (false, None, 0.016); (false, Some Examples.restingHand, 0.016) ].

Definition mixedTicks : list TreeGroup.Tick :=
  [ (true, Some Examples.restingHand, 0.016); (false, None, 0.016) ].

Definition grownGroup : TreeGroup.State :=
  {| TreeGroup.scale := 1; TreeGroup.rotationY := 0.3; TreeGroup.revealTime := 0.5 |}.

(** Two flakes, their targets, and two frames of the TREE phase. *)
Definition twoFlakes : Snowflakes.State :=
  {| Snowflakes.positions := [(0, 5, 0); (1, -9.995, 0)];
     Snowflakes.colors := [(1, 1, 1); (1, 1, 1)];
     Snowflakes.rotationZ := 0;
     Snowflakes.drawn := 12 |}.

Definition twoTargets : list Snowflakes.Vec3 := [(1, 1, 0); (2, 2, 0)].


(** The button pressed, a phase change, the button pressed again; and the
    state these leave. *)
Definition buttonEvents : list Audio.Event :=
  [ Audio.Click; Audio.Phase GATHER; Audio.Click ].

Definition fadingState : Audio.State :=
  {| Audio.audioCtx := true;
     Audio.gain := true;
     Audio.oscillators := Coverage.droneFrequencies (colors App.initialState);
     Audio.timers := 1;
     Audio.app := App.setPhase GATHER App.initialState |}.

End CoverageExamples.

(** * Properties *)

(** ** Comparisons *)

Lemma Qltb_lt (a b : Q) : Qltb a b = true <-> a < b.
Proof.
  unfold Qltb. rewrite negb_true_iff, <- not_true_iff_false, Qle_bool_iff.
  split; intro H; [apply Qnot_le_lt | apply Qlt_not_le]; exact H.
Qed.

Lemma Qltb_ge (a b : Q) : Qltb a b = false <-> b <= a.
Proof.
  unfold Qltb. rewrite negb_false_iff. apply Qle_bool_iff.
Qed.

Lemma Qgtb_gt (a b : Q) : Qgtb a b = true <-> b < a.
Proof. apply Qltb_lt. Qed.

Lemma Qgtb_le (a b : Q) : Qgtb a b = false <-> a <= b.
Proof. apply Qltb_ge. Qed.

(** ** Doubles *)

Section DoubleFacts.

Import Double.
Open Scope Z_scope.

Lemma digits2_pos_spec (m : positive) :
  2 ^ (Zpos (digits2_pos m) - 1) <= Zpos m < 2 ^ Zpos (digits2_pos m).
Proof.
  induction m as [m IH|m IH|]; cbn [digits2_pos].
  - rewrite Pos2Z.inj_succ.
    replace (Z.succ (Zpos (digits2_pos m)) - 1) with (Zpos (digits2_pos m) - 1 + 1) by lia.
    rewrite Z.pow_add_r, Z.pow_succ_r by lia. lia.
  - rewrite Pos2Z.inj_succ.
    replace (Z.succ (Zpos (digits2_pos m)) - 1) with (Zpos (digits2_pos m) - 1 + 1) by lia.
    rewrite Z.pow_add_r, Z.pow_succ_r by lia. lia.
  - cbn. lia.
Qed.

Lemma digits2_pos_unique (m : positive) (d : Z) :
  2 ^ (d - 1) <= Zpos m < 2 ^ d -> Zpos (digits2_pos m) = d.
Proof.
  intros [L U]. pose proof (digits2_pos_spec m) as [L' U'].
  assert (0 < d).
  { destruct (Z.ltb_spec 0 d); [assumption|].
    exfalso. assert (2 ^ d <= 2 ^ 0) by (apply Z.pow_le_mono_r; lia). cbn in *. lia. }
  destruct (Z.lt_trichotomy (Zpos (digits2_pos m)) d) as [F | [E | F]]; [|exact E|]; exfalso.
  - assert (2 ^ Zpos (digits2_pos m) <= 2 ^ (d - 1)) by (apply Z.pow_le_mono_r; lia). lia.
  - assert (2 ^ d <= 2 ^ (Zpos (digits2_pos m) - 1)) by (apply Z.pow_le_mono_r; lia). lia.
Qed.

Lemma iter_xO (m k : positive) : Zpos (Pos.iter xO m k) = Zpos m * 2 ^ Zpos k.
Proof.
  induction k as [|k IH] using Pos.peano_ind.
  - cbn [Pos.iter]. rewrite Pos2Z.inj_xO. change (2 ^ 1) with 2. lia.
  - rewrite Pos.iter_succ, Pos2Z.inj_xO, IH, Pos2Z.inj_succ, Z.pow_succ_r by lia. lia.
Qed.

Lemma round_aux_exact (s : bool) (m : positive) (e : Z) :
  Zpos (digits2_pos m) = 53 -> -1074 <= e -> e <= 971 ->
  binary_round_aux prec emax s (Zpos m) e loc_Exact = S754_finite s m e.
Proof.
  intros Hd L U.
  assert (F : fexp prec emax (Zdigits2 (Zpos m) + e) - e = 0).
  { unfold fexp, emin, prec, emax, Zdigits2. rewrite Hd. lia. }
  unfold binary_round_aux, shr_fexp. cbn [shr_record_of_loc].
  rewrite F. cbn [shr shr_m loc_of_shr_record round_nearest_even].
  rewrite F. cbn [shr shr_m].
  unfold prec, emax. destruct (Z.leb_spec e (1024 - 53)); [reflexivity | lia].
Qed.

(** Rounding [m * 2^e] changes nothing when [m] has at most 53 digits and the
    exponent is in range: the mantissa is only shifted to 53 digits. *)
Lemma binary_round_exact (s : bool) (m : positive) (e : Z) :
  let d := Zpos (digits2_pos m) in
  d <= 53 -> -1074 <= e + d - 53 -> e + d - 53 <= 971 ->
  binary_round prec emax s m e =
  S754_finite s (Z.to_pos (Zpos m * 2 ^ (53 - d))) (e + d - 53).
Proof.
  intros d Hd L U. unfold binary_round, shl_align.
  assert (F : fexp prec emax (Zpos (digits2_pos m) + e) = e + d - 53).
  { unfold fexp, emin, prec, emax. fold d. lia. }
  rewrite F.
  destruct (e + d - 53 - e) as [|p|p] eqn:E; try lia.
  - assert (d = 53) by lia.
    replace (53 - d) with 0 by lia. rewrite Z.mul_1_r. cbn [Z.to_pos].
    replace (e + d - 53) with e by lia.
    apply round_aux_exact; [fold d; lia | lia | lia].
  - assert (Hp : Zpos p = 53 - d) by lia.
    rewrite <- Hp, <- iter_xO. rewrite Pos2Z.id.
    apply round_aux_exact; [|lia|lia].
    apply digits2_pos_unique. rewrite iter_xO.
    pose proof (digits2_pos_spec m) as [A B]. fold d in A, B.
    assert (P : 0 < 2 ^ Zpos p) by (apply Z.pow_pos_nonneg; lia).
    assert (G : 2 ^ (d - 1) * 2 ^ Zpos p <= Zpos m * 2 ^ Zpos p < 2 ^ d * 2 ^ Zpos p)
      by (split; [apply Z.mul_le_mono_nonneg_r | apply Z.mul_lt_mono_pos_r]; lia).
    rewrite <- !Z.pow_add_r in G by lia.
    replace (d - 1 + Zpos p) with (53 - 1) in G by lia.
    replace (d + Zpos p) with 53 in G by lia. exact G.
Qed.

(** A mantissa [r * 2^j] at exponent [-j] is the integer [r]. *)
Lemma normalize_scaled (r j : Z) :
  0 <= r < 2 ^ 53 -> 0 <= j -> r * 2 ^ j < 2 ^ 53 ->
  binary_normalize prec emax (r * 2 ^ j) (- j) false = toNumber r.
Proof.
  intros [R0 R1] J B. unfold toNumber.
  destruct r as [|r|r]; [reflexivity| |lia].
  assert (P : 0 < 2 ^ j) by (apply Z.pow_pos_nonneg; lia).
  destruct (Zpos r * 2 ^ j) as [|q|q] eqn:Q; try lia.
  cbn [binary_normalize].
  pose proof (digits2_pos_spec r) as [A1 A2].
  set (d := Zpos (digits2_pos r)) in *.
  assert (Hd : 1 <= d <= 53).
  { split; [unfold d; lia|].
    destruct (Z.leb_spec d 53); [assumption|]. exfalso.
    assert (2 ^ 53 <= 2 ^ (d - 1)) by (apply Z.pow_le_mono_r; lia). lia. }
  assert (Dq : Zpos (digits2_pos q) = d + j).
  { apply digits2_pos_unique. rewrite <- Q.
    replace (d + j - 1) with ((d - 1) + j) by lia.
    rewrite !Z.pow_add_r by lia. nia. }
  assert (Hj : d + j <= 53).
  { destruct (Z.leb_spec (d + j) 53); [assumption|]. exfalso.
    assert (2 ^ 53 <= 2 ^ (d + j - 1)) by (apply Z.pow_le_mono_r; lia).
    replace (d + j - 1) with ((d - 1) + j) in * by lia.
    rewrite Z.pow_add_r in * by lia. nia. }
  rewrite (binary_round_exact false q (- j)) by (rewrite Dq; lia).
  rewrite (binary_round_exact false r 0) by (fold d; lia).
  rewrite Dq. fold d. f_equal; [|lia].
  f_equal. rewrite <- Q.
  replace (53 - d) with (j + (53 - (d + j))) by lia.
  rewrite Z.pow_add_r by lia. ring.
Qed.

Lemma toNumber_finite (n : Z) :
  0 < n < 2 ^ 53 ->
  exists m, toNumber n = S754_finite false m (Z.log2 n - 52) /\
            Zpos m = n * 2 ^ (52 - Z.log2 n).
Proof.
  intros [N0 N1]. destruct n as [|n|n]; try lia.
  unfold toNumber. cbn [binary_normalize].
  pose proof (digits2_pos_spec n) as [A1 A2].
  set (d := Zpos (digits2_pos n)) in *.
  assert (Hd : 1 <= d <= 53).
  { split; [unfold d; lia|].
    destruct (Z.leb_spec d 53); [assumption|]. exfalso.
    assert (2 ^ 53 <= 2 ^ (d - 1)) by (apply Z.pow_le_mono_r; lia). lia. }
  assert (Hl : Z.log2 (Zpos n) = d - 1).
  { apply Z.log2_unique; [lia|]. replace (Z.succ (d - 1)) with d by lia. lia. }
  rewrite (binary_round_exact false n 0) by (fold d; lia). fold d.
  eexists. split; [f_equal; lia|].
  rewrite Hl. replace (52 - (d - 1)) with (53 - d) by lia.
  apply Z2Pos.id. assert (0 < 2 ^ (53 - d)) by (apply Z.pow_pos_nonneg; lia). nia.
Qed.

(** The remainder of an integer below 2^53 by 300 is the integer remainder. *)
Lemma rem_300 (n : Z) :
  0 <= n < 2 ^ 53 -> rem (toNumber n) (toNumber 300) = toNumber (n mod 300).
Proof.
  intros [N0 N1].
  destruct (Z.eq_dec n 0) as [->|Hn]; [reflexivity|].
  destruct (toNumber_finite n ltac:(lia)) as [m [Em Hm]].
  rewrite Em.
  change (toNumber 300) with (S754_finite false 5277655813324800 (-44)).
  cbn [rem].
  set (l := Z.log2 n) in *.
  assert (Hl : 0 <= l <= 52).
  { split; [apply Z.log2_nonneg|]. unfold l.
    assert (Z.log2 n < 53); [|lia]. apply Z.log2_lt_pow2; lia. }
  assert (Hr : 0 <= n mod 300 < 300) by (apply Z.mod_pos_bound; lia).
  destruct (Z.leb_spec (l - 52) (-44)) as [C | C].
  - (* n below 2^9 *)
    rewrite Z.min_l by lia.
    replace (l - 52 - (l - 52)) with 0 by lia. rewrite Z.pow_0_r, Z.mul_1_r.
    replace (-44 - (l - 52)) with (8 - l) by lia.
    rewrite Hm.
    change 5277655813324800 with (300 * 2 ^ 44).
    replace (300 * 2 ^ 44 * 2 ^ (8 - l)) with (300 * 2 ^ (52 - l)).
    2:{ replace (52 - l) with (44 + (8 - l)) by lia. rewrite Z.pow_add_r by lia. ring. }
    rewrite Z.mul_mod_distr_r by (try lia; apply Z.pow_nonzero; lia).
    replace (l - 52) with (- (52 - l)) by lia.
    apply normalize_scaled; [lia | lia |].
    assert (n < 2 ^ (l + 1)).
    { unfold l. replace (Z.log2 n + 1) with (Z.succ (Z.log2 n)) by lia.
      apply Z.log2_spec. lia. }
    assert (n mod 300 <= n) by (apply Z.mod_le; lia).
    replace 53 with ((l + 1) + (52 - l)) by lia.
    rewrite Z.pow_add_r by lia.
    assert (0 < 2 ^ (52 - l)) by (apply Z.pow_pos_nonneg; lia). nia.
  - rewrite Z.min_r by lia.
    replace (-44 - -44) with 0 by lia. rewrite Z.pow_0_r, Z.mul_1_r.
    rewrite Hm.
    replace (n * 2 ^ (52 - l) * 2 ^ (l - 52 - -44)) with (n * 2 ^ 44).
    2:{ rewrite <- Z.mul_assoc, <- Z.pow_add_r by lia. f_equal. f_equal. lia. }
    change 5277655813324800 with (300 * 2 ^ 44).
    rewrite Z.mul_mod_distr_r by lia.
    change (-44) with (- 44).
    apply normalize_scaled; [lia | lia |].
    change (2 ^ 53) with (512 * 2 ^ 44). change (2 ^ 44) with 17592186044416. lia.
Qed.

Lemma same_eq (a b : double) : same a b = true -> a = b.
Proof.
  destruct a as [s|s| |s m e], b as [t|t| |t n f]; cbn [same]; intro H;
    try discriminate H; try reflexivity.
  - apply Bool.eqb_prop in H. congruence.
  - apply Bool.eqb_prop in H. congruence.
  - apply andb_true_iff in H. destruct H as [H He].
    apply andb_true_iff in H. destruct H as [Hs Hm].
    apply Bool.eqb_prop in Hs. apply Pos.eqb_eq in Hm. apply Z.eqb_eq in He.
    congruence.
Qed.


End DoubleFacts.

(** ** The phase machine *)

Section PhaseFacts.

Import SceneContainer.

Lemma setPhase_phase (p : AppPhase) (st : AppState) : phase (App.setPhase p st) = p.
Proof. reflexivity. Qed.

Lemma mouseFallback_gesture (mouse : Mouse) (hd : HandData) :
  gesture (mouseFallback mouse hd) = gesture hd.
Proof. unfold mouseFallback. destruct (isTracking hd); reflexivity. Qed.

(** A frame moves the phase by [phaseStep] on the gesture found in the ref,
    and not at all when the ref is [null]. *)
Lemma frame_phase (mouse : Mouse) (current : Ref HandData) (st : AppState) :
  phase (snd (frame mouse current st)) =
  match current with
  | Some hd => phaseStep (phase st) (gesture hd)
  | None => phase st
  end.
Proof.
  unfold frame, useFrame, phaseStep. destruct current as [hd|]; simpl.
  - rewrite mouseFallback_gesture.
    destruct (phaseLogic (phase st) (gesture hd)); reflexivity.
  - reflexivity.
Qed.

Lemma phaseStep_TREE (g : GestureType) : phaseStep TREE g = TREE.
Proof. reflexivity. Qed.

Lemma frame_keeps_TREE (mouse : Mouse) (current : Ref HandData) (st : AppState) :
  phase st = TREE -> phase (snd (frame mouse current st)) = TREE.
Proof.
  intro H. rewrite frame_phase, H. destruct current; reflexivity.
Qed.

(** C1.  Whatever the frames find in the hand ref (any gesture samples, any
    pointer, a [null] ref), a run that starts in phase TREE visits only TREE
    and ends in TREE: no frame leaves the TREE phase for SNOW or GATHER. *)
Theorem tree_phase_is_terminal (inputs : list FrameInput) (st : AppState) :
  phase st = TREE ->
  phase (runFrames inputs st) = TREE /\
  Forall (fun p => p = TREE) (phaseTrace inputs st).
Proof.
  revert st. induction inputs as [|[mouse current] rest IH]; intros st H; simpl.
  - split; [exact H | constructor].
  - pose proof (frame_keeps_TREE mouse current st H) as H'.
    destruct (IH _ H') as [Hend Htrace].
    split; [exact Hend | constructor; assumption].
Qed.

(** C2.  The phase after one frame is a function of the current phase and
    the gesture in the ref alone: SNOW with OPEN gives GATHER, GATHER with FIST
    gives TREE, GATHER with NONE gives SNOW at once, and every other pair
    leaves the phase as it is. *)
Theorem phase_step_table :
  (forall mouse hd st,
     phase (snd (frame mouse (Some hd) st)) = phaseStep (phase st) (gesture hd)) /\
  phaseStep SNOW OPEN = GATHER /\
  phaseStep GATHER FIST = TREE /\
  phaseStep GATHER NONE = SNOW /\
  (forall p g,
     (p, g) <> (SNOW, OPEN) -> (p, g) <> (GATHER, FIST) -> (p, g) <> (GATHER, NONE) ->
     phaseStep p g = p).
Proof.
  split; [intros; apply frame_phase|].
  repeat split.
  intros p g H1 H2 H3. destruct p, g; try reflexivity; congruence.
Qed.

End PhaseFacts.

(** ** The gesture classifier *)

Section ClassifierFacts.

Import HandTracker.

Variable Math_sqrt : Number -> Number.

Lemma nth_error_nth_default {A} (l : list A) (i : nat) (d : A) :
  (i < List.length l)%nat -> nth_error l i = Some (nth i l d).
Proof.
  intro H. apply nth_error_nth'. exact H.
Qed.

Lemma addTipDistance_some (landmarks : list Landmark) (wrist : Landmark)
    (total : Number) (idx : nat) (d : Landmark) :
  (idx < List.length landmarks)%nat ->
  addTipDistance Math_sqrt landmarks wrist (Some total) idx =
  Some (total + euclid Math_sqrt (nth idx landmarks d) wrist).
Proof.
  intro H. unfold addTipDistance.
  rewrite (nth_error_nth_default landmarks idx d H). reflexivity.
Qed.

(** C10.  On a detection result with no hand the callback writes
    [isTracking = false] and [gesture = NONE] into the shared hand record and
    leaves [rawX] and [rawY] as they were. *)
Theorem no_hand_keeps_position (results : Results) (hd : HandData) :
  noHand results ->
  exists hd',
    onResults Math_sqrt results (Some hd) = Some (Some hd') /\
    isTracking hd' = false /\ gesture hd' = NONE /\
    rawX hd' = rawX hd /\ rawY hd' = rawY hd.
Proof.
  unfold noHand, onResults. intro H.
  destruct (multiHandLandmarks results) as [[|landmarks rest]|];
    try contradiction; eexists; (split; [reflexivity|]); simpl; auto.
Qed.

End ClassifierFacts.

(** ** The gesture thresholds, on doubles *)

Section ThresholdFacts.

Import Double HandTracker64.

Variable Math_sqrt : double -> double.
Variable Math_pow : double -> double -> double.

Local Abbreviation origin := (mkLandmark (toNumber 0) (toNumber 0)).







End ThresholdFacts.

(** ** White space *)

Section WhiteSpaceFacts.

Import Tone.
Open Scope string_scope.

(** A byte that continues a character of several bytes. *)
Local Abbreviation continuation c :=
  ((128 <=? nat_of_ascii c) && (nat_of_ascii c <=? 191))%nat.

(** The text starts with a continuation byte. *)
Local Abbreviation continues t :=
  (match t with String c _ => continuation c | EmptyString => false end).

Lemma isWhiteSpace_byte (a : ascii) :
  isWhiteSpace a = true ->
  (nat_of_ascii a <= 32)%nat /\ a <> "`"%char.
Proof.
  unfold isWhiteSpace. intro H. split.
  - apply orb_true_iff in H. destruct H as [H | H].
    + apply andb_true_iff in H. destruct H as [_ H]. apply Nat.leb_le in H. lia.
    + apply Nat.eqb_eq in H. lia.
  - intros ->. discriminate H.
Qed.

Lemma isWhiteSpace2_bytes (a b : ascii) :
  isWhiteSpace2 a b = true ->
  nat_of_ascii a = 194%nat /\ nat_of_ascii b = 160%nat.
Proof.
  unfold isWhiteSpace2. intro H. apply andb_true_iff in H. destruct H as [Ha Hb].
  apply Nat.eqb_eq in Ha. apply Nat.eqb_eq in Hb. split; assumption.
Qed.

Lemma isWhiteSpace3_bytes (a b c : ascii) :
  isWhiteSpace3 a b c = true ->
  (225 <= nat_of_ascii a <= 239)%nat /\
  (128 <= nat_of_ascii b <= 191)%nat /\
  (128 <= nat_of_ascii c <= 191)%nat.
Proof.
  unfold isWhiteSpace3. intro H.
  repeat (apply orb_true_iff in H; destruct H as [H | H]);
    repeat (apply andb_true_iff in H; destruct H as [H ?]);
    repeat match goal with
           | K : (_ =? _)%nat = true |- _ => apply Nat.eqb_eq in K
           | K : (_ <=? _)%nat = true |- _ => apply Nat.leb_le in K
           | K : (_ || _) = true |- _ => apply orb_true_iff in K; destruct K as [K | K]
           | K : (_ && _) = true |- _ => apply andb_true_iff in K; destruct K as [K ?]
           end; lia.
Qed.

Lemma backtick_byte (a : ascii) : nat_of_ascii a <> 96%nat -> a <> "`"%char.
Proof. intros H ->. apply H. reflexivity. Qed.

(** How a text starts when it starts with white space. *)
Lemma whiteSpaceRest_Some (s r : string) :
  whiteSpaceRest s = Some r ->
  (exists a, s = String a r /\ isWhiteSpace a = true) \/
  (exists a b, s = String a (String b r) /\ isWhiteSpace2 a b = true) \/
  (exists a b c, s = String a (String b (String c r)) /\ isWhiteSpace3 a b c = true).
Proof.
  destruct s as [|a [|b [|c r3]]]; cbn [whiteSpaceRest]; try discriminate.
  - destruct (isWhiteSpace a) eqn:E1; [|discriminate].
    intro H. inversion H; subst. left. exists a. split; reflexivity || assumption.
  - destruct (isWhiteSpace a) eqn:E1.
    + intro H. inversion H; subst. left. exists a. split; reflexivity || assumption.
    + destruct (isWhiteSpace2 a b) eqn:E2; [|discriminate].
      intro H. inversion H; subst. right. left. exists a, b.
      split; reflexivity || assumption.
  - destruct (isWhiteSpace a) eqn:E1.
    + intro H. inversion H; subst. left. exists a. split; reflexivity || assumption.
    + destruct (isWhiteSpace2 a b) eqn:E2.
      * intro H. inversion H; subst. right. left. exists a, b.
        split; reflexivity || assumption.
      * destruct (isWhiteSpace3 a b c) eqn:E3; [|discriminate].
        intro H. inversion H; subst. right. right. exists a, b, c.
        split; reflexivity || assumption.
Qed.

Lemma trimStart_eq (s : string) :
  trimStart s = match whiteSpaceRest s with Some r => trimStart r | None => s end.
Proof.
  destruct s as [|a [|b [|c r]]]; cbn [trimStart whiteSpaceRest]; try reflexivity.
  - destruct (isWhiteSpace a); reflexivity.
  - destruct (isWhiteSpace a); [reflexivity|]. destruct (isWhiteSpace2 a b); reflexivity.
  - destruct (isWhiteSpace a); [reflexivity|].
    destruct (isWhiteSpace2 a b); [reflexivity|].
    destruct (isWhiteSpace3 a b c); reflexivity.
Qed.

Lemma whiteSpaceRest_shorter (s r : string) :
  whiteSpaceRest s = Some r -> (String.length r < String.length s)%nat.
Proof.
  intro H.
  destruct (whiteSpaceRest_Some s r H)
    as [(a & -> & _) | [(a & b & -> & _) | (a & b & c & -> & _)]];
    cbn [String.length]; lia.
Qed.

Lemma string_length_ind (P : string -> Prop) :
  (forall s, (forall t, (String.length t < String.length s)%nat -> P t) -> P s) ->
  forall s, P s.
Proof.
  intros H s.
  assert (G : forall n t, (String.length t < n)%nat -> P t).
  { induction n as [|n IH]; intros t Ht; [lia|].
    apply H. intros u Hu. apply IH. lia. }
  apply (G (S (String.length s))). lia.
Qed.

(** White space at the start is seen whatever follows it. *)
Lemma whiteSpaceRest_append (s r t : string) :
  whiteSpaceRest s = Some r -> whiteSpaceRest (s ++ t) = Some (r ++ t).
Proof.
  intro H.
  destruct (whiteSpaceRest_Some s r H)
    as [(a & -> & E1) | [(a & b & -> & E2) | (a & b & c & -> & E3)]];
    cbn [append whiteSpaceRest] in H |- *.
  - rewrite E1. reflexivity.
  - destruct (isWhiteSpace a).
    + exfalso. injection H as H. apply (f_equal String.length) in H.
      cbn [String.length] in H. lia.
    + rewrite E2. reflexivity.
  - destruct (isWhiteSpace a).
    + exfalso. injection H as H. apply (f_equal String.length) in H.
      cbn [String.length] in H. lia.
    + destruct (isWhiteSpace2 a b).
      * exfalso. injection H as H. apply (f_equal String.length) in H.
        cbn [String.length] in H. lia.
      * rewrite E3. reflexivity.
Qed.

(** A text that does not start with white space does not do so either when
    something is appended that starts a character of its own. *)
Lemma whiteSpaceRest_None_append (s t : string) :
  s <> "" -> whiteSpaceRest s = None -> continues t = false ->
  whiteSpaceRest (s ++ t) = None.
Proof.
  intros Hne H Ht.
  destruct s as [|a [|b [|c r]]]; [congruence| | |]; cbn [append whiteSpaceRest] in H |- *.
  - destruct (isWhiteSpace a); [discriminate H|].
    destruct t as [|x [|y t]]; try reflexivity.
    + destruct (isWhiteSpace2 a x) eqn:E2; [|reflexivity].
      apply isWhiteSpace2_bytes in E2. destruct E2 as [_ E2]. exfalso.
      rewrite E2 in Ht. discriminate Ht.
    + destruct (isWhiteSpace2 a x) eqn:E2.
      * apply isWhiteSpace2_bytes in E2. destruct E2 as [_ E2]. exfalso.
        rewrite E2 in Ht. discriminate Ht.
      * destruct (isWhiteSpace3 a x y) eqn:E3; [|reflexivity].
        apply isWhiteSpace3_bytes in E3. destruct E3 as (_ & [E3 E3'] & _). exfalso.
        apply Nat.leb_le in E3. apply Nat.leb_le in E3'. rewrite E3, E3' in Ht.
        discriminate Ht.
  - destruct (isWhiteSpace a); [discriminate H|].
    destruct (isWhiteSpace2 a b); [discriminate H|].
    destruct t as [|x t]; [reflexivity|].
    destruct (isWhiteSpace3 a b x) eqn:E3; [|reflexivity].
    apply isWhiteSpace3_bytes in E3. destruct E3 as (_ & _ & [E3 E3']). exfalso.
    apply Nat.leb_le in E3. apply Nat.leb_le in E3'. rewrite E3, E3' in Ht.
    discriminate Ht.
  - destruct (isWhiteSpace a); [discriminate H|].
    destruct (isWhiteSpace2 a b); [discriminate H|].
    destruct (isWhiteSpace3 a b c); [discriminate H | reflexivity].
Qed.

Lemma isBlank_empty (s : string) :
  isBlank s = true -> whiteSpaceRest s = None -> s = "".
Proof.
  unfold isBlank. rewrite trimStart_eq. intros H E. rewrite E in H.
  apply String.eqb_eq in H. exact H.
Qed.

Lemma isBlank_rest (s r : string) : whiteSpaceRest s = Some r -> isBlank s = isBlank r.
Proof. unfold isBlank. rewrite (trimStart_eq s). intros ->. reflexivity. Qed.

(** White space does not start with a continuation byte. *)
Lemma isBlank_continues (ws t : string) :
  isBlank ws = true -> continues t = false -> continues (ws ++ t) = false.
Proof.
  intros H Ht. destruct (whiteSpaceRest ws) as [r|] eqn:E.
  - destruct (whiteSpaceRest_Some ws r E)
      as [(a & -> & E1) | [(a & b & -> & E2) | (a & b & c & -> & E3)]];
      cbn [append].
    + apply isWhiteSpace_byte in E1. destruct E1 as [E1 _].
      destruct (Nat.leb_spec 128 (nat_of_ascii a)); [lia | reflexivity].
    + apply isWhiteSpace2_bytes in E2. destruct E2 as [E2 _]. rewrite E2. reflexivity.
    + apply isWhiteSpace3_bytes in E3. destruct E3 as ([E3 E3'] & _).
      destruct (Nat.leb_spec (nat_of_ascii a) 191); [lia|]. apply andb_false_r.
  - rewrite (isBlank_empty ws H E). exact Ht.
Qed.

Lemma trimStart_length (s : string) :
  (String.length (trimStart s) <= String.length s)%nat.
Proof.
  induction s as [s IH] using string_length_ind.
  rewrite trimStart_eq. destruct (whiteSpaceRest s) as [r|] eqn:E; [|lia].
  pose proof (whiteSpaceRest_shorter s r E). pose proof (IH r H). lia.
Qed.

Lemma trimStart_fixed (s : string) :
  s <> "" -> trimStart s = s -> whiteSpaceRest s = None.
Proof.
  intros Hne H. destruct (whiteSpaceRest s) as [r|] eqn:E; [|reflexivity].
  exfalso. rewrite trimStart_eq, E in H.
  pose proof (trimStart_length r). pose proof (whiteSpaceRest_shorter s r E).
  rewrite H in *. lia.
Qed.

Lemma trimStart_fixed_append (s t : string) :
  s <> "" -> trimStart s = s -> continues t = false -> trimStart (s ++ t) = s ++ t.
Proof.
  intros Hne H Ht. rewrite trimStart_eq.
  rewrite (whiteSpaceRest_None_append s t Hne (trimStart_fixed s Hne H) Ht). reflexivity.
Qed.

Lemma trimStart_whitespace (ws s : string) :
  isBlank ws = true -> trimStart (ws ++ s) = trimStart s.
Proof.
  induction ws as [ws IH] using string_length_ind. intro H.
  destruct (whiteSpaceRest ws) as [r|] eqn:E.
  - rewrite (trimStart_eq (ws ++ s)), (whiteSpaceRest_append ws r s E).
    apply IH; [apply whiteSpaceRest_shorter; exact E|].
    rewrite <- (isBlank_rest ws r E). exact H.
  - rewrite (isBlank_empty ws H E). reflexivity.
Qed.

(** A text with white space appended is white space if and only if it was. *)
Lemma isBlank_append (x ws : string) :
  isBlank ws = true -> isBlank (x ++ ws) = isBlank x.
Proof.
  intro H. induction x as [x IH] using string_length_ind.
  destruct (whiteSpaceRest x) as [r|] eqn:E.
  - rewrite (isBlank_rest (x ++ ws) (r ++ ws) (whiteSpaceRest_append x r ws E)).
    rewrite (isBlank_rest x r E). apply IH. apply whiteSpaceRest_shorter. exact E.
  - destruct x as [|a x].
    + cbn [append]. rewrite H. reflexivity.
    + assert (Hc : continues ws = false).
      { pose proof (isBlank_continues ws "" H eq_refl) as K.
        replace (ws ++ "") with ws in K; [exact K|].
        clear. induction ws as [|c ws IHw]; cbn [append]; [reflexivity | rewrite <- IHw; reflexivity]. }
      pose proof (whiteSpaceRest_None_append (String a x) ws ltac:(discriminate) E Hc) as N.
      unfold isBlank. rewrite (trimStart_eq (String a x ++ ws)), N.
      rewrite (trimStart_eq (String a x)), E. reflexivity.
Qed.

Lemma trimEnd_whitespace (ws : string) :
  isBlank ws = true -> ThemeService.trimEnd ws = "".
Proof.
  intro H. destruct ws as [|c ws]; [reflexivity|].
  cbn [ThemeService.trimEnd]. rewrite H. reflexivity.
Qed.

Lemma trimEnd_append_whitespace (s ws : string) :
  isBlank ws = true -> ThemeService.trimEnd (s ++ ws) = ThemeService.trimEnd s.
Proof.
  intro H. induction s as [|c s IH].
  - cbn [append]. rewrite (trimEnd_whitespace ws H). reflexivity.
  - cbn [append ThemeService.trimEnd].
    change (String c (s ++ ws)) with (String c s ++ ws).
    rewrite (isBlank_append (String c s) ws H), IH. reflexivity.
Qed.

(** No white-space character has a backtick among its bytes. *)
Lemma isBlank_fence (x : string) : isBlank (x ++ "```") = false.
Proof.
  induction x as [x IH] using string_length_ind.
  destruct (whiteSpaceRest x) as [r|] eqn:E.
  - rewrite (isBlank_rest (x ++ "```") (r ++ "```") (whiteSpaceRest_append x r _ E)).
    apply IH. apply whiteSpaceRest_shorter. exact E.
  - destruct x as [|a x]; [reflexivity|].
    pose proof (whiteSpaceRest_None_append (String a x) "```" ltac:(discriminate) E eq_refl) as N.
    unfold isBlank. rewrite trimStart_eq, N. reflexivity.
Qed.

(** A text that ends in a fence keeps it under [trimEnd]. *)
Lemma trimEnd_keeps_fence (s : string) :
  ThemeService.trimEnd (s ++ "```") = s ++ "```".
Proof.
  induction s as [|c s IH]; [reflexivity|].
  cbn [append ThemeService.trimEnd].
  change (String c (s ++ "```")) with (String c s ++ "```").
  rewrite (isBlank_fence (String c s)). cbn [append]. rewrite IH. reflexivity.
Qed.

Lemma lastChar_append (a b : string) :
  b <> "" -> ThemeCoverage.lastChar (a ++ b) = ThemeCoverage.lastChar b.
Proof.
  intro Hb. induction a as [|c a IH]; [reflexivity|].
  cbn [append ThemeCoverage.lastChar]. rewrite IH.
  destruct (a ++ b) eqn:E; [|reflexivity].
  destruct a; [cbn [append] in E; congruence | discriminate E].
Qed.

(** White space does not end with a backtick. *)
Lemma lastChar_whitespace (ws : string) :
  isBlank ws = true -> ws <> "" ->
  exists c, ThemeCoverage.lastChar ws = Some c /\ c <> "`"%char.
Proof.
  induction ws as [ws IH] using string_length_ind. intros H Hne.
  destruct (whiteSpaceRest ws) as [r|] eqn:E;
    [|exfalso; apply Hne; apply isBlank_empty; assumption].
  assert (Hr : isBlank r = true) by (rewrite <- (isBlank_rest ws r E); exact H).
  destruct r as [|x r].
  - destruct (whiteSpaceRest_Some ws "" E)
      as [(a & -> & E1) | [(a & b & -> & E2) | (a & b & c & -> & E3)]].
    + exists a. split; [reflexivity|]. apply isWhiteSpace_byte in E1. apply E1.
    + exists b. split; [reflexivity|]. apply isWhiteSpace2_bytes in E2.
      apply backtick_byte. lia.
    + exists c. split; [reflexivity|]. apply isWhiteSpace3_bytes in E3.
      apply backtick_byte. lia.
  - destruct (IH (String x r) (whiteSpaceRest_shorter ws _ E) Hr ltac:(discriminate))
      as [c [Hc Hb]].
    exists c. split; [|exact Hb].
    destruct (whiteSpaceRest_Some ws _ E)
      as [(a & -> & _) | [(a & b & -> & _) | (a & b & c' & -> & _)]].
    + change (String a (String x r)) with ("" ++ String a "" ++ String x r).
      cbn [append]. cbn [ThemeCoverage.lastChar]. exact Hc.
    + cbn [ThemeCoverage.lastChar]. exact Hc.
    + cbn [ThemeCoverage.lastChar]. exact Hc.
Qed.

(** A body that does not start with white space, followed by white space
    and a fence, does not start with white space either. *)
Lemma trimStart_before_fence (body ws t : string) :
  body <> "" -> trimStart body = body -> isBlank ws = true ->
  trimStart (body ++ ws ++ "```" ++ t) = body ++ ws ++ "```" ++ t.
Proof.
  intros Hne Hb Hws. apply trimStart_fixed_append; [exact Hne | exact Hb |].
  apply (isBlank_continues ws ("```" ++ t) Hws). reflexivity.
Qed.

End WhiteSpaceFacts.

(** ** The tone mapping *)

Section ToneFacts.

Import Double Tone.
Open Scope Z_scope.

Lemma hexDigit_facts (c : ascii) (d : Z) :
  hexDigit c = Some d ->
  0 <= d < 16 /\ isWhiteSpace c = false /\
  Ascii.eqb c "-" = false /\ Ascii.eqb c "+" = false /\
  Ascii.eqb c "x" = false /\ Ascii.eqb c "X" = false /\ Ascii.eqb c "#" = false /\
  (nat_of_ascii c <? 128)%nat = true.
Proof.
  destruct c as [b0 b1 b2 b3 b4 b5 b6 b7].
  destruct b0, b1, b2, b3, b4, b5, b6, b7; vm_compute; intro H;
    try discriminate H; inversion H; subst;
    repeat split; try reflexivity; discriminate.
Qed.

(** A text that starts with a one-byte character other than white space
    does not start with white space. *)
Lemma whiteSpaceRest_ascii (c : ascii) (rest : string) :
  (nat_of_ascii c <? 128)%nat = true -> isWhiteSpace c = false ->
  whiteSpaceRest (String c rest) = None.
Proof.
  intros Hc Hw. apply Nat.ltb_lt in Hc. cbn [whiteSpaceRest]. rewrite Hw.
  destruct rest as [|b [|c3 r]]; [reflexivity| |].
  - destruct (isWhiteSpace2 c b) eqn:E2; [|reflexivity].
    apply isWhiteSpace2_bytes in E2. lia.
  - destruct (isWhiteSpace2 c b) eqn:E2; [apply isWhiteSpace2_bytes in E2; lia|].
    destruct (isWhiteSpace3 c b c3) eqn:E3; [|reflexivity].
    apply isWhiteSpace3_bytes in E3. lia.
Qed.

Lemma trimStart_ascii (c : ascii) (rest : string) :
  (nat_of_ascii c <? 128)%nat = true -> isWhiteSpace c = false ->
  trimStart (String c rest) = String c rest.
Proof.
  intros Hc Hw. rewrite trimStart_eq, (whiteSpaceRest_ascii c rest Hc Hw). reflexivity.
Qed.

Lemma hexValue_nonneg (s : string) : 0 <= hexValue s.
Proof.
  induction s as [|c rest IH]; cbn [hexValue]; [lia|].
  destruct (hexDigit c) as [d|] eqn:E; [|exact IH].
  apply hexDigit_facts in E. destruct E as [E _].
  assert (0 <= 16 ^ Z.of_nat (String.length rest)) by (apply Z.pow_nonneg; lia).
  nia.
Qed.

(** Digits have a value below sixteen to the power of their number. *)
Lemma hexValue_bound (s : string) :
  allHexDigits s = true -> hexValue s < 16 ^ Z.of_nat (String.length s).
Proof.
  induction s as [|c rest IH]; cbn [hexValue allHexDigits String.length]; intro H.
  - cbn. lia.
  - destruct (hexDigit c) as [d|] eqn:E; [|discriminate H].
    apply hexDigit_facts in E. destruct E as [E _].
    rewrite Nat2Z.inj_succ, Z.pow_succ_r by lia.
    pose proof (IH H). nia.
Qed.

(** Reading a string of digits left to right gives its positional value. *)
Lemma parseDigits_all (s : string) (acc : Z) (seen : bool) :
  allHexDigits s = true ->
  parseDigits s acc seen =
  (acc * 16 ^ Z.of_nat (String.length s) + hexValue s,
   match s with EmptyString => seen | _ => true end).
Proof.
  revert acc seen. induction s as [|c rest IH]; intros acc seen H.
  - simpl. f_equal. lia.
  - cbn [parseDigits hexValue String.length allHexDigits] in H |- *.
    destruct (hexDigit c) as [d|] eqn:E; [|discriminate].
    rewrite (IH _ _ H), Nat2Z.inj_succ, Z.pow_succ_r by lia.
    f_equal; [ring | destruct rest; reflexivity].
Qed.

Lemma removeFirstHash_digits (s : string) :
  allHexDigits s = true -> removeFirstHash s = s.
Proof.
  induction s as [|c rest IH]; intro H; simpl in H |- *; [reflexivity|].
  destruct (hexDigit c) as [d|] eqn:E; [|discriminate].
  apply hexDigit_facts in E. destruct E as (_ & _ & _ & _ & _ & _ & E & _).
  rewrite E, (IH H). reflexivity.
Qed.

Lemma mathInt16_digits (s : string) :
  allHexDigits s = true -> s <> EmptyString ->
  mathInt16 s = Some (false, hexValue s).
Proof.
  intros H Hne. destruct s as [|c rest]; [congruence|].
  pose proof H as H0. simpl in H0.
  destruct (hexDigit c) as [d|] eqn:E; [|discriminate].
  destruct (hexDigit_facts _ _ E) as (_ & Hw & Hm & Hp & _ & _ & _ & Ha).
  unfold mathInt16. rewrite (trimStart_ascii c rest Ha Hw), Hm, Hp.
  assert (Hs3 : match String c rest with
                | String c1 (String c2 rest0) =>
                    if Ascii.eqb c1 "0" && (Ascii.eqb c2 "x" || Ascii.eqb c2 "X")
                    then rest0 else String c rest
                | _ => String c rest
                end = String c rest).
  { destruct rest as [|c2 rest2]; [reflexivity|].
    simpl in H0. destruct (hexDigit c2) as [d2|] eqn:E2; [|discriminate].
    destruct (hexDigit_facts _ _ E2) as (_ & _ & _ & _ & Hx & HX & _).
    rewrite Hx, HX, andb_false_r. reflexivity. }
  rewrite Hs3, (parseDigits_all _ _ _ H). reflexivity.
Qed.

(** On a string of digits [parseInt] returns the Number value of their
    integer. *)
Lemma parseInt16_digits (s : string) :
  allHexDigits s = true -> s <> EmptyString ->
  parseInt16 s = toNumber (hexValue s).
Proof.
  intros H Hne. unfold parseInt16. rewrite (mathInt16_digits s H Hne). reflexivity.
Qed.

(** What [hexToFreq] computes for a colour. *)
Lemma hexToFreq_digits (digits : string) (base : double) :
  allHexDigits digits = true -> digits <> EmptyString ->
  hexToFreq (String "#" digits) base
  = add base (rem (toNumber (hexValue digits)) (toNumber 300)).
Proof.
  intros H Hne. unfold hexToFreq. cbn [removeFirstHash].
  change (Ascii.eqb "#" "#") with true. cbv iota.
  rewrite (parseInt16_digits _ H Hne). reflexivity.
Qed.

(** C9, as the code has it.  [hexToFreq] is a function of its two
    arguments.  For a colour written as [#] and hexadecimal digits (and the
    same without [#]) it returns [base + (val % 300)] in double arithmetic,
    where [val] is the Number value of the digits' integer; when that integer
    is below 2^53 it is [val], so the result is [base] plus the integer modulo
    300; and [hexToFreq('#00F0FF', 150)] is 345 on every call. *)
Theorem hexToFreq_is_base_plus_value_mod_300 (digits : string) (base : double) :
  allHexDigits digits = true -> digits <> EmptyString ->
  hexToFreq (String "#" digits) base
    = add base (rem (toNumber (hexValue digits)) (toNumber 300)) /\
  hexToFreq digits base = hexToFreq (String "#" digits) base /\
  (hexValue digits < 2 ^ 53 ->
   hexToFreq (String "#" digits) base = add base (toNumber (hexValue digits mod 300))) /\
  hexToFreq "#00F0FF" (toNumber 150) = toNumber 345.
Proof.
  intros H Hne.
  pose proof (hexToFreq_digits digits base H Hne) as E1.
  split; [exact E1|]. split; [|split].
  - rewrite E1. unfold hexToFreq.
    rewrite (removeFirstHash_digits _ H), (parseInt16_digits _ H Hne). reflexivity.
  - intro Hv. rewrite E1, rem_300; [reflexivity|].
    split; [apply hexValue_nonneg | exact Hv].
  - vm_compute. reflexivity.
Qed.

End ToneFacts.

(** ** The theme fallback *)

Section ThemeFacts.

Import ThemeService.
Open Scope string_scope.

Variable generateContent : string -> Settled GenerateContentResponse.
Variable JSON_parse : string -> option JSON.

(** The promise of [generateTheme] never rejects. *)
Lemma generateTheme_resolves (prompt : string) :
  exists v, generateTheme generateContent JSON_parse prompt = Resolved v.
Proof.
  unfold generateTheme.
  destruct (tryBlock generateContent JSON_parse prompt); eexists; reflexivity.
Qed.

(** The [try] block fails in each of the three cases. *)
Lemma tryBlock_fails (prompt : string) :
  serviceFails generateContent prompt \/
  responseNotJSON generateContent JSON_parse prompt ->
  tryBlock generateContent JSON_parse prompt = None.
Proof.
  unfold serviceFails, responseNotJSON, tryBlock.
  intros [H | [response [H Hbad]]]; rewrite H; [reflexivity|].
  destruct (text response) as [t|]; [|reflexivity].
  destruct Hbad as [-> | Hbad]; [reflexivity|].
  destruct t; [reflexivity | exact Hbad].
Qed.

(** What a parsed response gives: it is returned as it is. *)
Lemma generateTheme_parsed (prompt : string) (response : GenerateContentResponse)
    (t : string) (v : JSON) :
  generateContent (contentsOf prompt) = Resolved response ->
  text response = Some t -> t <> "" -> JSON_parse (cleanUp t) = Some v ->
  generateTheme generateContent JSON_parse prompt = Resolved v.
Proof.
  intros H Ht Hne Hv. unfold generateTheme, tryBlock. rewrite H, Ht.
  destruct t; [congruence|]. rewrite Hv. reflexivity.
Qed.

(** C8, as the code has it.  For every prompt [generateTheme] resolves (it
    never rejects).  When the service call rejects, or the response has no
    text, or its text (markdown fence stripped, trimmed) is not JSON, it
    resolves with the fallback object, whose colours are #FF0000, #00FF00,
    #FFD700, #FFFFFF, #0000FF and whose greeting is
    "Happy Holidays! (System Rebooting... Energy restored)".  A text that is
    JSON is returned as parsed, whatever its shape: the code does not look at
    the parsed value. *)
Theorem theme_fallback_on_failure (prompt : string) :
  (exists v, generateTheme generateContent JSON_parse prompt = Resolved v) /\
  (serviceFails generateContent prompt \/
   responseNotJSON generateContent JSON_parse prompt ->
   generateTheme generateContent JSON_parse prompt = Resolved fallback) /\
  (forall response t v,
     generateContent (contentsOf prompt) = Resolved response ->
     text response = Some t -> t <> "" -> JSON_parse (cleanUp t) = Some v ->
     generateTheme generateContent JSON_parse prompt = Resolved v) /\
  getField "colors" fallback =
    Some (JArray [JString "#FF0000"; JString "#00FF00"; JString "#FFD700";
                  JString "#FFFFFF"; JString "#0000FF"]) /\
  getField "greeting" fallback =
    Some (JString "Happy Holidays! (System Rebooting... Energy restored)").
Proof.
  split; [apply generateTheme_resolves|]. split; [|split].
  - intro H. unfold generateTheme. rewrite (tryBlock_fails prompt H). reflexivity.
  - intros response t v. apply generateTheme_parsed.
  - split; reflexivity.
Qed.

End ThemeFacts.

(** ** The tree generator *)

Section MonadFacts.

Import ChristmasTree TreeSpec.

Context {A B : Type}.

Lemma post_ret (T : Prop) (a : A) (st : Buffers) (P : A -> Buffers -> Prop) :
  P a st -> post T (ret a) st P.
Proof. intro H. exact H. Qed.

Lemma post_bind (T : Prop) (m : M A) (f : A -> M B) (st : Buffers)
    (P : B -> Buffers -> Prop) :
  post T m st (fun a st' => post T (f a) st' P) -> post T (bind m f) st P.
Proof.
  unfold post, bind. destruct (m st); intro H; exact H.
Qed.

Lemma post_mono (T : Prop) (m : M A) (st : Buffers) (P Q : A -> Buffers -> Prop) :
  post T m st P -> (forall a st', P a st' -> Q a st') -> post T m st Q.
Proof.
  unfold post. destruct (m st); intros H HPQ; auto.
Qed.


Lemma post_terminates (T : Prop) (m : M A) (st : Buffers) (P : A -> Buffers -> Prop) :
  post T m st P -> m st <> OutOfFuel.
Proof.
  unfold post. destruct (m st); intros H E; [discriminate E | discriminate E | exact H].
Qed.

End MonadFacts.

Section LoopFacts.

Import ChristmasTree TreeSpec.

(** The loop rule: an invariant indexed by the loop counter. *)
Lemma post_forN {S : Type} (T : Prop) (Inv : nat -> S -> Buffers -> Prop)
    (body : nat -> S -> M S) (count : nat) :
  forall (start : nat) (s : S) (st : Buffers),
    Inv start s st ->
    (forall j s0 st0, (start <= j < start + count)%nat -> Inv j s0 st0 ->
                      post T (body j s0) st0 (Inv (Datatypes.S j))) ->
    post T (forN count start body s) st (Inv (start + count)%nat).
Proof.
  induction count as [|count IH]; intros start s st H0 Hbody.
  - cbn [forN]. apply post_ret. rewrite Nat.add_0_r. exact H0.
  - cbn [forN]. apply post_bind.
    eapply post_mono; [apply (Hbody start s st); [lia | exact H0]|].
    intros s' st' H1. cbv beta.
    replace (start + Datatypes.S count)%nat with (Datatypes.S start + count)%nat by lia.
    apply IH; [exact H1|].
    intros j s0 st0 Hj. apply Hbody. lia.
Qed.

(** Two loops with pointwise equal bodies are equal. *)
Lemma forN_ext {S : Type} (body1 body2 : nat -> S -> M S) (count : nat) :
  (forall j s st, body1 j s st = body2 j s st) ->
  forall start s st, forN count start body1 s st = forN count start body2 s st.
Proof.
  intro Hb. induction count as [|count IH]; intros start s st; cbn [forN]; [reflexivity|].
  unfold bind. rewrite Hb. destruct (body2 start s st); [apply IH | reflexivity | reflexivity].
Qed.

Lemma grew_refl (st : Buffers) : grew st st 0 [].
Proof. unfold grew. rewrite app_nil_r. repeat split; lia. Qed.

Lemma grew_trans (a b c : Buffers) (n m : nat) (ds es : list DecorationData) :
  grew a b n ds -> grew b c m es -> grew a c (n + m) (ds ++ es).
Proof.
  unfold grew. intros (H1 & H2 & H3 & H4) (K1 & K2 & K3 & K4).
  rewrite K1, K2, K3, H1, H2, H3, app_assoc. repeat split; lia.
Qed.

Lemma grew_trans_nil (a b c : Buffers) (n m : nat) (ds : list DecorationData) :
  grew a b n [] -> grew b c m ds -> grew a c (n + m) ds.
Proof.
  intros H K. exact (grew_trans _ _ _ _ _ _ _ H K).
Qed.

(** An index drawn as [Math.floor(r * arr.length)] with [r] in [0, 1) hits
    the array. *)
Lemma pick_in_range {A} (arr : list A) (r : Number) :
  arr <> [] -> 0 <= r -> r < 1 ->
  exists c, pick arr r = Some c /\ In c arr.
Proof.
  intros Hne H0 H1. unfold pick, atFloor, lengthOf.
  set (n := Z.of_nat (List.length arr)).
  assert (Hn : (0 < n)%Z) by (subst n; destruct arr; [congruence | simpl; lia]).
  assert (Hq : 0 < inject_Z n) by (change 0 with (inject_Z 0); rewrite <- Zlt_Qlt; exact Hn).
  assert (Hlo : (0 <= Qfloor (r * inject_Z n))%Z).
  { change 0%Z with (Qfloor 0). apply Qfloor_resp_le. nra. }
  assert (Hhi : (Qfloor (r * inject_Z n) < n)%Z).
  { rewrite Zlt_Qlt. apply Qle_lt_trans with (r * inject_Z n); [apply Qfloor_le | nra]. }
  destruct (0 <=? Qfloor (r * inject_Z n))%Z eqn:E; [|apply Z.leb_gt in E; lia].
  destruct (nth_error arr (Z.to_nat (Qfloor (r * inject_Z n)))) as [c|] eqn:F.
  - exists c. split; [reflexivity | eapply nth_error_In; exact F].
  - apply nth_error_None in F. subst n. lia.
Qed.

End LoopFacts.

Section BranchFacts.

Import ChristmasTree TreeSpec.
Open Scope list_scope.

Variable Math_cos Math_sin Math_sqrt : Number -> Number.
Variable Math_PI : Number.
Variable Color : string -> Number * Number * Number.
Variable Number_toString : Number -> string.
Variable random : nat -> Number.
Variable colors : list string.

(** Either a [TypeError] is an accepted end, or the random source keeps its
    contract. *)
Variable T : Prop.
Hypothesis Hr : T \/ inUnit random.

Lemma combinedPalette_nonempty : combinedPalette colors <> [].
Proof.
  unfold combinedPalette, HSR_PALETTE. destruct colors; discriminate.
Qed.

Lemma picked_or_T {A} (arr : list A) (n : nat) :
  arr <> [] -> pick arr (random n) = None -> T.
Proof.
  intros Hne E. destruct Hr as [HT | Hin]; [exact HT|].
  destruct (Hin n) as [H0 H1].
  destruct (pick_in_range arr (random n) Hne H0 H1) as [c [Hc _]]. congruence.
Qed.

(** One foliage point: one more point, no decoration. *)
Lemma foliagePoint_grew (t : Turtle) (vs pr : Number) (st : Buffers) :
  post T (foliagePoint Color random colors t vs pr) st (fun _ st' => grew st st' 1 []).
Proof.
  unfold foliagePoint, post, bind, Math_random. cbn.
  destruct (pick (combinedPalette colors) (random (S (S (S (draws st)))))) as [hex|] eqn:E.
  - unfold addPoint. destruct (Color hex) as [[r g] b]. cbn.
    unfold grew. cbn. rewrite !length_app, app_nil_r. cbn. repeat split; lia.
  - cbn. exact (picked_or_T _ _ combinedPalette_nonempty E).
Qed.

(** The foliage loop of one segment: [density] points. *)
Lemma foliage_grew (t : Turtle) (vs pr : Number) (density : nat) (st : Buffers) :
  post T (forN density 0
            (fun _ u => foliagePoint Color random colors t vs pr ;;; ret u) tt) st
       (fun _ st' => grew st st' density []).
Proof.
  apply (post_forN T (fun j _ st' => grew st st' j []) _ density 0 tt st).
  - apply grew_refl.
  - intros j u st0 _ H. apply post_bind.
    eapply post_mono; [apply foliagePoint_grew|].
    intros u1 st1 H1. apply post_ret.
    replace (S j) with (j + 1)%nat by lia.
    exact (grew_trans_nil _ _ _ _ _ _ H H1).
Qed.

Lemma spurBound_zero (b : nat) : b = 0%nat -> spurBound random 0 b.
Proof. intros ->. unfold spurBound. repeat split; intros; lia. Qed.

Lemma spurBound_add (k1 b1 k2 b2 : nat) :
  spurBound random k1 b1 -> spurBound random k2 b2 ->
  spurBound random (k1 + k2) (b1 + b2).
Proof.
  unfold spurBound. intros (H1 & H2 & H3) (K1 & K2 & K3).
  repeat split; intros; [lia | rewrite H2, K2 by assumption; reflexivity
                              | rewrite H3, K3 by assumption; reflexivity].
Qed.

(** The pool of ornament colours is the kept colours and the two accents. *)
Lemma colorPool_incl (c : string) :
  In c ((if (List.length (filter isRich colors) =? 0)%nat
         then filter isRich colors ++ [nth 2 HSR_PALETTE ""%string]
         else filter isRich colors)
        ++ [nth 2 HSR_PALETTE ""%string; nth 3 HSR_PALETTE ""%string]) ->
  In c (filter isRich colors ++ ["#FF0066"; "#FFD700"]%string).
Proof.
  clear - colors.
  cbn [nth HSR_PALETTE].
  destruct (filter isRich colors) as [|c0 rest]; cbn [List.length Nat.eqb app].
  - cbn. tauto.
  - intro H. exact H.
Qed.

Lemma colorPool_nonempty :
  (if (List.length (filter isRich colors) =? 0)%nat
   then filter isRich colors ++ [nth 2 HSR_PALETTE ""%string]
   else filter isRich colors)
  ++ [nth 2 HSR_PALETTE ""%string; nth 3 HSR_PALETTE ""%string] <> [].
Proof.
  clear - colors.
  intro H. apply app_eq_nil in H. destruct H as [_ H]. discriminate H.
Qed.

(** The decoration block: exactly one decoration is pushed, whose kind is
    the band of the first draw; no point is added and no exception raised. *)
Lemma placeDecoration_spec (startX startY directionAngle dirX dirZ : Number)
    (t : Turtle) (st : Buffers) :
  post T (placeDecoration Math_PI Number_toString random colors
                          startX startY directionAngle dirX dirZ t) st
       (fun _ st' => exists d,
            grew st st' 0 [d] /\
            tipDecoration random colors dirX dirZ t (draws st) (draws st') d).
Proof.
  clear Hr Math_cos Math_sin Math_sqrt Color.
  unfold placeDecoration, post, bind, Math_random. cbn [draws points pointColors decorations].
  set (pool := (if (List.length (filter isRich colors) =? 0)%nat then _ else _) ++ _).
  assert (Hpool : forall n, inUnit random ->
            exists c, pick pool (random n) = Some c /\
                      In c (filter isRich colors ++ ["#FF0066"; "#FFD700"]%string)).
  { intros n Hin. destruct (Hin n) as [H0 H1].
    destruct (pick_in_range pool (random n) colorPool_nonempty H0 H1) as [c [Hc Hc']].
    exists c. split; [exact Hc | apply colorPool_incl; exact Hc']. }
  assert (Hbell : forall n, inUnit random ->
            exists c, pick HSR_PALETTE (random n) = Some c /\ In c HSR_PALETTE).
  { intros n Hin. destruct (Hin n) as [H0 H1].
    apply pick_in_range; [discriminate | exact H0 | exact H1]. }
  unfold tipDecoration, bandOfSpec, colourOK.
  destruct (Qgtb (random (draws st)) 0.96) eqn:E1;
    [|destruct (Qgtb (random (draws st)) 0.8) eqn:E2;
      [|destruct (Qgtb (random (draws st)) 0.6) eqn:E3;
        [|destruct (Qgtb (random (draws st)) 0.4) eqn:E4]]];
    unfold pushDecoration; cbn [draws points pointColors decorations];
    eexists; (split; [unfold grew; cbn; repeat split; lia|]);
    cbn [dec_type dec_position dec_color];
    (split; [exists (draws st); rewrite ?E1, ?E2, ?E3, ?E4; split; [lia | reflexivity]|]);
    (split; [reflexivity|]); intro Hin; auto.
Qed.

(** The sub-branching block at a depth other than 0: nothing happens. *)
Lemma subBranch_deeper (recur : Branch) (directionAngle length progress : Number)
    (depth s : nat) (t1 : Turtle) :
  subBranch random recur directionAngle length progress (S depth) s t1 = ret tt.
Proof. reflexivity. Qed.

(** The sub-branching block at depth 0: the recursive call is made exactly
    when the draw is below 0.45 and the segment index is above 1. *)
Lemma subBranch_main (recur : Branch) (directionAngle length progress : Number)
    (s : nat) (t1 : Turtle) (st : Buffers) :
  (forall x y z a l d st0, post T (recur x y z a l d 1%nat) st0
                                (fun _ st' => grew st0 st' 120 [])) ->
  post T (subBranch random recur directionAngle length progress 0 s t1) st
       (fun _ st' => exists k, grew st st' (120 * k) [] /\
                               spurBound random k (if (1 <? s)%nat then 1 else 0)).
Proof.
  intro Hrec. unfold subBranch. cbn [Nat.eqb].
  unfold post at 1, bind at 1, Math_random at 1. cbv beta iota.
  set (st1 := {| points := points st; pointColors := pointColors st;
                 decorations := decorations st; draws := S (draws st) |}).
  assert (G1 : grew st st1 0 []) by (unfold grew; cbn; rewrite app_nil_r; repeat split; lia).
  destruct (Qltb (random (draws st)) 0.45) eqn:E; destruct (1 <? s)%nat eqn:Es;
    cbn [andb].
  - (* the spur is spawned *)
    unfold bind at 1, Math_random at 1. cbv beta iota.
    unfold bind at 1, Math_random at 1. cbv beta iota.
    cbn [draws points pointColors decorations].
    match goal with |- match recur ?x ?y ?z ?a ?l ?d _ ?st2 with _ => _ end =>
      pose proof (Hrec x y z a l d st2) as H; unfold post in H;
      destruct (recur x y z a l d (0 + 1)%nat st2) as [u st3| |] eqn:R;
      change (0 + 1)%nat with 1%nat in R; rewrite R in H
    end; [|exact H|exact H].
    exists 1%nat. split.
    + destruct H as (H1 & H2 & H3 & H4). cbn in H1, H2, H3, H4.
      unfold grew. cbn [draws points pointColors decorations].
      rewrite H1, H2, H3. repeat split; lia.
    + unfold spurBound. repeat split; intros; try lia.
      apply Qltb_lt in E. specialize (H0 (draws st)). lra.
  - exists 0%nat. split; [exact G1 | apply spurBound_zero; reflexivity].
  - exists 0%nat. split; [exact G1|].
    unfold spurBound. repeat split; intros; try lia.
    apply Qltb_ge in E. specialize (H (draws st)). lra.
  - exists 0%nat. split; [exact G1 | apply spurBound_zero; reflexivity].
Qed.

(** A segment of a deeper branch: eight points, the turtle advanced. *)
Lemma segment_deeper (recur : Branch) (directionAngle dirX dirZ length droopFactor : Number)
    (depth s : nat) (t0 : Turtle) (st : Buffers) :
  post T (segment Color random colors recur directionAngle dirX dirZ length droopFactor
                  (S depth) s t0) st
       (fun t st' => grew st st' 8 [] /\
                     t = advance dirX dirZ length droopFactor s t0).
Proof.
  unfold segment. apply post_bind.
  eapply post_mono; [apply foliage_grew|].
  intros u st1 H1. cbv beta. apply post_bind. rewrite subBranch_deeper.
  apply post_ret, post_ret. split; [exact H1 | reflexivity].
Qed.

(** A segment of a main branch: twenty points and at most one spur of 120
    points, spawned only at a segment index above 1. *)
Lemma segment_main (recur : Branch) (directionAngle dirX dirZ length droopFactor : Number)
    (s : nat) (t0 : Turtle) (st : Buffers) :
  (forall x y z a l d st0, post T (recur x y z a l d 1%nat) st0
                                (fun _ st' => grew st0 st' 120 [])) ->
  post T (segment Color random colors recur directionAngle dirX dirZ length droopFactor
                  0 s t0) st
       (fun t st' => (exists k, grew st st' (20 + 120 * k) [] /\
                                spurBound random k (if (1 <? s)%nat then 1 else 0)) /\
                     t = advance dirX dirZ length droopFactor s t0).
Proof.
  intro Hrec. unfold segment. apply post_bind.
  eapply post_mono; [apply foliage_grew|].
  intros u st1 H1. cbv beta. apply post_bind.
  eapply post_mono; [apply subBranch_main; exact Hrec|].
  intros u2 st2 [k [H2 Hk]]. cbv beta. apply post_ret.
  split; [|reflexivity].
  exists k. split; [|exact Hk].
  exact (grew_trans_nil _ _ _ _ _ _ H1 H2).
Qed.

Lemma walk_step (dirX dirZ length droopFactor : Number) (count start : nat) (t : Turtle) :
  walk dirX dirZ length droopFactor (S count) start t =
  walk dirX dirZ length droopFactor count (S start)
       (advance dirX dirZ length droopFactor start t).
Proof. reflexivity. Qed.

Local Abbreviation gb :=
  (generateBranch Math_cos Math_sin Math_PI Color Number_toString random colors).

(** A call at a depth other than 0 needs no budget beyond its own: it adds
    15 x 8 points, no decoration, and makes no recursive call. *)
Lemma generateBranch_deeper (fuel : nat)
    (startX startY startZ directionAngle length droopFactor : Number) (depth : nat)
    (st : Buffers) :
  post T (gb (S fuel) startX startY startZ directionAngle length droopFactor (S depth)) st
       (fun _ st' => grew st st' 120 []).
Proof.
  cbn [generateBranch]. apply post_bind.
  eapply post_mono.
  - apply (post_forN T (fun j _ st' => grew st st' (8 * j) [])).
    + apply grew_refl.
    + intros j t0 st0 _ H. eapply post_mono; [apply segment_deeper|].
      intros t1 st1 [H1 _]. cbv beta.
      replace (8 * S j)%nat with (8 * j + 8)%nat by lia.
      exact (grew_trans_nil _ _ _ _ _ _ H H1).
  - intros t st1 H1. cbv beta. cbn [Nat.eqb]. apply post_ret. exact H1.
Qed.

(** A call at depth 0 with a budget of two: 15 x 20 points, up to thirteen
    spurs of 120 points each, and exactly one decoration, at the tip. *)
Lemma generateBranch_main (fuel : nat)
    (startX startY startZ directionAngle length droopFactor : Number) (st : Buffers) :
  post T (gb (S (S fuel)) startX startY startZ directionAngle length droopFactor 0) st
       (fun _ st' => exists k d,
            grew st st' (300 + 120 * k) [d] /\
            spurBound random k 13 /\
            tipDecoration random colors (Math_cos directionAngle) (Math_sin directionAngle)
              (branchTip Math_cos Math_sin startX startY startZ directionAngle length
                         droopFactor)
              (draws st) (draws st') d).
Proof.
  clear Math_sqrt.
  cbn [generateBranch]. apply post_bind.
  set (dirX := Math_cos directionAngle). set (dirZ := Math_sin directionAngle).
  set (t_init := {| currentX := startX; currentY := startY; currentZ := startZ;
                    dirY := 0.25 |}).
  eapply post_mono.
  - apply (post_forN T
             (fun j t st' =>
                (exists k, grew st st' (20 * j + 120 * k) [] /\
                           spurBound random k (j - 2)) /\
                walk dirX dirZ length droopFactor (segments - j) j t =
                walk dirX dirZ length droopFactor segments 0 t_init)).
    + split; [|reflexivity].
      exists 0%nat. split; [apply grew_refl | apply spurBound_zero; reflexivity].
    + intros j t0 st0 Hj [[k [H Hk]] Hw].
      eapply post_mono;
        [apply segment_main; intros; apply generateBranch_deeper|].
      intros t1 st1 [[k1 [H1 Hk1]] Ht1]. cbv beta. split.
      * exists (k + k1)%nat. split.
        -- replace (20 * S j + 120 * (k + k1))%nat
             with ((20 * j + 120 * k) + (20 + 120 * k1))%nat by lia.
           exact (grew_trans_nil _ _ _ _ _ _ H H1).
        -- replace (S j - 2)%nat with ((j - 2) + (if (1 <? j)%nat then 1 else 0))%nat.
           ++ apply spurBound_add; assumption.
           ++ destruct (1 <? j)%nat eqn:E;
                [apply Nat.ltb_lt in E | apply Nat.ltb_ge in E]; lia.
      * rewrite <- Hw, Ht1.
        replace (segments - j)%nat with (S (segments - S j)) by (unfold segments in Hj |- *; lia).
        reflexivity.
  - intros t st1 [[k [H1 Hk]] Hw]. cbv beta. cbn [Nat.eqb].
    change (0 + segments)%nat with segments in Hw, H1, Hk.
    rewrite Nat.sub_diag in Hw. cbn [walk] in Hw.
    eapply post_mono; [apply placeDecoration_spec|].
    intros u st2 [d [H2 Hd]]. cbv beta.
    exists k, d. split; [|split].
    + replace (300 + 120 * k)%nat with ((20 * segments + 120 * k) + 0)%nat
        by (unfold segments; lia).
      exact (grew_trans_nil _ _ _ _ _ _ H1 H2).
    + exact Hk.
    + unfold branchTip. fold dirX dirZ t_init. rewrite <- Hw.
      destruct Hd as ([i [Hi Hband]] & Hpos & Hcol).
      split; [|split; assumption].
      exists i. split; [|exact Hband].
      destruct H1 as (_ & _ & _ & Hdraws). lia.
Qed.

Lemma tipDecoration_main (dirX dirZ : Number) (tip : Turtle) (lo hi : nat)
    (d : DecorationData) :
  tipDecoration random colors dirX dirZ tip lo hi d -> mainDecoration random colors d.
Proof.
  intros ([i [_ Hi]] & _ & Hc). split; [exists i; exact Hi | exact Hc].
Qed.

(** One turn of the main loop. *)
Lemma mainBranch_spec (fuel i : nat) (st : Buffers) :
  post T (mainBranch Math_cos Math_sin Math_sqrt Math_PI Color Number_toString random colors
                     (S (S fuel)) i) st
       (fun _ st' => exists k d,
            grew st st' (300 + 120 * k) [d] /\
            spurBound random k 13 /\ mainDecoration random colors d).
Proof.
  unfold mainBranch, post at 1, bind at 1, Math_random at 1. cbv beta iota.
  unfold bind at 1, Math_random at 1. cbv beta iota.
  cbn [draws points pointColors decorations].
  eapply post_mono; [apply generateBranch_main|].
  intros u st' (k & d & H & Hk & Hd). exists k, d.
  split; [|split; [exact Hk | exact (tipDecoration_main _ _ _ _ _ _ Hd)]].
  destruct H as (H1 & H2 & H3 & H4). cbn in H1, H2, H3, H4.
  unfold grew. repeat split; try assumption. lia.
Qed.

(** The main loop from empty buffers: 140 decorations, 140 x 300 points and
    120 more for each spur. *)
Lemma generate_spec (fuel : nat) :
  post T (fun st => generate Math_cos Math_sin Math_sqrt Math_PI Color Number_toString
                             random colors (S (S fuel))) emptyBuffers
       (fun _ st' => exists k ds,
            grew emptyBuffers st' (300 * totalBranches + 120 * k) ds /\
            List.length ds = totalBranches /\
            spurBound random k (13 * totalBranches) /\
            Forall (mainDecoration random colors) ds).
Proof.
  unfold generate.
  change (post T (forN totalBranches 0
                    (fun i u => mainBranch Math_cos Math_sin Math_sqrt Math_PI Color
                                  Number_toString random colors (S (S fuel)) i ;;; ret u) tt)
               emptyBuffers
               (fun _ st' => exists k ds,
                    grew emptyBuffers st' (300 * (0 + totalBranches) + 120 * k) ds /\
                    List.length ds = (0 + totalBranches)%nat /\
                    spurBound random k (13 * (0 + totalBranches)) /\
                    Forall (mainDecoration random colors) ds)).
  apply (post_forN T
           (fun j _ st' => exists k ds,
                grew emptyBuffers st' (300 * j + 120 * k) ds /\
                List.length ds = j /\
                spurBound random k (13 * j) /\
                Forall (mainDecoration random colors) ds)).
  - exists 0%nat, []. split; [apply grew_refl|].
    split; [reflexivity|]. split; [apply spurBound_zero; reflexivity | constructor].
  - intros j u st0 _ (k & ds & H & Hlen & Hk & Hds).
    apply post_bind. eapply post_mono; [apply mainBranch_spec|].
    intros u1 st1 (k1 & d & H1 & Hk1 & Hd). cbv beta. apply post_ret.
    exists (k + k1)%nat, (ds ++ [d]). split; [|split; [|split]].
    + replace (300 * S j + 120 * (k + k1))%nat
        with ((300 * j + 120 * k) + (300 + 120 * k1))%nat by lia.
      exact (grew_trans _ _ _ _ _ _ _ H H1).
    + rewrite length_app, Hlen. cbn. lia.
    + replace (13 * S j)%nat with (13 * j + 13)%nat by lia.
      apply spurBound_add; assumption.
    + apply Forall_app. split; [exact Hds | constructor; [exact Hd | constructor]].
Qed.

(** What [useTreeData] returns. *)
Lemma useTreeData_spec (fuel : nat) :
  match useTreeData Math_cos Math_sin Math_sqrt Math_PI Color Number_toString
                    random colors (S (S fuel)) with
  | Done td _ =>
      exists k,
        pointCount td = (300 * 140 + 120 * k)%nat /\
        List.length (positions td) = (3 * pointCount td)%nat /\
        List.length (tree_colors td) = (3 * pointCount td)%nat /\
        List.length (tree_decorations td) = 140%nat /\
        spurBound random k (13 * 140) /\
        Forall (mainDecoration random colors) (tree_decorations td)
  | TypeError => T
  | OutOfFuel => False
  end.
Proof.
  pose proof (generate_spec fuel) as H. unfold post in H. unfold useTreeData.
  destruct (generate _ _ _ _ _ _ _ _ _) as [u st| |]; [|exact H|exact H].
  destruct H as (k & ds & (H1 & H2 & H3 & _) & Hlen & Hk & Hds).
  unfold emptyBuffers in H1, H2, H3.
  cbn [points pointColors decorations List.length app Nat.add] in H1, H2, H3.
  change totalBranches with 140%nat in H1, H2, Hlen, Hk.
  exists k.
  assert (Hp : pointCount {| positions := points st; tree_colors := pointColors st;
                             tree_decorations := decorations st |}
               = (300 * 140 + 120 * k)%nat).
  { unfold pointCount. cbn [positions]. rewrite H1.
    rewrite (Nat.mul_comm 3). apply Nat.div_mul. discriminate. }
  rewrite Hp. cbn [positions tree_colors tree_decorations].
  rewrite H1, H2, H3.
  split; [reflexivity|]. split; [reflexivity|]. split; [reflexivity|].
  split; [exact Hlen|]. split; [exact Hk | exact Hds].
Qed.

End BranchFacts.

Section FuelFacts.

Import ChristmasTree TreeSpec.
Open Scope list_scope.

Variable Math_cos Math_sin Math_sqrt : Number -> Number.
Variable Math_PI : Number.
Variable Color : string -> Number * Number * Number.
Variable Number_toString : Number -> string.
Variable random : nat -> Number.
Variable colors : list string.

Local Abbreviation gb :=
  (generateBranch Math_cos Math_sin Math_PI Color Number_toString random colors).

Lemma bind_cong {A B} (m1 m2 : M A) (f g : A -> M B) (st : Buffers) :
  m1 st = m2 st -> (forall a st', f a st' = g a st') ->
  bind m1 f st = bind m2 g st.
Proof.
  intros Hm Hf. unfold bind. rewrite Hm.
  destruct (m2 st); [apply Hf | reflexivity | reflexivity].
Qed.

Lemma subBranch_ext (recur1 recur2 : Branch) (directionAngle length progress : Number)
    (depth s : nat) (t1 : Turtle) (st : Buffers) :
  (forall x y z a l d st0,
     recur1 x y z a l d (depth + 1)%nat st0 = recur2 x y z a l d (depth + 1)%nat st0) ->
  subBranch random recur1 directionAngle length progress depth s t1 st =
  subBranch random recur2 directionAngle length progress depth s t1 st.
Proof.
  intro H. unfold subBranch. destruct (depth =? 0)%nat; [|reflexivity].
  apply bind_cong; [reflexivity|]. intros r st1.
  destruct (Qltb r 0.45 && (1 <? s)%nat); [|reflexivity].
  apply bind_cong; [reflexivity|]. intros ra st2.
  apply bind_cong; [reflexivity|]. intros rd st3.
  apply H.
Qed.

(** The segment body depends on the recursive call only through calls at
    depth [depth + 1]. *)
Lemma segment_ext (recur1 recur2 : Branch)
    (directionAngle dirX dirZ length droopFactor : Number) (depth s : nat)
    (t0 : Turtle) (st : Buffers) :
  (forall x y z a l d st0,
     recur1 x y z a l d (depth + 1)%nat st0 = recur2 x y z a l d (depth + 1)%nat st0) ->
  segment Color random colors recur1 directionAngle dirX dirZ length droopFactor depth s t0 st
  = segment Color random colors recur2 directionAngle dirX dirZ length droopFactor depth s t0 st.
Proof.
  intro H. unfold segment.
  apply bind_cong; [reflexivity|]. intros u st1.
  apply bind_cong; [apply subBranch_ext; exact H | reflexivity].
Qed.

(** At a depth other than 0 the result does not depend on the budget. *)
Lemma generateBranch_deeper_fuel (fuel : nat)
    (startX startY startZ directionAngle length droopFactor : Number) (depth : nat)
    (st : Buffers) :
  gb (S fuel) startX startY startZ directionAngle length droopFactor (S depth) st =
  gb 1 startX startY startZ directionAngle length droopFactor (S depth) st.
Proof.
  cbn [generateBranch]. unfold bind.
  rewrite (forN_ext _ (segment Color random colors (gb 0) directionAngle
                               (Math_cos directionAngle) (Math_sin directionAngle)
                               length droopFactor (S depth))); [reflexivity|].
  intros j s st0. reflexivity.
Qed.

(** At depth 0 a budget of two is as good as any larger one. *)
Lemma generateBranch_main_fuel (fuel : nat)
    (startX startY startZ directionAngle length droopFactor : Number) (st : Buffers) :
  gb (S (S fuel)) startX startY startZ directionAngle length droopFactor 0 st =
  gb 2 startX startY startZ directionAngle length droopFactor 0 st.
Proof.
  cbn [generateBranch]. unfold bind.
  rewrite (forN_ext _ (segment Color random colors (gb 1) directionAngle
                               (Math_cos directionAngle) (Math_sin directionAngle)
                               length droopFactor 0)); [reflexivity|].
  intros j s st0. apply segment_ext. intros. apply generateBranch_deeper_fuel.
Qed.

Lemma generate_fuel (fuel : nat) :
  generate Math_cos Math_sin Math_sqrt Math_PI Color Number_toString random colors
           (S (S fuel)) =
  generate Math_cos Math_sin Math_sqrt Math_PI Color Number_toString random colors 2.
Proof.
  unfold generate. apply forN_ext. intros j u st.
  apply bind_cong; [|reflexivity]. unfold mainBranch.
  apply bind_cong; [reflexivity|]. intros rv st1.
  apply bind_cong; [reflexivity|]. intros rl st2.
  apply generateBranch_main_fuel.
Qed.

Lemma useTreeData_fuel (fuel : nat) :
  useTreeData Math_cos Math_sin Math_sqrt Math_PI Color Number_toString random colors
              (S (S fuel)) =
  useTreeData Math_cos Math_sin Math_sqrt Math_PI Color Number_toString random colors 2.
Proof.
  unfold useTreeData. rewrite generate_fuel. reflexivity.
Qed.

End FuelFacts.

Section TreeClaims.

Import ChristmasTree TreeSpec TreeCoverage OrnamentSpec.
Open Scope list_scope.

Variable Math_cos Math_sin Math_sqrt : Number -> Number.
Variable Math_PI : Number.
Variable Color : string -> Number * Number * Number.
Variable Number_toString : Number -> string.
Variable random : nat -> Number.
Variable colors : list string.

Local Abbreviation gb :=
  (generateBranch Math_cos Math_sin Math_PI Color Number_toString random colors).
Local Abbreviation tree :=
  (useTreeData Math_cos Math_sin Math_sqrt Math_PI Color Number_toString).







(** C5, as the code has it.  With a random source in [0, 1) the tree always
    has exactly 140 decorations, and its point count is 140 x 15 x 20 plus
    15 x 8 for each spur, of which there are at most 13 on each of the 140
    main branches: the count lies between 42000 and 260400.  The point count
    does vary with the random source (42000 without spurs, 260400 with all of
    them) while the decoration count does not. *)
Theorem tree_size_bounds (fuel : nat) :
  inUnit random ->
  (exists td st',
     tree random colors (S (S fuel)) = Done td st' /\
     List.length (tree_decorations td) = 140%nat /\
     List.length (positions td) = (3 * pointCount td)%nat /\
     (exists k, (k <= 13 * 140)%nat /\
                pointCount td = (140 * (15 * 20) + k * (15 * 8))%nat) /\
     (140 * 15 * 20 <= pointCount td)%nat /\
     (pointCount td <= 140 * (15 * 20 + 13 * (15 * 8)))%nat) /\
  (exists r1 r2 td1 st1 td2 st2,
     inUnit r1 /\ inUnit r2 /\
     tree r1 colors (S (S fuel)) = Done td1 st1 /\
     tree r2 colors (S (S fuel)) = Done td2 st2 /\
     pointCount td1 = (140 * 15 * 20)%nat /\
     pointCount td2 = (140 * (15 * 20 + 13 * (15 * 8)))%nat /\
     List.length (tree_decorations td1) = List.length (tree_decorations td2)).
Proof.
  intro Hin. split.
  - pose proof (useTreeData_spec Math_cos Math_sin Math_sqrt Math_PI Color Number_toString
                  random colors False (or_intror Hin) fuel) as H.
    destruct (tree random colors (S (S fuel))) as [td st'| |]; try contradiction.
    destruct H as (k & Hp & Hpos & _ & Hlen & (Hk & _) & _).
    exists td, st'. split; [reflexivity|]. split; [exact Hlen|]. split; [exact Hpos|].
    split; [exists k; split; [exact Hk | rewrite Hp; lia]|].
    rewrite Hp. split; lia.
  - set (r1 := fun _ : nat => 0.5). set (r2 := fun _ : nat => 0 : Number).
    assert (H1 : inUnit r1) by (intro n; unfold r1; split; lra).
    assert (H2 : inUnit r2) by (intro n; unfold r2; split; lra).
    pose proof (useTreeData_spec Math_cos Math_sin Math_sqrt Math_PI Color Number_toString
                  r1 colors False (or_intror H1) fuel) as K1.
    pose proof (useTreeData_spec Math_cos Math_sin Math_sqrt Math_PI Color Number_toString
                  r2 colors False (or_intror H2) fuel) as K2.
    destruct (tree r1 colors (S (S fuel))) as [td1 st1| |] eqn:R1; try contradiction.
    destruct (tree r2 colors (S (S fuel))) as [td2 st2| |] eqn:R2; try contradiction.
    destruct K1 as (k1 & Hp1 & _ & _ & Hlen1 & (_ & _ & Hnone) & _).
    destruct K2 as (k2 & Hp2 & _ & _ & Hlen2 & (_ & Hall & _) & _).
    exists r1, r2, td1, st1, td2, st2.
    split; [exact H1|]. split; [exact H2|].
    split; [exact R1|]. split; [exact R2|].
    assert (E1 : k1 = 0%nat) by (apply Hnone; intro n; unfold r1; lra).
    assert (E2 : k2 = (13 * 140)%nat) by (apply Hall; intro n; unfold r2; lra).
    split; [rewrite Hp1, E1; lia|].
    split; [rewrite Hp2, E2; lia|].
    rewrite Hlen1, Hlen2. reflexivity.
Qed.

(** C6.  The sub-branching block calls the generator again exactly when the
    depth is 0, the draw is below 0.45 and the segment index is above 1, and
    then at depth 1; at any other depth it does nothing and draws nothing.  So
    a call at a depth other than 0 runs within a budget of one (it makes no
    recursive call), a call at depth 0 within a budget of two, and the whole
    generator ends, for every palette and every random source, with the same
    result for every larger budget. *)
Theorem spurs_only_from_main_branches
    (fuel : nat) (startX startY startZ directionAngle length droopFactor : Number)
    (st : Buffers) :
  (forall recur progress depth s t1,
     subBranch random recur directionAngle length progress (S depth) s t1 st = Done tt st) /\
  (forall recur progress s t1,
     let drawn n := {| points := points st; pointColors := pointColors st;
                       decorations := decorations st; draws := draws st + n |} in
     subBranch random recur directionAngle length progress 0 s t1 st =
     if Qltb (random (draws st)) 0.45 && (1 <? s)%nat
     then recur (currentX t1) (currentY t1) (currentZ t1)
                (directionAngle + (random (draws st + 1) - 0.5) * 2.5)
                (length * 0.4 * (1 - progress))
                (if Qgtb (random (draws st + 2)) 0.4 then -0.2 else 0.3)
                1%nat (drawn 3%nat)
     else Done tt (drawn 1%nat)) /\
  (forall depth,
     gb (S fuel) startX startY startZ directionAngle length droopFactor (S depth) st =
     gb 1 startX startY startZ directionAngle length droopFactor (S depth) st /\
     gb 1 startX startY startZ directionAngle length droopFactor (S depth) st <> OutOfFuel) /\
  (gb (S (S fuel)) startX startY startZ directionAngle length droopFactor 0 st =
   gb 2 startX startY startZ directionAngle length droopFactor 0 st /\
   gb 2 startX startY startZ directionAngle length droopFactor 0 st <> OutOfFuel) /\
  (tree random colors (S (S fuel)) = tree random colors 2 /\
   tree random colors 2 <> OutOfFuel).
Proof.
  assert (Hr : True \/ inUnit random) by (left; exact I).
  split; [|split; [|split; [|split]]].
  - intros. reflexivity.
  - intros recur progress s t1 drawn. unfold subBranch. cbn [Nat.eqb].
    unfold bind at 1, Math_random at 1. cbv beta iota.
    destruct (Qltb (random (draws st)) 0.45 && (1 <? s)%nat).
    + unfold bind, Math_random. cbn [draws points pointColors decorations].
      unfold drawn. rewrite !Nat.add_succ_r, !Nat.add_0_r. reflexivity.
    + unfold ret, drawn. rewrite Nat.add_succ_r, Nat.add_0_r. reflexivity.
  - intro depth. split; [apply generateBranch_deeper_fuel|].
    eapply post_terminates.
    exact (generateBranch_deeper Math_cos Math_sin Math_PI Color Number_toString
             random colors True Hr 0 startX startY startZ directionAngle
             length droopFactor depth st).
  - split; [apply generateBranch_main_fuel|].
    eapply post_terminates.
    exact (generateBranch_main Math_cos Math_sin Math_PI Color Number_toString
             random colors True Hr 0 startX startY startZ directionAngle
             length droopFactor st).
  - split; [apply useTreeData_fuel|].
    pose proof (useTreeData_spec Math_cos Math_sin Math_sqrt Math_PI Color Number_toString
                  random colors True Hr 0) as H.
    destruct (tree random colors 2); [discriminate | discriminate | contradiction].
Qed.

End TreeClaims.

(** ** The theorems at concrete inputs *)

Section Instances.

Import Examples.
Import ChristmasTree TreeSpec TreeCoverage OrnamentSpec.
Open Scope list_scope.

Lemma alwaysHalf_inUnit : inUnit alwaysHalf.
Proof. intro n. unfold alwaysHalf. split; lra. Qed.

Lemma alwaysZero_inUnit : inUnit alwaysZero.
Proof. intro n. unfold alwaysZero. split; lra. Qed.


(** C1 at three frames from the TREE phase. *)
Lemma tree_phase_is_terminal_witness :
  phase (SceneContainer.runFrames threeFrames (App.setPhase TREE App.initialState)) = TREE /\
  Forall (fun p => p = TREE)
         (SceneContainer.phaseTrace threeFrames (App.setPhase TREE App.initialState)).
Proof.
  apply (tree_phase_is_terminal threeFrames (App.setPhase TREE App.initialState)).
  reflexivity.
Defined.


(** The thresholds are those of the doubles.  Fingertips at 0.35 - 0.2 from
    the wrist have a computed mean just below the double 0.15 and give FIST
    (in exact arithmetic the mean is 0.15 and the gesture would be NONE);
    fingertips at the double 0.15 from the wrist have exactly that mean and
    give NONE. *)
Lemma gesture_at_the_lower_threshold :
  HandTracker64.gestureOf
    (HandTracker64.meanTipDistance Double.sqrt hostSquare shiftedHand64) = FIST /\
  HandTracker64.meanTipDistance Double.sqrt hostSquare edgeHand64 = Double.literal 15 100 /\
  HandTracker64.gestureOf
    (HandTracker64.meanTipDistance Double.sqrt hostSquare edgeHand64) = NONE.
Proof. vm_compute. repeat split. Qed.

(** C10 at a result with an empty list of hands. *)
Lemma no_hand_keeps_position_witness :
  exists hd',
    HandTracker.onResults hostIdentity (HandTracker.mkResults (Some []))
      (Some {| rawX := 0.25; rawY := 0.75; gesture := OPEN; isTracking := true |})
      = Some (Some hd') /\
    isTracking hd' = false /\ gesture hd' = NONE /\
    rawX hd' = 0.25 /\ rawY hd' = 0.75.
Proof.
  apply (no_hand_keeps_position hostIdentity (HandTracker.mkResults (Some []))
           {| rawX := 0.25; rawY := 0.75; gesture := OPEN; isTracking := true |}).
  exact I.
Defined.

(** C9 at the colour #00F0FF and base 150. *)
Lemma hexToFreq_witness :
  Tone.hexToFreq "#00F0FF" (Double.toNumber 150)
    = Double.add (Double.toNumber 150)
        (Double.rem (Double.toNumber (Tone.hexValue "00F0FF")) (Double.toNumber 300)) /\
  Tone.hexToFreq "00F0FF" (Double.toNumber 150)
    = Tone.hexToFreq "#00F0FF" (Double.toNumber 150) /\
  ((Tone.hexValue "00F0FF" < 2 ^ 53)%Z ->
   Tone.hexToFreq "#00F0FF" (Double.toNumber 150)
     = Double.add (Double.toNumber 150)
         (Double.toNumber (Tone.hexValue "00F0FF" mod 300))) /\
  Tone.hexToFreq "#00F0FF" (Double.toNumber 150) = Double.toNumber 345.
Proof.
  apply (hexToFreq_is_base_plus_value_mod_300 "00F0FF" (Double.toNumber 150)).
  - reflexivity.
  - discriminate.
Defined.

(** Against C9 as stated.  The digits 20000000000001 have the value
    2^53 + 1, which is 93 modulo 300; the Number value [parseInt] returns
    for them is 2^53, which is 92 modulo 300.  At base 150 the frequency is
    242 where the integer value modulo 300 would give 243. *)
Lemma hexToFreq_rounds_a_long_value :
  Tone.allHexDigits "20000000000001" = true /\
  (Tone.hexValue "20000000000001" mod 300 = 93)%Z /\
  Double.add (Double.toNumber 150)
             (Double.toNumber (Tone.hexValue "20000000000001" mod 300))
    = Double.toNumber 243 /\
  Tone.hexToFreq "#20000000000001" (Double.toNumber 150) = Double.toNumber 242 /\
  Double.same (Double.toNumber 242) (Double.toNumber 243) = false.
Proof. vm_compute. repeat split. Qed.

(** C8 at a service that is down. *)
Lemma theme_fallback_witness :
  ThemeService.generateTheme serviceDown parseNothing "aurora"
    = ThemeService.Resolved ThemeService.fallback /\
  ThemeService.getField "colors" ThemeService.fallback =
    Some (ThemeService.JArray
            [ThemeService.JString "#FF0000"; ThemeService.JString "#00FF00";
             ThemeService.JString "#FFD700"; ThemeService.JString "#FFFFFF";
             ThemeService.JString "#0000FF"]) /\
  ThemeService.getField "greeting" ThemeService.fallback =
    Some (ThemeService.JString "Happy Holidays! (System Rebooting... Energy restored)").
Proof.
  destruct (theme_fallback_on_failure serviceDown parseNothing "aurora")
    as (_ & H & _ & Hc & Hg).
  split; [apply H; left; reflexivity|]. split; assumption.
Defined.

(** Against C8 as stated.  A response whose text is [null] is no theme,
    yet it is JSON: it is returned as parsed, and it is not the fallback (it
    has neither colours nor a greeting). *)
Lemma wrong_shape_is_returned :
  ThemeService.generateTheme serviceNull parseNull "aurora"
    = ThemeService.Resolved ThemeService.JNull /\
  ThemeService.getField "colors" ThemeService.JNull = None /\
  ThemeService.getField "greeting" ThemeService.JNull = None /\
  ThemeService.cleanUp "null" = "null"%string /\
  ThemeService.JNull <> ThemeService.fallback.
Proof. repeat split. discriminate. Qed.

(** White space beyond ASCII is white space: [parseInt] skips a no-break
    space, so the digits FF after one give 255 and the frequency 405 at base
    150; [trim] takes a no-break space, a line separator and a byte order
    mark, so the text between them is what is parsed. *)
Lemma white_space_beyond_ascii :
  Tone.hexToFreq spacedDigits (Double.toNumber 150) = Double.toNumber 405 /\
  ThemeService.cleanUp spacedObject = "{}"%string /\
  ThemeService.cleanUp ("```json" ++ spacedObject ++ "```") = "{}"%string.
Proof. vm_compute. repeat split. Qed.

Local Abbreviation exampleBranch :=
  (generateBranch hostZero hostZero 3 hostWhite hostPrint).
Local Abbreviation exampleTree :=
  (useTreeData hostZero hostZero hostZero 3 hostWhite hostPrint).


(** C5 (as the code has it) at the default palette and a constant source. *)
Lemma tree_size_bounds_witness :
  (exists td st',
     exampleTree alwaysHalf (colors App.initialState) 2 = Done td st' /\
     List.length (tree_decorations td) = 140%nat /\
     List.length (positions td) = (3 * pointCount td)%nat /\
     (exists k, (k <= 13 * 140)%nat /\
                pointCount td = (140 * (15 * 20) + k * (15 * 8))%nat) /\
     (140 * 15 * 20 <= pointCount td)%nat /\
     (pointCount td <= 140 * (15 * 20 + 13 * (15 * 8)))%nat) /\
  (exists r1 r2 td1 st1 td2 st2,
     inUnit r1 /\ inUnit r2 /\
     exampleTree r1 (colors App.initialState) 2 = Done td1 st1 /\
     exampleTree r2 (colors App.initialState) 2 = Done td2 st2 /\
     pointCount td1 = (140 * 15 * 20)%nat /\
     pointCount td2 = (140 * (15 * 20 + 13 * (15 * 8)))%nat /\
     List.length (tree_decorations td1) = List.length (tree_decorations td2)).
Proof.
  apply (tree_size_bounds hostZero hostZero hostZero 3 hostWhite hostPrint
           alwaysHalf (colors App.initialState) 0).
  intro n. unfold alwaysHalf. split; lra.
Defined.

(** Against C5 as stated: with every draw 0 each main branch spawns all its
    thirteen spurs and the cloud has 140 x 1860 = 260400 points, above
    140 x 15 x 20 = 42000; and the decoration count is 140 for every palette
    and every random source in [0, 1), so it does not vary between calls. *)
Lemma tree_size_exceeds_stated_bound :
  (exists td st',
     exampleTree alwaysZero (colors App.initialState) 2 = Done td st' /\
     pointCount td = (140 * 1860)%nat /\
     (140 * 15 * 20 < pointCount td)%nat) /\
  (forall (random : nat -> Number) (palette : list string),
     inUnit random ->
     exists td st',
       exampleTree random palette 2 = Done td st' /\
       List.length (tree_decorations td) = 140%nat).
Proof.
  split.
  - pose proof (useTreeData_spec hostZero hostZero hostZero 3 hostWhite hostPrint
                  alwaysZero (colors App.initialState) False
                  (or_intror alwaysZero_inUnit) 0) as H.
    destruct (exampleTree alwaysZero (colors App.initialState) 2) as [td st'| |];
      try contradiction.
    destruct H as (k & Hp & _ & _ & _ & (_ & Hall & _) & _).
    assert (E : k = (13 * 140)%nat)
      by (apply Hall; intro n; unfold alwaysZero; lra).
    exists td, st'. split; [reflexivity|].
    rewrite Hp, E. split; lia.
  - intros random palette Hin.
    pose proof (useTreeData_spec hostZero hostZero hostZero 3 hostWhite hostPrint
                  random palette False (or_intror Hin) 0) as H.
    destruct (exampleTree random palette 2) as [td st'| |]; try contradiction.
    destruct H as (k & _ & _ & _ & Hlen & _).
    exists td, st'. split; [reflexivity | exact Hlen].
Qed.


End Instances.

(** * Further properties *)

(** ** The phase machine and the shared hand record *)

Section PhaseCoverage.

Import SceneContainer Coverage.
Open Scope list_scope.

(** A frame enters TREE only from GATHER, on a FIST found in the ref. *)
Lemma frame_enters_TREE (mouse : Mouse) (current : Ref HandData) (st : AppState) :
  phase st <> TREE -> phase (snd (frame mouse current st)) = TREE ->
  phase st = GATHER /\ exists hd, current = Some hd /\ gesture hd = FIST.
Proof.
  intros Hne H. rewrite frame_phase in H.
  destruct current as [hd|]; [|contradiction].
  unfold phaseStep, phaseLogic in H.
  destruct (phase st) eqn:Eph, (gesture hd) eqn:Eg; try discriminate; try contradiction.
  split; [reflexivity|]. exists hd. split; [reflexivity | exact Eg].
Qed.

Lemma runFrames_app (before after : list FrameInput) (st : AppState) :
  runFrames (before ++ after) st = runFrames after (runFrames before st).
Proof.
  revert st. induction before as [|[mouse current] rest IH]; intro st; [reflexivity|].
  cbn [app runFrames]. apply IH.
Qed.

(** X1.  A run of frames that starts outside TREE and ends in TREE contains
    a frame that found a FIST in the hand ref while the phase was GATHER: the
    tree never appears straight from SNOW, nor on any other gesture. *)
Theorem tree_only_through_gather (inputs : list FrameInput) (st : AppState) :
  phase st <> TREE -> phase (runFrames inputs st) = TREE ->
  exists before mouse hd after,
    inputs = before ++ (mouse, Some hd) :: after /\
    phase (runFrames before st) = GATHER /\
    gesture hd = FIST /\
    phase (runFrames (before ++ [(mouse, Some hd)]) st) = TREE.
Proof.
  revert st. induction inputs as [|[mouse current] rest IH]; intros st Hne Hend.
  - cbn [runFrames] in Hend. contradiction.
  - cbn [runFrames] in Hend.
    destruct (AppPhase_eq_dec (phase (snd (frame mouse current st))) TREE) as [E | N].
    + destruct (frame_enters_TREE mouse current st Hne E) as [Hg [hd [-> Hf]]].
      exists [], mouse, hd, rest. repeat split; assumption.
    + destruct (IH _ N Hend) as (before & m & hd & after & -> & Hg & Hf & Ht).
      exists ((mouse, current) :: before), m, hd, after. repeat split; assumption.
Qed.

(** X2.  However many frames run, the phase logic changes nothing of the
    application state but the phase: palette, greeting, theme name, mood and
    the music flag stay as they were. *)
Theorem frames_change_only_the_phase (inputs : list FrameInput) (st : AppState) :
  let st' := runFrames inputs st in
  colors st' = colors st /\ greeting st' = greeting st /\ loading st' = loading st /\
  themeName st' = themeName st /\ musicMood st' = musicMood st /\
  isPlayingMusic st' = isPlayingMusic st.
Proof.
  cbv zeta. revert st. induction inputs as [|[mouse current] rest IH]; intro st.
  - repeat split.
  - cbn [runFrames].
    destruct (IH (snd (frame mouse current st))) as (H1 & H2 & H3 & H4 & H5 & H6).
    rewrite H1, H2, H3, H4, H5, H6.
    unfold frame, useFrame. destruct current as [hd|]; cbn [snd]; [|repeat split].
    destruct (phaseLogic (phase st) (gesture (mouseFallback mouse hd))); repeat split.
Qed.

End PhaseCoverage.

Section TrackerCoverage.

Import HandTracker SceneContainer Coverage.
Open Scope list_scope.

Variable Math_sqrt : Number -> Number.

(** With 21 landmarks, the exact sum the loop leaves. *)
Lemma avgDist_value (landmarks : list Landmark) :
  List.length landmarks = 21%nat ->
  let d := mkLandmark 0 0 in
  let w := nth 0 landmarks d in
  avgDist Math_sqrt landmarks =
  Some ((0 + euclid Math_sqrt (nth 8 landmarks d) w
           + euclid Math_sqrt (nth 12 landmarks d) w
           + euclid Math_sqrt (nth 16 landmarks d) w
           + euclid Math_sqrt (nth 20 landmarks d) w) / 4).
Proof.
  intros H d w. unfold avgDist, tips.
  rewrite (nth_error_nth_default landmarks 0 d) by lia.
  cbn [fold_left].
  rewrite !(addTipDistance_some Math_sqrt _ _ _ _ d) by lia.
  reflexivity.
Qed.

Lemma onResults_hand (landmarks : list Landmark) (others : list (list Landmark))
    (hd : HandData) :
  List.length landmarks = 21%nat ->
  exists g,
    onResults Math_sqrt (mkResults (Some (landmarks :: others))) (Some hd) =
    Some (Some {| rawX := 1 - lx (nth 8 landmarks (mkLandmark 0 0));
                  rawY := ly (nth 8 landmarks (mkLandmark 0 0));
                  gesture := g;
                  isTracking := true |}).
Proof.
  intro H. unfold onResults. cbn [multiHandLandmarks].
  rewrite (nth_error_nth_default landmarks 8 (mkLandmark 0 0)) by lia.
  rewrite (avgDist_value landmarks H). eexists. reflexivity.
Qed.

(** X3.  The two writers of the hand record take turns.  After a result
    with a hand the record is marked as tracked and the next frame leaves it
    exactly as the tracker wrote it; after a result without a hand the position
    survives the callback, but the next frame overwrites it with the pointer
    position [(mouse + 1) / 2]. *)
Theorem tracker_and_pointer_take_turns
    (landmarks : list Landmark) (others : list (list Landmark)) (results : Results)
    (hd : HandData) (mouse : Mouse) (ph : AppPhase) :
  List.length landmarks = 21%nat -> noHand results ->
  (exists hd1,
     onResults Math_sqrt (mkResults (Some (landmarks :: others))) (Some hd)
       = Some (Some hd1) /\
     isTracking hd1 = true /\
     fst (useFrame mouse ph (Some hd1)) = Some hd1) /\
  (exists hd2,
     onResults Math_sqrt results (Some hd) = Some (Some hd2) /\
     rawX hd2 = rawX hd /\ rawY hd2 = rawY hd /\
     fst (useFrame mouse ph (Some hd2)) =
       Some {| rawX := (mouse_x mouse + 1) / 2;
               rawY := (mouse_y mouse + 1) / 2;
               gesture := NONE;
               isTracking := false |}).
Proof.
  intros Hlen Hno. split.
  - destruct (onResults_hand landmarks others hd Hlen) as [g Hg].
    eexists. split; [exact Hg|]. split; reflexivity.
  - unfold noHand in Hno. unfold onResults.
    destruct (multiHandLandmarks results) as [[|l rest]|]; try contradiction;
      eexists; (split; [reflexivity|]); repeat split.
Qed.

(** X4.  The coordinates of the hand record stay between 0 and 1: the
    tracker writes them from a landmark in normalized image coordinates, the
    frame loop from a pointer between -1 and 1, and neither writes anything
    else. *)
Theorem hand_record_stays_in_frame
    (results : Results) (mouse : Mouse) (ph : AppPhase) (hd hd' hd'' : HandData) :
  inFrame hd ->
  (forall landmarks others, multiHandLandmarks results = Some (landmarks :: others) ->
                            Forall normalized landmarks) ->
  pointerInRange mouse ->
  onResults Math_sqrt results (Some hd) = Some (Some hd') ->
  fst (useFrame mouse ph (Some hd')) = Some hd'' ->
  inFrame hd' /\ inFrame hd''.
Proof.
  intros Hin Hnorm Hm Hres Hfr.
  assert (H' : inFrame hd').
  { unfold onResults in Hres.
    destruct (multiHandLandmarks results) as [[|landmarks others]|] eqn:E.
    - inversion Hres; subst. exact Hin.
    - specialize (Hnorm landmarks others eq_refl).
      destruct (nth_error landmarks 8) as [tip|] eqn:E8; [|discriminate].
      destruct (avgDist Math_sqrt landmarks); [|discriminate].
      inversion Hres; subst.
      apply nth_error_In in E8.
      rewrite Forall_forall in Hnorm. destruct (Hnorm tip E8) as (A & B & C & D).
      unfold inFrame. cbn [rawX rawY]. repeat split; lra.
    - inversion Hres; subst. exact Hin. }
  split; [exact H'|].
  unfold useFrame in Hfr. cbn [fst] in Hfr. inversion Hfr; subst.
  unfold mouseFallback. destruct (isTracking hd'); [exact H'|].
  destruct Hm as (A & B & C & D).
  unfold inFrame. cbn [rawX rawY]. repeat split.
  - apply Qle_shift_div_l; lra.
  - apply Qle_shift_div_r; lra.
  - apply Qle_shift_div_l; lra.
  - apply Qle_shift_div_r; lra.
Qed.

(** X5.  With fewer than 21 landmarks for the hand the callback reads a
    missing landmark and throws before it writes anything, whatever was in the
    ref. *)
Theorem short_landmark_list_throws
    (landmarks : list Landmark) (others : list (list Landmark)) (current : Ref HandData) :
  (List.length landmarks < 21)%nat ->
  onResults Math_sqrt (mkResults (Some (landmarks :: others))) current = None.
Proof.
  intro H. unfold onResults. cbn [multiHandLandmarks].
  assert (Havg : avgDist Math_sqrt landmarks = None).
  { unfold avgDist, tips.
    destruct (nth_error landmarks 0) as [wrist|]; [|reflexivity].
    cbn [fold_left].
    assert (E20 : nth_error landmarks 20 = None) by (apply nth_error_None; lia).
    destruct (fold_left (addTipDistance Math_sqrt landmarks wrist) [8; 12; 16]%nat (Some 0))
      as [total|] eqn:F.
    - cbn [fold_left] in F. rewrite F. unfold addTipDistance at 1. rewrite E20. reflexivity.
    - cbn [fold_left] in F. rewrite F. reflexivity. }
  rewrite Havg. destruct (nth_error landmarks 8); reflexivity.
Qed.

(** X6.  The gesture and the written record depend on five landmarks only:
    the wrist (0) and the four fingertips (8, 12, 16, 20).  Two hands of 21
    landmarks that agree there give the same record, whatever the thumb and
    the other joints do. *)
Theorem gesture_reads_five_landmarks
    (hand1 hand2 : list Landmark) (others1 others2 : list (list Landmark))
    (current : Ref HandData) :
  List.length hand1 = 21%nat -> List.length hand2 = 21%nat ->
  (forall i, In i [0; 8; 12; 16; 20]%nat ->
             nth i hand1 (mkLandmark 0 0) = nth i hand2 (mkLandmark 0 0)) ->
  onResults Math_sqrt (mkResults (Some (hand1 :: others1))) current =
  onResults Math_sqrt (mkResults (Some (hand2 :: others2))) current.
Proof.
  intros H1 H2 Hsame. unfold onResults. cbn [multiHandLandmarks].
  rewrite (nth_error_nth_default hand1 8 (mkLandmark 0 0)) by lia.
  rewrite (nth_error_nth_default hand2 8 (mkLandmark 0 0)) by lia.
  rewrite (avgDist_value hand1 H1), (avgDist_value hand2 H2). cbv zeta.
  rewrite (Hsame 0%nat), (Hsame 8%nat), (Hsame 12%nat), (Hsame 16%nat), (Hsame 20%nat)
    by (cbn [In]; tauto).
  reflexivity.
Qed.

End TrackerCoverage.

(** ** The tone mapping and the drone *)

Section ToneCoverage.

Import Double Tone Coverage.
Open Scope Z_scope.

Lemma isHexColor_digits (s : string) :
  isHexColor s = true ->
  exists digits, s = String "#" digits /\ allHexDigits digits = true /\
                 digits <> EmptyString /\ (String.length digits <= 13)%nat.
Proof.
  destruct s as [|c digits]; [discriminate|]. cbn [isHexColor].
  rewrite !andb_true_iff, negb_true_iff, Ascii.eqb_eq, String.eqb_neq, Nat.leb_le.
  intros [[[-> H] Hne] Hlen]. exists digits. repeat split; assumption.
Qed.

(** The three bases of [updateAudioDrone] with every offset below 300: the
    sums are exact. *)
Lemma slot_sums :
  forallb
    (fun k =>
       forallb
         (fun r =>
            same (add (add (toNumber 150) (mul (toNumber (Z.of_nat k)) (toNumber 100)))
                      (toNumber (Z.of_nat r)))
                 (toNumber (150 + 100 * Z.of_nat k + Z.of_nat r)))
         (seq 0 300))
    (seq 0 3) = true.
Proof. vm_compute. reflexivity. Qed.

Lemma slot_sum (k : nat) (r : Z) :
  (k < 3)%nat -> 0 <= r < 300 ->
  add (add (toNumber 150) (mul (toNumber (Z.of_nat k)) (toNumber 100))) (toNumber r)
  = toNumber (150 + 100 * Z.of_nat k + r).
Proof.
  intros Hk Hr. pose proof slot_sums as T.
  rewrite forallb_forall in T.
  specialize (T k ltac:(apply in_seq; lia)).
  rewrite forallb_forall in T.
  specialize (T (Z.to_nat r) ltac:(apply in_seq; lia)).
  rewrite Z2Nat.id in T by lia. apply same_eq. exact T.
Qed.

(** The frequency of a hexadecimal colour in slot [k]. *)
Lemma slotFreq_value (digits : string) (k : nat) :
  allHexDigits digits = true -> digits <> EmptyString ->
  (String.length digits <= 13)%nat -> (k < 3)%nat ->
  slotFreq (String "#" digits) k
  = toNumber (150 + 100 * Z.of_nat k + hexValue digits mod 300).
Proof.
  intros H Hne Hlen Hk. unfold slotFreq.
  assert (Hv : hexValue digits < 2 ^ 53).
  { pose proof (hexValue_bound digits H) as B.
    assert (16 ^ Z.of_nat (String.length digits) <= 16 ^ 13)
      by (apply Z.pow_le_mono_r; lia).
    change (16 ^ 13) with 4503599627370496 in *.
    change (2 ^ 53) with 9007199254740992. lia. }
  rewrite (hexToFreq_digits digits _ H Hne).
  rewrite rem_300 by (split; [apply hexValue_nonneg | exact Hv]).
  apply slot_sum; [exact Hk|]. apply Z.mod_pos_bound. lia.
Qed.

Lemma slotsFrom_length (i : nat) (colors : list string) :
  List.length (slotsFrom i colors) = List.length colors.
Proof.
  revert i. induction colors as [|c rest IH]; intro i; cbn [slotsFrom List.length];
    [reflexivity | rewrite IH; reflexivity].
Qed.

Lemma slotsFrom_nth (colors : list string) :
  forall i k color,
    nth_error colors k = Some color ->
    nth_error (slotsFrom i colors) k = Some (slotFreq color (i + k)).
Proof.
  induction colors as [|c rest IH]; intros i k color H.
  - destruct k; discriminate H.
  - destruct k as [|k]; cbn [slotsFrom nth_error] in *.
    + inversion H; subst. rewrite Nat.add_0_r. reflexivity.
    + rewrite (IH (S i) k color H). f_equal. f_equal. lia.
Qed.

(** X7.  For a palette of hexadecimal colours (of up to thirteen digits) the
    drone gets one tone for each of the first three colours and no more, and
    the tone of slot [k] is the double of an integer between [150 + 100 k] and
    [449 + 100 k]: 150 plus 100 for each slot before it plus the value of the
    colour modulo 300.  So every oscillator frequency is a whole number
    between 150 and 649. *)
Theorem drone_frequencies_in_range (colors : list string) :
  Forall (fun c => isHexColor c = true) colors ->
  List.length (droneFrequencies colors) = Nat.min 3 (List.length colors) /\
  forall k tone,
    nth_error (droneFrequencies colors) k = Some tone ->
    exists f : Z,
      tone = toNumber f /\
      150 + 100 * Z.of_nat k <= f <= 449 + 100 * Z.of_nat k /\
      150 <= f <= 649.
Proof.
  intro Hhex. unfold droneFrequencies. split.
  - rewrite slotsFrom_length. apply length_firstn.
  - intros k tone Hk.
    assert (Hlt : (k < List.length (firstn 3 colors))%nat).
    { rewrite <- (slotsFrom_length 0). apply nth_error_Some. congruence. }
    assert (Hk3 : (k < 3)%nat).
    { rewrite length_firstn in Hlt. lia. }
    destruct (nth_error (firstn 3 colors) k) as [color|] eqn:Ec;
      [|apply nth_error_None in Ec; lia].
    rewrite (slotsFrom_nth _ 0 k color Ec) in Hk. inversion Hk; subst tone.
    assert (Hc : isHexColor color = true).
    { apply nth_error_In in Ec.
      rewrite Forall_forall in Hhex. apply Hhex.
      rewrite <- (firstn_skipn 3 colors). apply in_or_app. left. exact Ec. }
    destruct (isHexColor_digits color Hc) as (digits & -> & Hd & Hne & Hlen).
    cbn [Nat.add]. rewrite (slotFreq_value digits k Hd Hne Hlen Hk3).
    pose proof (Z.mod_pos_bound (hexValue digits) 300 ltac:(lia)) as Hm.
    eexists. split; [reflexivity|]. lia.
Qed.

Lemma parseDigits_stops (digits rest : string) (c : ascii) (acc : Z) (seen : bool) :
  allHexDigits digits = true -> hexDigit c = None ->
  parseDigits (digits ++ String c rest) acc seen = parseDigits digits acc seen.
Proof.
  intros H Hc. revert acc seen.
  induction digits as [|d ds IH]; intros acc seen.
  - cbn [append parseDigits]. rewrite Hc. reflexivity.
  - cbn [append parseDigits allHexDigits] in H |- *.
    destruct (hexDigit d); [apply IH; exact H | discriminate].
Qed.

(** X8.  [parseInt] reads the longest prefix of digits and drops the rest
    without complaint: a colour followed by anything that starts with a
    character that is no hexadecimal digit has the frequency of the colour
    alone.  The one exception is excluded: a lone [0] followed by [x] or [X]
    is read as a prefix. *)
Theorem hexToFreq_ignores_what_follows
    (digits rest : string) (c : ascii) (base : double) :
  allHexDigits digits = true -> digits <> EmptyString ->
  hexDigit c = None ->
  (digits = "0"%string -> c <> "x"%char /\ c <> "X"%char) ->
  hexToFreq (String "#" (digits ++ String c rest)) base =
  hexToFreq (String "#" digits) base.
Proof.
  intros H Hne Hc H0x.
  unfold hexToFreq. cbn [removeFirstHash].
  change (Ascii.eqb "#" "#") with true. cbv iota.
  f_equal. f_equal.
  unfold parseInt16. rewrite (mathInt16_digits _ H Hne).
  destruct digits as [|d ds]; [congruence|].
  pose proof H as Hd. cbn [allHexDigits] in Hd.
  destruct (hexDigit d) as [v|] eqn:Ev; [|discriminate].
  destruct (hexDigit_facts _ _ Ev) as (_ & Hw & Hm & Hp & _ & _ & _ & Ha).
  unfold mathInt16. cbn [append]. rewrite (trimStart_ascii d _ Ha Hw), Hm, Hp.
  assert (Hs3 : match String d (ds ++ String c rest) with
                | String c1 (String c2 rest0) =>
                    if Ascii.eqb c1 "0" && (Ascii.eqb c2 "x" || Ascii.eqb c2 "X")
                    then rest0 else String d (ds ++ String c rest)
                | _ => String d (ds ++ String c rest)
                end = String d (ds ++ String c rest)).
  { destruct ds as [|d2 ds2]; cbn [append].
    - destruct (Ascii.eqb_spec d "0") as [->|Nd]; [|reflexivity].
      destruct (H0x eq_refl) as [Nx NX].
      apply Ascii.eqb_neq in Nx. apply Ascii.eqb_neq in NX.
      rewrite Nx, NX. reflexivity.
    - cbn [allHexDigits] in Hd.
      destruct (hexDigit d2) as [v2|] eqn:Ev2; [|discriminate].
      destruct (hexDigit_facts _ _ Ev2) as (_ & _ & _ & _ & Hx & HX & _).
      rewrite Hx, HX, andb_false_r. reflexivity. }
  rewrite Hs3.
  change (String d (ds ++ String c rest)) with ((String d ds) ++ String c rest)%string.
  rewrite (parseDigits_stops _ _ _ _ _ H Hc), (parseDigits_all _ _ _ H).
  cbv iota.
  replace (0 * 16 ^ Z.of_nat (String.length (String d ds)) + hexValue (String d ds))
    with (hexValue (String d ds)) by lia.
  reflexivity.
Qed.

(** X9.  A string that, once its first [#] is removed, is empty or starts
    with something that is neither white space (of one byte or more: trimming
    the start leaves the text as it is), a sign nor a hexadecimal digit has no
    frequency: [hexToFreq] returns NaN for it, for every base (a colour name
    such as [red], a lone [#]). *)
Theorem hexToFreq_without_digits_is_NaN (hex : string) (base : double) :
  match removeFirstHash hex with
  | EmptyString => True
  | String c rest =>
      hexDigit c = None /\ trimStart (String c rest) = String c rest /\
      c <> "-"%char /\ c <> "+"%char
  end ->
  hexToFreq hex base = NaN.
Proof.
  unfold hexToFreq.
  assert (N : forall b, add b (rem NaN (toNumber 300)) = NaN)
    by (intro b; destruct b as [s|s| |s m e]; reflexivity).
  destruct (removeFirstHash hex) as [|c rest].
  - intros _. apply N.
  - intros (Hd & Hw & Hm & Hp).
    apply Ascii.eqb_neq in Hm. apply Ascii.eqb_neq in Hp.
    unfold parseInt16, mathInt16. rewrite Hw, Hm, Hp.
    assert (Hs3 : exists rest', match String c rest with
                  | String c1 (String c2 rest0) =>
                      if Ascii.eqb c1 "0" && (Ascii.eqb c2 "x" || Ascii.eqb c2 "X")
                      then rest0 else String c rest
                  | _ => String c rest
                  end = String c rest').
    { destruct rest as [|c2 rest2]; [exists EmptyString; reflexivity|].
      destruct (Ascii.eqb_spec c "0") as [->|Nc]; [discriminate Hd|].
      exists (String c2 rest2). reflexivity. }
    destruct Hs3 as [rest' ->]. cbn [parseDigits]. rewrite Hd. apply N.
Qed.

End ToneCoverage.

(** ** The tree generator: invariants of its buffers *)

Section GeneratorInvariant.

Import ChristmasTree TreeSpec TreeCoverage.
Open Scope list_scope.

Variable Math_cos Math_sin Math_sqrt : Number -> Number.
Variable Math_PI : Number.
Variable Color : string -> Number * Number * Number.
Variable Number_toString : Number -> string.
Variable random : nat -> Number.
Variable colors : list string.

Hypothesis Hin : inUnit random.

(** A property of the buffers that each of the three writers keeps: a draw,
    a foliage point (a colour of the combined palette at a brightness between
    0.4 and 0.68) and a placed decoration. *)
Variable Inv : Buffers -> Prop.

Hypothesis Inv_draw :
  forall st r st', Math_random random st = Done r st' -> Inv st -> Inv st'.
Hypothesis Inv_point :
  forall st x y z hex b st',
    In hex (combinedPalette colors) -> 0.4 <= b -> b <= 0.68 ->
    addPoint Color x y z (Some hex) b st = Done tt st' -> Inv st -> Inv st'.
Hypothesis Inv_decoration :
  forall st d st', placed d -> pushDecoration d st = Done tt st' -> Inv st -> Inv st'.

Local Abbreviation gb :=
  (generateBranch Math_cos Math_sin Math_PI Color Number_toString random colors).

Lemma inv_random (st : Buffers) (P : Number -> Buffers -> Prop) :
  Inv st ->
  (forall st', Inv st' -> P (random (draws st)) st') ->
  post False (Math_random random) st P.
Proof.
  intros H HP. unfold post. cbn [Math_random].
  apply HP. eapply Inv_draw; [reflexivity | exact H].
Qed.

Lemma progress_range (s : nat) :
  (s < segments)%nat ->
  0.4 <= 0.4 + ofNat s / ofNat segments * 0.3 /\
  0.4 + ofNat s / ofNat segments * 0.3 <= 0.68.
Proof.
  intro Hs. unfold segments in *. unfold ofNat.
  assert (H0 : 0 <= inject_Z (Z.of_nat s))
    by (change 0 with (inject_Z 0); rewrite <- Zle_Qle; lia).
  assert (H1 : inject_Z (Z.of_nat s) <= 14)
    by (change 14 with (inject_Z 14); rewrite <- Zle_Qle; lia).
  change (inject_Z (Z.of_nat 15)) with 15.
  assert (E : inject_Z (Z.of_nat s) / 15 == inject_Z (Z.of_nat s) * (1 # 15)) by (field).
  rewrite E. split; lra.
Qed.

Lemma inv_foliagePoint (t : Turtle) (vs : Number) (s : nat) (st : Buffers) :
  (s < segments)%nat -> Inv st ->
  post False (foliagePoint Color random colors t vs (ofNat s / ofNat segments)) st
       (fun _ st' => Inv st').
Proof.
  intros Hs H. unfold foliagePoint.
  apply post_bind, inv_random; [exact H|]. intros st1 H1.
  apply post_bind, inv_random; [exact H1|]. intros st2 H2.
  apply post_bind, inv_random; [exact H2|]. intros st3 H3.
  apply post_bind, inv_random; [exact H3|]. intros st4 H4.
  destruct (Hin (draws st3)) as [R0 R1].
  destruct (pick_in_range (combinedPalette colors) (random (draws st3))
              (combinedPalette_nonempty colors) R0 R1) as [hex [Hpick Hhex]].
  rewrite Hpick. destruct (progress_range s Hs) as [B0 B1].
  unfold post.
  destruct (addPoint Color _ _ _ (Some hex) _ st4) as [u st5| |] eqn:E.
  - destruct u. exact (Inv_point _ _ _ _ _ _ _ Hhex B0 B1 E H4).
  - unfold addPoint in E. destruct (Color hex) as [[r g] b]. discriminate E.
  - unfold addPoint in E. destruct (Color hex) as [[r g] b]. discriminate E.
Qed.

Lemma inv_foliage (t : Turtle) (vs : Number) (s density : nat) (st : Buffers) :
  (s < segments)%nat -> Inv st ->
  post False (forN density 0
                (fun _ u => foliagePoint Color random colors t vs
                              (ofNat s / ofNat segments) ;;; ret u) tt) st
       (fun _ st' => Inv st').
Proof.
  intros Hs H.
  apply (post_forN False (fun _ _ st' => Inv st') _ density 0 tt st H).
  intros j u st0 _ H0. apply post_bind.
  eapply post_mono; [apply inv_foliagePoint; assumption|].
  intros u1 st1 H1. apply post_ret. exact H1.
Qed.

Lemma inv_subBranch (recur : Branch) (directionAngle length progress : Number)
    (depth s : nat) (t1 : Turtle) (st : Buffers) :
  (depth = 0%nat -> forall x y z a l d st0, Inv st0 ->
     post False (recur x y z a l d (depth + 1)%nat) st0 (fun _ st' => Inv st')) ->
  Inv st ->
  post False (subBranch random recur directionAngle length progress depth s t1) st
       (fun _ st' => Inv st').
Proof.
  intros Hrec H. unfold subBranch.
  destruct (Nat.eqb_spec depth 0) as [E0|_]; [|apply post_ret; exact H].
  apply post_bind, inv_random; [exact H|]. intros st1 H1.
  destruct (Qltb _ _ && _); [|apply post_ret; exact H1].
  apply post_bind, inv_random; [exact H1|]. intros st2 H2.
  apply post_bind, inv_random; [exact H2|]. intros st3 H3.
  apply (Hrec E0). exact H3.
Qed.

Lemma inv_segment (recur : Branch) (directionAngle dirX dirZ length droopFactor : Number)
    (depth s : nat) (t0 : Turtle) (st : Buffers) :
  (depth = 0%nat -> forall x y z a l d st0, Inv st0 ->
     post False (recur x y z a l d (depth + 1)%nat) st0 (fun _ st' => Inv st')) ->
  (s < segments)%nat -> Inv st ->
  post False (segment Color random colors recur directionAngle dirX dirZ length
                      droopFactor depth s t0) st
       (fun _ st' => Inv st').
Proof.
  intros Hrec Hs H. unfold segment. apply post_bind.
  eapply post_mono; [apply inv_foliage; assumption|].
  intros u st1 H1. cbv beta. apply post_bind.
  eapply post_mono; [apply inv_subBranch; assumption|].
  intros u2 st2 H2. cbv beta. apply post_ret. exact H2.
Qed.

Lemma inv_segments (recur : Branch) (directionAngle dirX dirZ length droopFactor : Number)
    (depth : nat) (t0 : Turtle) (st : Buffers) :
  (depth = 0%nat -> forall x y z a l d st0, Inv st0 ->
     post False (recur x y z a l d (depth + 1)%nat) st0 (fun _ st' => Inv st')) ->
  Inv st ->
  post False (forN segments 0
                (segment Color random colors recur directionAngle dirX dirZ length
                         droopFactor depth) t0) st
       (fun _ st' => Inv st').
Proof.
  intros Hrec H.
  apply (post_forN False (fun _ _ st' => Inv st') _ segments 0 t0 st H).
  intros j t1 st1 Hj H1. apply inv_segment; [exact Hrec | lia | exact H1].
Qed.

(** The size an ornament gets from a draw in [0, 1). *)
Lemma size_within (lo span hi r : Number) :
  0 <= r -> r < 1 -> 0 < span -> lo + span == hi ->
  sizeWithin lo hi (Some (lo + r * span)).
Proof.
  intros R0 R1 Hs Hhi. exists (lo + r * span). split; [reflexivity|].
  split; [nra|]. rewrite <- Hhi. nra.
Qed.

Lemma inv_placeDecoration (startX startY directionAngle dirX dirZ : Number)
    (t : Turtle) (st : Buffers) :
  Inv st ->
  post False (placeDecoration Math_PI Number_toString random colors
                              startX startY directionAngle dirX dirZ t) st
       (fun _ st' => Inv st').
Proof.
  intro H. unfold placeDecoration.
  apply post_bind, inv_random; [exact H|]. intros st1 H1.
  apply post_bind, inv_random; [exact H1|]. intros st2 H2.
  set (pool := (if (List.length (filter isRich colors) =? 0)%nat then _ else _) ++ _).
  assert (Hpool : forall n, exists c, pick pool (random n) = Some c).
  { intro n. destruct (Hin n) as [R0 R1].
    destruct (pick_in_range pool (random n) (colorPool_nonempty colors) R0 R1)
      as [c [Hc _]].
    exists c. exact Hc. }
  assert (Hbell : forall n, exists c, pick HSR_PALETTE (random n) = Some c).
  { intro n. destruct (Hin n) as [R0 R1].
    destruct (pick_in_range HSR_PALETTE (random n) ltac:(discriminate) R0 R1)
      as [c [Hc _]].
    exists c. exact Hc. }
  assert (Hpush : forall d st0, placed d -> Inv st0 ->
                    post False (pushDecoration d) st0 (fun _ st' => Inv st')).
  { intros d st0 Hd H0. unfold post. cbn [pushDecoration].
    eapply Inv_decoration; [exact Hd | reflexivity | exact H0]. }
  destruct (Qgtb (random (draws st)) 0.96);
    [|destruct (Qgtb (random (draws st)) 0.8);
      [|destruct (Qgtb (random (draws st)) 0.6);
        [|destruct (Qgtb (random (draws st)) 0.4)]]].
  - apply Hpush; [|exact H2].
    unfold placed, renderDecoration, complete. cbn.
    repeat split; eexists; reflexivity.
  - apply post_bind, inv_random; [exact H2|]. intros st3 H3.
    apply post_bind, inv_random; [exact H3|]. intros st4 H4.
    apply Hpush; [|exact H4].
    destruct (Hbell (draws st2)) as [c Hc]. destruct (Hin (draws st3)) as [R0 R1].
    unfold placed, renderDecoration, complete.
    cbn [dec_type dec_color dec_size dec_rotation dec_url dec_id dec_position].
    rewrite Hc. repeat split; try (eexists; reflexivity).
    apply size_within; [exact R0 | exact R1 | reflexivity | reflexivity].
  - apply post_bind, inv_random; [exact H2|]. intros st3 H3.
    apply post_bind, inv_random; [exact H3|]. intros st4 H4.
    apply Hpush; [|exact H4].
    destruct (Hpool (draws st2)) as [c Hc]. destruct (Hin (draws st3)) as [R0 R1].
    unfold placed, renderDecoration, complete.
    cbn [dec_type dec_color dec_size dec_rotation dec_url dec_id dec_position].
    rewrite Hc. repeat split; try (eexists; reflexivity).
    apply size_within; [exact R0 | exact R1 | reflexivity | reflexivity].
  - apply post_bind, inv_random; [exact H2|]. intros st3 H3.
    apply post_bind, inv_random; [exact H3|]. intros st4 H4.
    apply Hpush; [|exact H4].
    destruct (Hpool (draws st2)) as [c Hc]. destruct (Hin (draws st3)) as [R0 R1].
    unfold placed, renderDecoration, complete.
    cbn [dec_type dec_color dec_size dec_rotation dec_url dec_id dec_position].
    rewrite Hc. repeat split; try (eexists; reflexivity).
    apply size_within; [exact R0 | exact R1 | reflexivity | reflexivity].
  - apply post_bind, inv_random; [exact H2|]. intros st3 H3.
    apply post_bind, inv_random; [exact H3|]. intros st4 H4.
    apply Hpush; [|exact H4].
    destruct (Hpool (draws st2)) as [c Hc]. destruct (Hin (draws st3)) as [R0 R1].
    unfold placed, renderDecoration, complete.
    cbn [dec_type dec_color dec_size dec_rotation dec_url dec_id dec_position].
    rewrite Hc. repeat split; try (eexists; reflexivity).
    apply size_within; [exact R0 | exact R1 | reflexivity | reflexivity].
Qed.

Lemma inv_generateBranch_deeper (fuel : nat)
    (startX startY startZ directionAngle length droopFactor : Number) (depth : nat)
    (st : Buffers) :
  Inv st ->
  post False (gb (S fuel) startX startY startZ directionAngle length droopFactor (S depth))
       st (fun _ st' => Inv st').
Proof.
  intro H. cbn [generateBranch]. apply post_bind.
  eapply post_mono.
  - apply inv_segments; [|exact H]. intro E0. discriminate E0.
  - intros t st1 H1. cbv beta. cbn [Nat.eqb]. apply post_ret. exact H1.
Qed.

Lemma inv_generateBranch_main (fuel : nat)
    (startX startY startZ directionAngle length droopFactor : Number) (st : Buffers) :
  Inv st ->
  post False (gb (S (S fuel)) startX startY startZ directionAngle length droopFactor 0)
       st (fun _ st' => Inv st').
Proof.
  intro H. cbn [generateBranch]. apply post_bind.
  eapply post_mono.
  - apply inv_segments; [|exact H].
    intros _ x y z a l d st0 H0. apply inv_generateBranch_deeper. exact H0.
  - intros t st1 H1. cbv beta. cbn [Nat.eqb]. apply inv_placeDecoration. exact H1.
Qed.

(** Whatever the three writers keep holds of the buffers at the end. *)
Lemma inv_generate (fuel : nat) :
  Inv emptyBuffers ->
  match generate Math_cos Math_sin Math_sqrt Math_PI Color Number_toString random colors
                 (S (S fuel)) with
  | Done _ st' => Inv st'
  | _ => False
  end.
Proof.
  intro H0. unfold generate.
  apply (post_forN False (fun _ _ st' => Inv st') _ totalBranches 0 tt emptyBuffers H0).
  intros j u st _ H. apply post_bind. unfold mainBranch.
  apply post_bind, inv_random; [exact H|]. intros st1 H1.
  apply post_bind, inv_random; [exact H1|]. intros st2 H2.
  eapply post_mono; [apply inv_generateBranch_main; exact H2|].
  intros u1 st3 H3. cbv beta. apply post_ret. exact H3.
Qed.

End GeneratorInvariant.

(** ** The tree when every draw is 0 *)

Section ZeroDraws.

Import Examples.
Import ChristmasTree TreeSpec TreeCoverage OrnamentSpec.
Open Scope list_scope.

Variable Math_cos Math_sin Math_sqrt : Number -> Number.
Variable Math_PI : Number.
Variable Color : string -> Number * Number * Number.
Variable Number_toString : Number -> string.

Local Abbreviation firstOfPool colors := (hd "#FF0066"%string (filter isRich colors)).
Local Abbreviation baubles colors :=
  (fun st : Buffers => Forall (baubleOf (firstOfPool colors)) (decorations st)).

(** A draw of 0 picks the first element. *)
Lemma pick_zero {A} (c : A) (rest : list A) : pick (c :: rest) 0 = Some c.
Proof.
  unfold pick, atFloor, lengthOf.
  assert (E : Qfloor (0 * inject_Z (Z.of_nat (List.length (c :: rest)))) = 0%Z).
  { unfold Qfloor, Qmult. cbn [Qnum Qden inject_Z]. rewrite Z.mul_0_l. reflexivity. }
  rewrite E. reflexivity.
Qed.

Lemma zero_draw (colors : list string) (st : Buffers) (r : Number) (st' : Buffers) :
  Math_random alwaysZero st = Done r st' -> baubles colors st -> baubles colors st'.
Proof. intros E H. injection E as _ <-. exact H. Qed.

Lemma zero_point (colors : list string) (st : Buffers) (x y z : Number) (hex : string)
    (b : Q) (st' : Buffers) :
  addPoint Color x y z (Some hex) b st = Done tt st' ->
  baubles colors st -> baubles colors st'.
Proof.
  intros E H. unfold addPoint in E. destruct (Color hex) as [[r g] b0].
  injection E as <-. exact H.
Qed.

(** With every draw 0 the decoration is a plain bauble of the first colour
    of the pool. *)
Lemma zero_placeDecoration (colors : list string)
    (startX startY directionAngle dirX dirZ : Number) (t : Turtle) (st : Buffers) :
  baubles colors st ->
  post False (placeDecoration Math_PI Number_toString alwaysZero colors
                              startX startY directionAngle dirX dirZ t) st
       (fun _ st' => baubles colors st').
Proof.
  intro H. unfold placeDecoration, post, bind, Math_random, alwaysZero.
  cbn [draws points pointColors decorations].
  change (Qgtb 0 0.96) with false. change (Qgtb 0 0.8) with false.
  change (Qgtb 0 0.6) with false. change (Qgtb 0 0.4) with false.
  cbv iota. unfold pushDecoration. cbn [draws points pointColors decorations].
  apply Forall_app. split; [exact H|]. constructor; [|constructor].
  unfold baubleOf. cbn [dec_type dec_color]. split; [reflexivity|].
  destruct (filter isRich colors) as [|c rest]; cbn [List.length Nat.eqb app hd];
    apply pick_zero.
Qed.

Lemma zero_generateBranch_main (colors : list string) (fuel : nat)
    (startX startY startZ directionAngle length droopFactor : Number) (st : Buffers) :
  baubles colors st ->
  post False (generateBranch Math_cos Math_sin Math_PI Color Number_toString alwaysZero
                colors (S (S fuel)) startX startY startZ directionAngle length
                droopFactor 0)
       st (fun _ st' => baubles colors st').
Proof.
  intro H. cbn [generateBranch]. apply post_bind.
  eapply post_mono.
  - apply (inv_segments Color alwaysZero colors alwaysZero_inUnit (baubles colors)
             (zero_draw colors)
             (fun st0 x y z hex b st' _ _ _ => zero_point colors st0 x y z hex b st'));
      [|exact H].
    intros _ x y z a l d st0 H0.
    apply (inv_generateBranch_deeper Math_cos Math_sin Math_PI Color Number_toString
             alwaysZero colors alwaysZero_inUnit (baubles colors) (zero_draw colors)
             (fun st1 x1 y1 z1 hex b st' _ _ _ =>
                zero_point colors st1 x1 y1 z1 hex b st')).
    exact H0.
  - intros t st1 H1. cbv beta. cbn [Nat.eqb]. apply zero_placeDecoration. exact H1.
Qed.

(** With every draw 0 the tree has 140 ornaments, each a plain bauble of
    the first colour of the pool: the first supplied colour the filter keeps,
    or #FF0066 when it keeps none. *)
Lemma zero_tree (colors : list string) (fuel : nat) :
  exists td st',
    useTreeData Math_cos Math_sin Math_sqrt Math_PI Color Number_toString
                alwaysZero colors (S (S fuel)) = Done td st' /\
    List.length (tree_decorations td) = 140%nat /\
    Forall (baubleOf (firstOfPool colors)) (tree_decorations td).
Proof.
  pose proof (useTreeData_spec Math_cos Math_sin Math_sqrt Math_PI Color Number_toString
                alwaysZero colors False (or_intror alwaysZero_inUnit) fuel) as H.
  assert (G : post False
                (fun st => generate Math_cos Math_sin Math_sqrt Math_PI Color
                             Number_toString alwaysZero colors (S (S fuel)))
                emptyBuffers (fun _ st' => baubles colors st')).
  { unfold generate.
    apply (post_forN False (fun _ _ st' => baubles colors st') _ totalBranches 0 tt
             emptyBuffers (Forall_nil _)).
    intros j u st _ Hst. apply post_bind. unfold mainBranch.
    apply post_bind. unfold post at 1. cbn [Math_random].
    apply post_bind. unfold post at 1. cbn [Math_random].
    eapply post_mono; [apply zero_generateBranch_main; exact Hst|].
    intros u1 st3 H3. cbv beta. apply post_ret. exact H3. }
  unfold post in G. unfold useTreeData in *.
  destruct (generate Math_cos Math_sin Math_sqrt Math_PI Color Number_toString
              alwaysZero colors (S (S fuel))) as [u st'| |]; try contradiction.
  destruct H as (k & _ & _ & _ & Hlen & _).
  eexists _, st'. split; [reflexivity|]. split; [exact Hlen | exact G].
Qed.

(** C7, at the palette of one white spelled #fff.  The empty palette, the
    palette of #FFFFFF and the palette of #fff have no entry other than white,
    by the white test of [addPoint].  With every draw 0, generation ends
    normally with 140 ornaments for each of the three.  For the empty palette
    and for #FFFFFF every ornament is a bauble of the accent colour #FF0066:
    the filter kept nothing and the accent was substituted.  For #fff every
    ornament is a bauble coloured #fff, which is white and not an accent
    colour: the filter kept the entry and nothing was substituted. *)
Theorem short_white_is_not_replaced (fuel : nat) :
  (allWhite [] /\ allWhite longWhite /\ allWhite shortWhite) /\
  (whiteTest "#fff" = true /\ ~ In "#fff"%string HSR_PALETTE) /\
  (exists td st',
     useTreeData Math_cos Math_sin Math_sqrt Math_PI Color Number_toString
                 alwaysZero [] (S (S fuel)) = Done td st' /\
     List.length (tree_decorations td) = 140%nat /\
     Forall (baubleOf "#FF0066") (tree_decorations td)) /\
  (exists td st',
     useTreeData Math_cos Math_sin Math_sqrt Math_PI Color Number_toString
                 alwaysZero longWhite (S (S fuel)) = Done td st' /\
     List.length (tree_decorations td) = 140%nat /\
     Forall (baubleOf "#FF0066") (tree_decorations td)) /\
  (exists td st',
     useTreeData Math_cos Math_sin Math_sqrt Math_PI Color Number_toString
                 alwaysZero shortWhite (S (S fuel)) = Done td st' /\
     List.length (tree_decorations td) = 140%nat /\
     Forall (baubleOf "#fff") (tree_decorations td)).
Proof.
  split; [|split; [|split; [|split]]].
  - split; [intros c [] | split; intros c [<- | []]; reflexivity].
  - split; [reflexivity|].
    unfold HSR_PALETTE. cbn [In].
    intros [H | [H | [H | [H | [H | []]]]]]; discriminate H.
  - exact (zero_tree [] fuel).
  - exact (zero_tree longWhite fuel).
  - exact (zero_tree shortWhite fuel).
Qed.

End ZeroDraws.

Section TreeCoverageFacts.

Import ChristmasTree TreeSpec TreeCoverage.
Open Scope list_scope.

Variable Math_cos Math_sin Math_sqrt : Number -> Number.
Variable Math_PI : Number.
Variable Color : string -> Number * Number * Number.
Variable Number_toString : Number -> string.
Variable random : nat -> Number.
Variable colors : list string.

Local Abbreviation tree :=
  (useTreeData Math_cos Math_sin Math_sqrt Math_PI Color Number_toString).

Lemma addPoint_done (x y z : Number) (hex : string) (b : Number) (st st' : Buffers) :
  addPoint Color x y z (Some hex) b st = Done tt st' ->
  exists m,
    m = (if whiteTest hex then Qmin b 0.9 * 0.7 else Qmin b 0.9) /\
    points st' = points st ++ [x; y; z] /\
    pointColors st' = pointColors st ++ shaded Color (hex, m) /\
    decorations st' = decorations st /\ draws st' = draws st.
Proof.
  unfold addPoint, shaded, whiteTest. destruct (Color hex) as [[r g] b0].
  intro H. inversion H; subst; clear H. cbn [points pointColors decorations draws].
  eexists. split; [reflexivity|]. repeat split.
Qed.


(** X11.  With a random source in [0, 1) the colour array of the cloud is,
    point by point, a colour of the combined palette (supplied colours and
    accent palette) multiplied by a brightness between 0.28 and 0.68: between
    0.4 and 0.68 for an ordinary colour, and at most 0.476 for a colour the
    white test catches.  The cap of 0.9 in [addPoint] is never reached.  The
    array holds one such triple for each point of the cloud. *)
Theorem point_colours_are_dimmed_palette_colours (fuel : nat) :
  inUnit random ->
  exists td st' shades,
    tree random colors (S (S fuel)) = Done td st' /\
    tree_colors td = flat_map (shaded Color) shades /\
    List.length shades = pointCount td /\
    List.length (tree_colors td) = List.length (positions td) /\
    Forall (shadeOK colors) shades.
Proof.
  intro Hin.
  set (Inv := fun st : Buffers =>
                exists shades,
                  pointColors st = flat_map (shaded Color) shades /\
                  List.length (points st) = (List.length shades * 3)%nat /\
                  List.length (pointColors st) = (List.length shades * 3)%nat /\
                  Forall (shadeOK colors) shades).
  assert (Hdraw : forall st r st', Math_random random st = Done r st' -> Inv st -> Inv st').
  { intros st0 r st1 E H0. cbn [Math_random] in E. inversion E; subst. exact H0. }
  assert (Hpoint : forall st x y z hex b st',
             In hex (combinedPalette colors) -> 0.4 <= b -> b <= 0.68 ->
             addPoint Color x y z (Some hex) b st = Done tt st' -> Inv st -> Inv st').
  { intros st0 x y z hex b st1 Hhex B0 B1 E (shades & Hc & Hp & Hl & Hok).
    destruct (addPoint_done _ _ _ _ _ _ _ E) as (m & Hm & Hpts & Hcol & _ & _).
    exists (shades ++ [(hex, m)]).
    split; [rewrite Hcol, flat_map_app, Hc; cbn [flat_map]; rewrite app_nil_r;
            reflexivity|].
    split; [rewrite Hpts, !length_app, Hp; cbn [List.length]; lia|].
    split.
    { rewrite Hcol, !length_app, Hl. unfold shaded.
      destruct (Color hex) as [[r g] b0]. cbn [List.length]. lia. }
    apply Forall_app. split; [exact Hok|]. constructor; [|constructor].
    assert (Emin : Qmin b 0.9 == b) by (apply Q.min_l; lra).
    unfold shadeOK. split; [exact Hhex|].
    destruct (whiteTest hex); subst m; rewrite Emin;
      repeat split; intros; try discriminate; lra. }
  assert (Hdeco : forall st d st',
             placed d -> pushDecoration d st = Done tt st' -> Inv st -> Inv st').
  { intros st0 d st1 _ E H0. cbn [pushDecoration] in E. inversion E; subst. exact H0. }
  assert (Hempty : Inv emptyBuffers).
  { exists []. repeat split. constructor. }
  pose proof (inv_generate Math_cos Math_sin Math_sqrt Math_PI Color Number_toString
                random colors Hin Inv Hdraw Hpoint Hdeco fuel Hempty) as H.
  unfold useTreeData.
  destruct (generate _ _ _ _ _ _ _ _ _) as [u st| |]; try contradiction.
  destruct H as (shades & Hc & Hp & Hl & Hok).
  exists {| positions := points st; tree_colors := pointColors st;
            tree_decorations := decorations st |}, st, shades.
  split; [reflexivity|]. unfold pointCount. cbn [tree_colors positions].
  split; [exact Hc|].
  split; [rewrite Hp; symmetry; apply Nat.div_mul; discriminate|].
  split; [rewrite Hp, Hl; reflexivity | exact Hok].
Qed.

(** The turtle after the fifteen segments, in closed form. *)
Lemma branchTip_closed_form
    (startX startY startZ directionAngle length droopFactor : Number) :
  let tip := branchTip Math_cos Math_sin startX startY startZ directionAngle length
                       droopFactor in
  currentX tip == startX + Math_cos directionAngle * length /\
  currentZ tip == startZ + Math_sin directionAngle * length /\
  currentY tip == startY + length * (1 # 4) - length * droopFactor * (112 # 375) /\
  dirY tip == (1 # 4) - droopFactor * (84 # 100).
Proof.
  unfold branchTip, segments.
  cbn [walk advance currentX currentY currentZ dirY].
  unfold ofNat, segments. cbn [Z.of_nat Pos.of_succ_nat Pos.succ].
  unfold inject_Z.
  repeat split; field.
Qed.

(** X12.  The tip of a branch is at horizontal distance [length] from its
    start, in the direction of the branch: the droop bends the branch only
    vertically.  Its height is [startY + length x (0.25 - droop x 112/375)],
    so a branch of positive length whose droop is at most 0.6 (every main
    branch, and every spur) ends above the point where it starts. *)
Theorem branch_tip_position
    (startX startY startZ directionAngle length droopFactor : Number) :
  0 < length -> droopFactor <= 0.6 ->
  let tip := branchTip Math_cos Math_sin startX startY startZ directionAngle length
                       droopFactor in
  currentX tip == startX + Math_cos directionAngle * length /\
  currentZ tip == startZ + Math_sin directionAngle * length /\
  currentY tip == startY + length * (0.25 - droopFactor * (112 # 375)) /\
  startY + length * 0.07 < currentY tip.
Proof.
  intros Hlen Hdroop tip.
  destruct (branchTip_closed_form startX startY startZ directionAngle length droopFactor)
    as (HX & HZ & HY & _).
  fold tip in HX, HZ, HY.
  split; [exact HX|]. split; [exact HZ|].
  split; [rewrite HY; field|].
  rewrite HY. nra.
Qed.

End TreeCoverageFacts.

(** ** The theme service: markdown fences *)

Section ThemeCoverageFacts.

Import ThemeService ThemeCoverage.
Open Scope string_scope.

Lemma length_append (a b : string) :
  String.length (a ++ b) = (String.length a + String.length b)%nat.
Proof.
  induction a as [|c a IH]; cbn [append String.length]; [reflexivity | rewrite IH; reflexivity].
Qed.

Lemma substring_all (s : string) : substring 0 (String.length s) s = s.
Proof.
  induction s as [|c s IH]; cbn [substring String.length]; [reflexivity | rewrite IH; reflexivity].
Qed.

Lemma substring_prefix (p s : string) : substring 0 (String.length p) (p ++ s) = p.
Proof.
  induction p as [|c p IH]; cbn [append substring String.length].
  - destruct s; reflexivity.
  - rewrite IH. reflexivity.
Qed.

Lemma substring_suffix (p s : string) :
  substring (String.length p) (String.length s) (p ++ s) = s.
Proof.
  induction p as [|c p IH]; cbn [append substring String.length].
  - apply substring_all.
  - exact IH.
Qed.

Lemma startsWith_append (p s : string) : startsWith p (p ++ s) = true.
Proof.
  unfold startsWith. rewrite length_append.
  destruct (Nat.leb_spec (String.length p) (String.length p + String.length s)); [|lia].
  rewrite substring_prefix. apply String.eqb_refl.
Qed.

Lemma dropStart_append (p s : string) : dropStart (String.length p) (p ++ s) = s.
Proof.
  unfold dropStart. rewrite length_append.
  replace (String.length p + String.length s - String.length p)%nat
    with (String.length s) by lia.
  apply substring_suffix.
Qed.

Lemma endsWith_append (s p : string) : endsWith p (s ++ p) = true.
Proof.
  unfold endsWith. rewrite length_append.
  destruct (Nat.leb_spec (String.length p) (String.length s + String.length p)); [|lia].
  replace (String.length s + String.length p - String.length p)%nat
    with (String.length s) by lia.
  rewrite substring_suffix. apply String.eqb_refl.
Qed.

Lemma dropEnd_append (s p : string) : dropEnd (String.length p) (s ++ p) = s.
Proof.
  unfold dropEnd. rewrite length_append.
  replace (String.length s + String.length p - String.length p)%nat
    with (String.length s) by lia.
  apply substring_prefix.
Qed.

Lemma append_assoc (a b c : string) : (a ++ b) ++ c = a ++ (b ++ c).
Proof.
  induction a as [|x a IH]; cbn [append]; [reflexivity | rewrite IH; reflexivity].
Qed.

Lemma append_empty_r (a : string) : a ++ "" = a.
Proof.
  induction a as [|x a IH]; cbn [append]; [reflexivity | rewrite IH; reflexivity].
Qed.

Lemma substring_split (t : string) :
  forall n, (n <= String.length t)%nat ->
            t = substring 0 n t ++ substring n (String.length t - n) t.
Proof.
  induction t as [|c t IH]; intros n Hn.
  - destruct n; reflexivity.
  - destruct n as [|n]; cbn [substring String.length append Nat.sub].
    + rewrite substring_all. reflexivity.
    + cbn [String.length] in Hn. rewrite <- (IH n) by lia. reflexivity.
Qed.

Lemma endsWith_split (p t : string) :
  endsWith p t = true -> exists u, t = u ++ p.
Proof.
  unfold endsWith.
  destruct (Nat.leb_spec (String.length p) (String.length t)) as [Hle|]; [|discriminate].
  intro H. apply String.eqb_eq in H.
  exists (substring 0 (String.length t - String.length p) t).
  pose proof (substring_split t (String.length t - String.length p) ltac:(lia)) as S.
  replace (String.length t - (String.length t - String.length p))%nat
    with (String.length p) in S by lia.
  rewrite <- H in S. exact S.
Qed.

(** White space after a closing fence hides it from the pattern that is
    anchored at the end of the text. *)
Lemma endsWith_fence_after_whitespace (s ws : string) :
  allWhiteSpace ws = true -> ws <> "" -> endsWith "```" (s ++ ws) = false.
Proof.
  intros Hws Hne. destruct (endsWith "```" (s ++ ws)) eqn:E; [|reflexivity].
  exfalso. destruct (endsWith_split _ _ E) as [u Hu].
  assert (L : lastChar (s ++ ws) = lastChar (u ++ "```")) by (rewrite Hu; reflexivity).
  rewrite (lastChar_append s ws Hne), (lastChar_append u "```" ltac:(discriminate)) in L.
  destruct (lastChar_whitespace ws Hws Hne) as [c [Hc Hw]].
  rewrite Hc in L. cbn [lastChar] in L. inversion L; subst c. apply Hw. reflexivity.
Qed.

Variable generateContent : string -> Settled GenerateContentResponse.
Variable JSON_parse : string -> option JSON.

(** What the fence at the start leaves. *)
Lemma stripFenceStart_fenced (ws1 body ws2 ws3 : string) :
  allWhiteSpace ws1 = true -> allWhiteSpace ws2 = true -> trimmed body -> body <> "" ->
  stripFenceStart (fenced ws1 body ws2 ws3) = body ++ ws2 ++ "```" ++ ws3.
Proof.
  intros H1 H2 [Hb _] Hne. unfold stripFenceStart, fenced.
  rewrite startsWith_append.
  change 7%nat with (String.length "```json"). rewrite dropStart_append.
  rewrite (trimStart_whitespace _ _ H1).
  apply trimStart_before_fence; assumption.
Qed.

(** X13.  A response wrapped in a markdown fence, with any white space
    around the body inside the fence and nothing after the closing fence, is
    cleaned to its body, so [generateTheme] returns what the body parses to. *)
Theorem fenced_response_is_unwrapped
    (prompt ws1 body ws2 : string) (v : JSON) :
  allWhiteSpace ws1 = true -> allWhiteSpace ws2 = true ->
  trimmed body -> body <> "" ->
  generateContent (contentsOf prompt)
    = Resolved {| text := Some (fenced ws1 body ws2 "") |} ->
  JSON_parse body = Some v ->
  cleanUp (fenced ws1 body ws2 "") = body /\
  generateTheme generateContent JSON_parse prompt = Resolved v.
Proof.
  intros H1 H2 Hb Hne Hres Hparse.
  assert (Hclean : cleanUp (fenced ws1 body ws2 "") = body).
  { unfold cleanUp. rewrite (stripFenceStart_fenced _ _ _ _ H1 H2 Hb Hne).
    change ("```" ++ "") with "```".
    replace (body ++ ws2 ++ "```") with ((body ++ ws2) ++ "```")
      by (apply append_assoc).
    unfold stripFenceEnd. rewrite endsWith_append.
    change 3%nat with (String.length "```"). rewrite dropEnd_append.
    unfold trim.
    assert (Hstart : Tone.trimStart (body ++ ws2) = body ++ ws2).
    { destruct Hb as [Hs _].
      apply trimStart_fixed_append; [exact Hne | exact Hs |].
      pose proof (isBlank_continues ws2 "" H2 eq_refl) as K.
      rewrite append_empty_r in K. exact K. }
    rewrite Hstart, (trimEnd_append_whitespace _ _ H2). apply Hb. }
  split; [exact Hclean|].
  unfold generateTheme, tryBlock. rewrite Hres. cbn [text].
  unfold fenced at 1. cbn [append]. fold (fenced ws1 body ws2 "") .
  change (String "`" (String "`" (String "`" (String "j" (String "s" (String "o"
           (String "n" (ws1 ++ body ++ ws2 ++ "```"))))))))
    with (fenced ws1 body ws2 "") in *.
  rewrite Hclean, Hparse. reflexivity.
Qed.

(** X14.  White space after the closing fence (a final line break) defeats
    the clean-up: the pattern for the closing fence is anchored at the end of
    the text and runs before [trim], so the fence stays in the text given to
    [JSON.parse].  With a parser that rejects such a text, [generateTheme]
    returns the fallback although the body itself is valid. *)
Theorem trailing_whitespace_keeps_the_fence
    (prompt ws1 body ws2 ws3 : string) :
  allWhiteSpace ws1 = true -> allWhiteSpace ws2 = true ->
  allWhiteSpace ws3 = true -> ws3 <> "" ->
  trimmed body -> body <> "" ->
  generateContent (contentsOf prompt)
    = Resolved {| text := Some (fenced ws1 body ws2 ws3) |} ->
  JSON_parse (body ++ ws2 ++ "```") = None ->
  cleanUp (fenced ws1 body ws2 ws3) = body ++ ws2 ++ "```" /\
  generateTheme generateContent JSON_parse prompt = Resolved fallback.
Proof.
  intros H1 H2 H3 Hne3 Hb Hne Hres Hparse.
  assert (Hclean : cleanUp (fenced ws1 body ws2 ws3) = body ++ ws2 ++ "```").
  { unfold cleanUp. rewrite (stripFenceStart_fenced _ _ _ _ H1 H2 Hb Hne).
    assert (Hstart : Tone.trimStart (body ++ ws2 ++ "```" ++ ws3)
                     = body ++ ws2 ++ "```" ++ ws3)
      by (apply trimStart_before_fence; [exact Hne | apply Hb | exact H2]).
    replace (body ++ ws2 ++ "```" ++ ws3) with ((body ++ ws2 ++ "```") ++ ws3) in *
      by (rewrite !append_assoc; reflexivity).
    unfold stripFenceEnd. rewrite (endsWith_fence_after_whitespace _ _ H3 Hne3).
    unfold trim.
    rewrite Hstart, (trimEnd_append_whitespace _ _ H3).
    replace (body ++ ws2 ++ "```") with ((body ++ ws2) ++ "```")
      by (apply append_assoc).
    apply trimEnd_keeps_fence. }
  split; [exact Hclean|].
  unfold generateTheme, tryBlock. rewrite Hres. cbn [text].
  unfold fenced at 1. cbn [append].
  change (String "`" (String "`" (String "`" (String "j" (String "s" (String "o"
           (String "n" (ws1 ++ body ++ ws2 ++ "```" ++ ws3))))))))
    with (fenced ws1 body ws2 ws3).
  rewrite Hclean, Hparse. reflexivity.
Qed.

End ThemeCoverageFacts.

(** ** The ambient particles *)

Section EmanatingFacts.

Import Emanating TreeSpec.
Open Scope list_scope.

Variable Math_cos Math_sin : Number -> Number.
Variable Math_PI : Number.
Variable random : nat -> Number.

Hypothesis Hin : inUnit random.

Lemma handControl_range (handData : Ref HandData) :
  match handData with
  | Some hd => 0 <= rawX hd /\ rawX hd <= 1 /\ 0 <= rawY hd /\ rawY hd <= 1
  | None => True
  end ->
  0.5 <= fst (handControl handData) /\ fst (handControl handData) <= 2.5 /\
  -2 <= snd (handControl handData) /\ snd (handControl handData) <= 2.
Proof.
  clear Hin. unfold handControl. destruct handData as [hd|]; [|intros _; cbn; lra].
  intros (A & B & C & D). destruct (gesture hd); cbn [fst snd]; lra.
Qed.

Lemma newParticle_inBounds (draws : nat) : inBounds (newParticle Math_PI random draws).
Proof.
  unfold inBounds, newParticle. cbn [velocity radius y].
  destruct (Hin draws), (Hin (draws + 2)%nat), (Hin (draws + 3)%nat). repeat split; lra.
Qed.

Lemma newMetaData_spec (n draws : nat) :
  List.length (newMetaData Math_PI random n draws) = n /\
  Forall inBounds (newMetaData Math_PI random n draws).
Proof.
  revert draws. induction n as [|n IH]; intro draws; cbn [newMetaData].
  - split; [reflexivity | constructor].
  - destruct (IH (draws + 4)%nat) as [Hl Hb]. split; [cbn [List.length]; lia|].
    constructor; [apply newParticle_inBounds | exact Hb].
Qed.

Lemma stepParticle_inBounds (speed rot delta : Number) (p : Particle) (draws : nat) :
  0 <= speed -> 0 <= delta -> inBounds p ->
  let '(p', xyz, draws') := stepParticle Math_cos Math_sin random speed rot delta p draws in
  inBounds p' /\ snd (fst xyz) = y p' /\ velocity p' = velocity p.
Proof.
  intros Hs Hd (V0 & V1 & R0 & R1 & Y0 & Y1). unfold stepParticle.
  assert (Hup : 0 <= velocity p * speed * (delta * 60)).
  { apply Qmult_le_0_compat; [apply Qmult_le_0_compat|]; lra. }
  destruct (Qgtb (y p + velocity p * speed * (delta * 60)) 8) eqn:E.
  - destruct (Hin draws) as [A B]. unfold inBounds. cbn [velocity radius y fst snd].
    repeat split; lra.
  - apply Qgtb_le in E. unfold inBounds. cbn [velocity radius y fst snd].
    repeat split; lra.
Qed.

Lemma stepParticles_inBounds (speed rot delta : Number) (ps : list Particle) :
  0 <= speed -> 0 <= delta -> Forall inBounds ps ->
  forall draws,
    let '(ps', xyzs, draws') :=
      stepParticles Math_cos Math_sin random speed rot delta ps draws in
    List.length ps' = List.length ps /\ List.length xyzs = List.length ps /\
    Forall inBounds ps' /\
    Forall2 (fun p' xyz => snd (fst xyz) = y p') ps' xyzs.
Proof.
  intros Hs Hd Hb. induction Hb as [|p rest Hp Hrest IH]; intro draws.
  - cbn [stepParticles]. repeat split; constructor.
  - cbn [stepParticles].
    pose proof (stepParticle_inBounds speed rot delta p draws Hs Hd Hp) as H1.
    destruct (stepParticle Math_cos Math_sin random speed rot delta p draws)
      as [[p' xyz] draws1].
    specialize (IH draws1).
    destruct (stepParticles Math_cos Math_sin random speed rot delta rest draws1)
      as [[rest' xyzs] draws2].
    destruct H1 as (B1 & Hy & _). destruct IH as (L1 & L2 & B2 & F2).
    cbn [List.length]. repeat split; try lia; constructor; assumption.
Qed.

(** X15.  However many frames run and wherever the hand is, the ambient
    field keeps its 800 particles within bounds: each keeps the speed it was
    born with (0.01 to 0.04), a radius of at most 5 and a height between the
    floor -4 and the ceiling 8, and the position buffer keeps 800 triples whose
    heights are those of the particles. *)
Theorem ambient_particles_stay_in_bounds (ticks : list Tick) :
  Forall tickOK ticks ->
  let st := runFrames Math_cos Math_sin random ticks (initialState Math_PI random) in
  List.length (metaData st) = 800%nat /\
  List.length (positions st) = 800%nat /\
  Forall inBounds (metaData st) /\
  Forall (fun xyz => -4 <= snd (fst xyz) /\ snd (fst xyz) <= 8) (positions st).
Proof.
  intro Hticks. cbv zeta.
  assert (Hgen : forall st,
            List.length (metaData st) = 800%nat -> List.length (positions st) = 800%nat ->
            Forall inBounds (metaData st) ->
            Forall (fun xyz => -4 <= snd (fst xyz) /\ snd (fst xyz) <= 8) (positions st) ->
            let st' := runFrames Math_cos Math_sin random ticks st in
            List.length (metaData st') = 800%nat /\
            List.length (positions st') = 800%nat /\
            Forall inBounds (metaData st') /\
            Forall (fun xyz => -4 <= snd (fst xyz) /\ snd (fst xyz) <= 8) (positions st')).
  { induction Hticks as [|[handData delta] rest [Hd Hhand] Hrest IH]; intros st L1 L2 B P.
    - cbn [runFrames]. repeat split; assumption.
    - cbn [runFrames]. apply IH; clear IH;
        unfold useFrame;
        cbn [fst snd] in Hd, Hhand;
        pose proof (handControl_range handData Hhand) as (S0 & _ & _ & _);
        destruct (handControl handData) as [speed rot]; cbn [fst] in S0;
        pose proof (stepParticles_inBounds speed rot delta (metaData st)
                      ltac:(lra) Hd B (drawn st)) as H;
        destruct (stepParticles Math_cos Math_sin random speed rot delta (metaData st)
                                (drawn st)) as [[ps' xyzs] d'];
        destruct H as (K1 & K2 & K3 & K4); cbn [metaData positions].
      + lia.
      + lia.
      + exact K3.
      + clear - K3 K4. induction K4 as [|p xyz ps xs Hy _ IH]; [constructor|].
        inversion K3; subst. constructor; [|apply IH; assumption].
        destruct xyz as [[x h] z]. cbn [fst snd] in Hy |- *. subst h.
        match goal with H : inBounds p |- _ => destruct H as (_ & _ & _ & _ & A & B) end.
        split; assumption. }
  apply Hgen.
  - apply newMetaData_spec.
  - apply repeat_length.
  - apply newMetaData_spec.
  - cbn [initialState positions]. apply Forall_forall. intros xyz Hx.
    apply repeat_spec in Hx. subst xyz. cbn. split; lra.
Qed.

(** X16.  A particle that passes the ceiling in a frame is put back on the
    floor with a fresh radius, and for that frame it is drawn on the axis of
    the tree: the radius of its position is computed from the height above the
    ceiling, where the height factor is 0. *)
Theorem respawned_particle_sits_on_the_axis
    (speed rot delta : Number) (p : Particle) (draws : nat) :
  8 < y p + velocity p * speed * (delta * 60) ->
  exists x z,
    stepParticle Math_cos Math_sin random speed rot delta p draws =
      ({| velocity := velocity p;
          angle := angle p + rot * 0.01;
          radius := random draws * 5.0;
          y := -4 |},
       (x, -4, z), S draws) /\
    x == 0 /\ z == 0.
Proof.
  clear Hin. intro H. unfold stepParticle.
  apply Qgtb_gt in H. rewrite H.
  eexists. eexists. split; [reflexivity|].
  apply Qgtb_gt in H.
  assert (E : Qmax 0 ((10 - (y p + velocity p * speed * (delta * 60) + 2)) / 10) == 0).
  { apply Q.max_l. apply Qle_shift_div_r; lra. }
  split; rewrite E; ring.
Qed.

End EmanatingFacts.

(** ** The tree group *)

Section TreeGroupFacts.

Import TreeGroup.
Open Scope list_scope.

Lemma lerp_between (x y t : Number) (lo hi : Number) :
  0 <= t -> t <= 1 -> lo <= x -> x <= hi -> lo <= y -> y <= hi ->
  lo <= lerp x y t /\ lerp x y t <= hi.
Proof.
  intros T0 T1 X0 X1 Y0 Y1. unfold lerp. split; nra.
Qed.

Lemma product_bound (a b : Q) :
  0 <= a -> a <= 1.5 -> 0 <= b -> b <= 1 -> 0 <= a * b /\ a * b <= 1.5.
Proof.
  intros A0 A1 B0 B1. split; [apply Qmult_le_0_compat; assumption|].
  apply Qle_trans with (1 * a); [|lra].
  rewrite (Qmult_comm a b). apply Qmult_le_compat_r; assumption.
Qed.

Lemma scale_decay_step (s p : Q) : s * 0.95 * p == s * (p * 0.95).
Proof. ring. Qed.

(** X17.  While the tree is not visible the frame callback multiplies the
    scale of the group by 0.95, resets the reveal time and leaves the rotation
    alone; the group is mounted with scale 0, so before the phase is TREE the
    tree has scale 0 however many frames run and wherever the hand is. *)
Theorem tree_is_hidden_until_visible (ticks : list Tick) (st : State) :
  Forall (fun tick => fst (fst tick) = false) ticks ->
  scale (runFrames ticks st) == scale st * 0.95 ^ Z.of_nat (List.length ticks) /\
  rotationY (runFrames ticks st) = rotationY st /\
  (ticks <> [] -> revealTime (runFrames ticks st) = 0) /\
  scale (runFrames ticks initialState) == 0.
Proof.
  intro H.
  assert (Hgen : forall st0,
            scale (runFrames ticks st0) == scale st0 * 0.95 ^ Z.of_nat (List.length ticks) /\
            rotationY (runFrames ticks st0) = rotationY st0 /\
            (ticks <> [] -> revealTime (runFrames ticks st0) = 0)).
  { induction H as [|[[visible handData] delta] rest Hv Hrest IH]; intro st0.
    - cbn [runFrames List.length Z.of_nat Qpower]. split; [lra|].
      split; [reflexivity | intro N; exfalso; apply N; reflexivity].
    - cbn [fst] in Hv. subst visible. cbn [runFrames].
      destruct (IH (useFrame true false handData delta st0)) as (S1 & R1 & T1).
      assert (Hs : scale (useFrame true false handData delta st0) == scale st0 * 0.95).
      { unfold useFrame. destruct handData; cbn [scale]; unfold lerp; lra. }
      assert (Hr : rotationY (useFrame true false handData delta st0) = rotationY st0).
      { unfold useFrame. destruct handData; reflexivity. }
      assert (Ht : revealTime (useFrame true false handData delta st0) = 0).
      { unfold useFrame. destruct handData; reflexivity. }
      split; [|split].
      + rewrite S1, Hs. cbn [List.length].
        rewrite Nat2Z.inj_succ, <- Z.add_1_r, Qpower_plus by discriminate.
        change (0.95 ^ 1) with 0.95. apply scale_decay_step.
      + rewrite R1. exact Hr.
      + intros _. destruct rest as [|t rest'].
        * cbn [runFrames]. exact Ht.
        * apply T1. discriminate. }
  destruct (Hgen st) as (A & B & C). split; [exact A|]. split; [exact B|].
  split; [exact C|].
  destruct (Hgen initialState) as (A0 & _). rewrite A0. cbn [initialState scale].
  apply Qmult_0_l.
Qed.

(** X18.  With frame times of at most two seconds and a hand record within
    the frame, the scale of the tree group stays between 0 and 1.5 and the
    reveal time between 0 and 1, whatever the sequence of visible and hidden
    frames, gestures and hand positions. *)
Theorem tree_scale_stays_bounded (ticks : list Tick) :
  Forall tickOK ticks ->
  let st := runFrames ticks initialState in
  0 <= scale st /\ scale st <= 1.5 /\ 0 <= revealTime st /\ revealTime st <= 1.
Proof.
  intro H. cbv zeta.
  assert (Hgen : forall st0,
            0 <= scale st0 /\ scale st0 <= 1.5 /\ 0 <= revealTime st0 /\ revealTime st0 <= 1 ->
            let st := runFrames ticks st0 in
            0 <= scale st /\ scale st <= 1.5 /\ 0 <= revealTime st /\ revealTime st <= 1).
  { induction H as [|[[visible handData] delta] rest Hok Hrest IH]; intros st0 Hst.
    - exact Hst.
    - cbn [runFrames]. apply IH. clear IH.
      destruct Hst as (S0 & S1 & R0 & R1). destruct Hok as (D0 & D1 & Hhand).
      unfold useFrame.
      assert (Hrt : 0 <= (if visible then lerp (revealTime st0) 1 (delta * 0.5) else 0) /\
                    (if visible then lerp (revealTime st0) 1 (delta * 0.5) else 0) <= 1).
      { destruct visible; [|split; lra].
        apply lerp_between; lra. }
      set (rt := if visible then lerp (revealTime st0) 1 (delta * 0.5) else 0) in *.
      destruct Hrt as [Rt0 Rt1].
      assert (Hsc : forall sc, 0 <= sc -> sc <= 1 ->
                0 <= lerp (scale st0) (if visible then (0.5 + sc) * rt else 0) 0.05 /\
                lerp (scale st0) (if visible then (0.5 + sc) * rt else 0) 0.05 <= 1.5).
      { intros sc C0 C1.
        destruct (product_bound (0.5 + sc) rt ltac:(lra) ltac:(lra) Rt0 Rt1) as [P0 P1].
        apply lerp_between; try lra; destruct visible; lra. }
      match goal with
      | |- context [let '(scaleControl, rotationSpeed) := ?c in _] =>
          assert (Hctl : 0 <= fst c /\ fst c <= 1);
          [|destruct c as [sc rs]]
      end.
      + destruct handData as [hd|]; [|cbn [fst]; lra].
        destruct Hhand as (X0 & X1 & Y0 & Y1).
        destruct visible; [destruct (gesture hd)|]; cbn [fst]; lra.
      + cbn [fst] in Hctl. destruct Hctl as [C0 C1].
        cbn [scale revealTime]. fold rt.
        destruct (Hsc sc C0 C1) as [A B]. repeat split; assumption. }
  apply Hgen. cbn [initialState scale revealTime]. repeat split; lra.
Qed.

End TreeGroupFacts.

(** ** The snowflakes *)

Section SnowflakeFacts.

Import Snowflakes TreeSpec.
Open Scope list_scope.

Variable Math_sin Math_sqrt : Number -> Number.
Variable white blue : Vec3.
Variable random : nat -> Number.

Local Abbreviation step := (stepFlake Math_sin Math_sqrt white blue).
Local Abbreviation steps := (stepFlakes Math_sin Math_sqrt white blue random).
Local Abbreviation frame := (useFrame Math_sin Math_sqrt white blue random true).

(** The height of a flake. *)
Local Abbreviation height := (fun p : Vec3 => snd (fst p)).

Lemma stepFlakes_nth (phase : AppPhase) (delta currentTime : Number) :
  forall ps vs ts cs draws i p v t c,
    nth_error ps i = Some p -> nth_error vs i = Some v ->
    nth_error ts i = Some t -> nth_error cs i = Some c ->
    exists k,
      nth_error (fst (fst (steps phase delta currentTime ps vs ts cs draws))) i
        = Some (fst (step phase delta currentTime (random k) p v t c)) /\
      nth_error (snd (fst (steps phase delta currentTime ps vs ts cs draws))) i
        = Some (snd (step phase delta currentTime (random k) p v t c)).
Proof.
  induction ps as [|p0 ps IH]; intros vs ts cs draws i p v t c Hp Hv Ht Hc.
  - destruct i; discriminate Hp.
  - destruct vs as [|v0 vs]; [destruct i; discriminate Hv|].
    destruct ts as [|t0 ts]; [destruct i; discriminate Ht|].
    destruct cs as [|c0 cs]; [destruct i; discriminate Hc|].
    cbn [stepFlakes].
    destruct (step phase delta currentTime (random draws) p0 v0 t0 c0) as [p0' c0'] eqn:E0.
    destruct i as [|i].
    + cbn [nth_error] in Hp, Hv, Ht, Hc.
      inversion Hp; inversion Hv; inversion Ht; inversion Hc; subst.
      exists draws. rewrite E0.
      destruct (steps phase delta currentTime ps vs ts cs _) as [[ps' cs'] d'].
      split; reflexivity.
    + cbn [nth_error] in Hp, Hv, Ht, Hc.
      destruct (IH vs ts cs (match phase with TREE => S draws | _ => draws end)
                   i p v t c Hp Hv Ht Hc) as [k [H1 H2]].
      exists k.
      destruct (steps phase delta currentTime ps vs ts cs _) as [[ps' cs'] d'].
      cbn [fst snd nth_error] in H1, H2 |- *. split; assumption.
Qed.

Lemma stepFlakes_length (phase : AppPhase) (delta currentTime : Number) (n : nat) :
  forall ps vs ts cs draws,
    List.length ps = n -> List.length vs = n -> List.length ts = n -> List.length cs = n ->
    List.length (fst (fst (steps phase delta currentTime ps vs ts cs draws))) = n /\
    List.length (snd (fst (steps phase delta currentTime ps vs ts cs draws))) = n.
Proof.
  induction n as [|n IH]; intros ps vs ts cs draws Hp Hv Ht Hc.
  - destruct ps; [|discriminate Hp]. cbn. split; reflexivity.
  - destruct ps as [|p0 ps]; [discriminate Hp|].
    destruct vs as [|v0 vs]; [discriminate Hv|].
    destruct ts as [|t0 ts]; [discriminate Ht|].
    destruct cs as [|c0 cs]; [discriminate Hc|].
    cbn [stepFlakes List.length] in *.
    destruct (step phase delta currentTime (random draws) p0 v0 t0 c0) as [p0' c0'].
    destruct (IH ps vs ts cs (match phase with TREE => S draws | _ => draws end)
                 ltac:(lia) ltac:(lia) ltac:(lia) ltac:(lia)) as [L1 L2].
    destruct (steps phase delta currentTime ps vs ts cs _) as [[ps' cs'] d'].
    cbn [fst snd List.length] in *. split; lia.
Qed.

(** A frame keeps the number of flakes, and each flake is moved by the loop
    body on its own entries. *)
Lemma frame_flake (phase : AppPhase) (delta currentTime : Number) (n : nat)
    (velocities targets : list Vec3) (st : State) (i : nat) (p : Vec3) :
  sized n velocities targets st -> nth_error (positions st) i = Some p ->
  sized n velocities targets (frame phase delta currentTime velocities targets st) /\
  exists k v t c,
    nth_error velocities i = Some v /\ nth_error targets i = Some t /\
    nth_error (colors st) i = Some c /\
    nth_error (positions (frame phase delta currentTime velocities targets st)) i
      = Some (fst (step phase delta currentTime (random k) p v t c)) /\
    nth_error (colors (frame phase delta currentTime velocities targets st)) i
      = Some (snd (step phase delta currentTime (random k) p v t c)).
Proof.
  intros (Lp & Lc & Lv & Lt) Hp.
  assert (Hi : (i < n)%nat) by (rewrite <- Lp; apply nth_error_Some; congruence).
  destruct (nth_error velocities i) as [v|] eqn:Ev; [|apply nth_error_None in Ev; lia].
  destruct (nth_error targets i) as [t|] eqn:Et; [|apply nth_error_None in Et; lia].
  destruct (nth_error (colors st) i) as [c|] eqn:Ec; [|apply nth_error_None in Ec; lia].
  destruct (stepFlakes_nth phase delta currentTime _ _ _ _ (drawn st) i p v t c Hp Ev Et Ec)
    as [k [H1 H2]].
  destruct (stepFlakes_length phase delta currentTime n _ _ _ _ (drawn st) Lp Lv Lt Lc)
    as [L1 L2].
  unfold useFrame.
  destruct (steps phase delta currentTime (positions st) velocities targets (colors st)
                  (drawn st)) as [[ps' cs'] d'].
  cbn [fst snd] in H1, H2, L1, L2. cbn [positions colors]. split.
  - unfold sized. cbn [positions colors]. repeat split; assumption.
  - exists k, v, t, c. repeat split; assumption.
Qed.

Lemma initialData_velocities (n : nat) :
  inUnit random ->
  forall draws v,
    In v (snd (initialData random n draws)) ->
    -0.01 <= snd (fst v) /\ snd (fst v) <= 0.01.
Proof.
  intro Hin. induction n as [|n IH]; intros draws v Hv.
  - destruct Hv.
  - cbn [initialData] in Hv.
    destruct (initialData random n (draws + 6)) as [ps vs] eqn:E.
    cbn [snd] in Hv. destruct Hv as [<- | Hv].
    + cbn [fst snd]. destruct (Hin (draws + 4)%nat). split; lra.
    + apply (IH (draws + 6)%nat). rewrite E. exact Hv.
Qed.

(** X19.  In the SNOW phase a flake only falls: with the velocities that
    [initialData] draws, a frame leaves each flake at or below the height it
    had, unless it fell below -10, in which case it is put back at exactly 10;
    so no flake is ever below -10 after a frame, and every flake is coloured
    with the one whitish colour.  The number of flakes does not change. *)
Theorem snow_flakes_fall_and_wrap
    (delta currentTime : Number) (n draws : nat) (targets : list Vec3)
    (st : State) (i : nat) (p : Vec3) :
  inUnit random ->
  sized n (snd (initialData random n draws)) targets st ->
  nth_error (positions st) i = Some p ->
  let velocities := snd (initialData random n draws) in
  let st' := frame SNOW delta currentTime velocities targets st in
  sized n velocities targets st' /\
  exists p',
    nth_error (positions st') i = Some p' /\
    -10 <= height p' /\ (height p' = 10 \/ height p' <= height p) /\
    nth_error (colors st') i = Some white.
Proof.
  intros Hin Hs Hp velocities st'.
  destruct (frame_flake SNOW delta currentTime n velocities targets st i p Hs Hp)
    as (Hs' & k & v & t & c & Ev & Et & Ec & Hp' & Hc').
  split; [exact Hs'|].
  destruct (initialData_velocities n Hin draws v (nth_error_In _ _ Ev)) as [V0 V1].
  eexists. split; [exact Hp'|].
  destruct p as [[cx cy] cz], v as [[vx vy] vz]. cbn [fst snd] in V0, V1.
  cbn [stepFlake fst snd] in Hc' |- *.
  split; [|split; [|exact Hc']].
  - destruct (Qltb (cy + (vy - 0.01)) (-10)) eqn:E; [lra|].
    apply Qltb_ge in E. exact E.
  - destruct (Qltb (cy + (vy - 0.01)) (-10)) eqn:E; [left; reflexivity | right; lra].
Qed.

(** X20.  In the GATHER phase a frame multiplies the offset of every flake
    from its target, coordinate by coordinate, by [1 - 2.5 x delta], and the
    offset of its colour from blue likewise (so the factor is 0 at a frame
    time of 0.4 s and below -1 beyond 0.8 s: [lerp] does not clamp); the
    positions do not depend on the velocities, and the mesh turns by
    [0.2 x delta]. *)
Theorem gathering_flakes_scale_their_offset
    (delta currentTime : Number) (n : nat) (velocities targets : list Vec3)
    (st : State) (i : nat) (p : Vec3) :
  sized n velocities targets st ->
  nth_error (positions st) i = Some p ->
  let st' := frame GATHER delta currentTime velocities targets st in
  exists t c p' c',
    nth_error targets i = Some t /\ nth_error (colors st) i = Some c /\
    nth_error (positions st') i = Some p' /\ nth_error (colors st') i = Some c' /\
    fst (fst p') - fst (fst t) == (1 - 2.5 * delta) * (fst (fst p) - fst (fst t)) /\
    snd (fst p') - snd (fst t) == (1 - 2.5 * delta) * (snd (fst p) - snd (fst t)) /\
    snd p' - snd t == (1 - 2.5 * delta) * (snd p - snd t) /\
    fst (fst c') - fst (fst blue) == (1 - 2.5 * delta) * (fst (fst c) - fst (fst blue)) /\
    snd (fst c') - snd (fst blue) == (1 - 2.5 * delta) * (snd (fst c) - snd (fst blue)) /\
    snd c' - snd blue == (1 - 2.5 * delta) * (snd c - snd blue) /\
    rotationZ st' = rotationZ st + delta * 0.2.
Proof.
  intros Hs Hp st'.
  assert (Hrot : rotationZ st' = rotationZ st + delta * 0.2).
  { unfold st', useFrame.
    destruct (steps GATHER delta currentTime (positions st) velocities targets (colors st)
                    (drawn st)) as [[ps' cs'] d'].
    reflexivity. }
  destruct (frame_flake GATHER delta currentTime n velocities targets st i p Hs Hp)
    as (_ & k & v & t & c & Ev & Et & Ec & Hp' & Hc').
  exists t, c. eexists. eexists.
  split; [exact Et|]. split; [exact Ec|].
  split; [exact Hp'|]. split; [exact Hc'|].
  destruct p as [[cx cy] cz], v as [[vx vy] vz], t as [[tx ty] tz], c as [[r0 g0] b0].
  destruct blue as [[br bg] bb].
  cbn [stepFlake fst snd]. unfold lerp.
  repeat split; try ring. exact Hrot.
Qed.



End SnowflakeFacts.

(** ** The ambience button *)

Section AudioFacts.

Import Audio.
Open Scope list_scope.

Lemma step_modes (e : Event) (st st' : State) :
  silent st \/ playing st \/ fading st ->
  step e st = Some st' ->
  colors (app st') = colors (app st) /\ (silent st' \/ playing st' \/ fading st').
Proof.
  intros Hmode Hstep. destruct st as [c g o t a].
  unfold silent, playing, fading in Hmode. cbn [audioCtx gain oscillators timers app] in Hmode.
  destruct e as [| |p]; cbn in Hstep.
  - inversion Hstep; subst st'; clear Hstep. unfold toggleAmbiance. cbn [app].
    destruct Hmode as [(-> & -> & -> & -> & Hp) | [(-> & -> & -> & -> & Hp) | (-> & -> & -> & -> & Hp)]];
      rewrite Hp.
    + split; [reflexivity|]. right. left. unfold playing. cbn. repeat split.
    + split; [reflexivity|]. right. right. unfold fading. cbn. repeat split.
    + split; [reflexivity|]. right. right. unfold fading. cbn. repeat split. exact Hp.
  - destruct t as [|t]; [discriminate Hstep|].
    inversion Hstep; subst st'; clear Hstep.
    destruct Hmode as [(_ & _ & _ & Ht & _) | [(_ & _ & _ & Ht & _) | (_ & _ & _ & Ht & Hp)]];
      try discriminate Ht.
    injection Ht as ->.
    split; [reflexivity|]. left. unfold silent. cbn. repeat split. exact Hp.
  - inversion Hstep; subst st'; clear Hstep. split; [reflexivity|].
    unfold silent, playing, fading. cbn. exact Hmode.
Qed.

Lemma run_modes (events : list Event) :
  forall st st',
    silent st \/ playing st \/ fading st ->
    run events st = Some st' ->
    colors (app st') = colors (app st) /\ (silent st' \/ playing st' \/ fading st').
Proof.
  induction events as [|e rest IH]; intros st st' Hmode Hrun.
  - cbn in Hrun. inversion Hrun; subst. split; [reflexivity | exact Hmode].
  - cbn [run] in Hrun. destruct (step e st) as [st1|] eqn:E; [|discriminate Hrun].
    destruct (step_modes e st st1 Hmode E) as [Hc Hm].
    destruct (IH st1 st' Hm Hrun) as [Hc' Hm']. split; [congruence | exact Hm'].
Qed.

(** X22.  Whatever the sequence of clicks on the ambience button, timeouts
    and phase changes, the audio is in one of three conditions: silent (no
    context, no gain node, no oscillator, no timeout scheduled, flag off),
    playing (context and gain node, one oscillator for each of the first three
    colours, no timeout scheduled, flag on) or fading (as playing, but with the
    flag off and exactly one timeout scheduled).  So at most one timeout is
    ever scheduled, and none while the music plays: a timeout never closes
    the context of a drone that was started after it was scheduled.  The
    palette is never changed. *)
Theorem audio_is_silent_playing_or_fading
    (a : AppState) (events : list Event) (st : State) :
  isPlayingMusic a = false ->
  run events (mounted a) = Some st ->
  colors (app st) = colors a /\ (silent st \/ playing st \/ fading st).
Proof.
  intros Ha Hrun.
  apply (run_modes events (mounted a) st); [|exact Hrun].
  left. unfold silent, mounted. cbn. repeat split. exact Ha.
Qed.

(** X23.  While the audio fades out (one second after the music was
    switched off) the button does nothing: [toggleAmbiance] calls
    [startAudio], which returns at once because the old context is still in
    its ref, so the state is unchanged and the flag stays off.  Once the
    timeout has run, a click starts the music. *)
Theorem button_is_dead_while_fading
    (a : AppState) (events : list Event) (st : State) :
  isPlayingMusic a = false ->
  run events (mounted a) = Some st ->
  timers st <> 0%nat ->
  step Click st = Some st /\
  exists st1 st2,
    step Timeout st = Some st1 /\ step Click st1 = Some st2 /\ playing st2.
Proof.
  intros Ha Hrun Ht.
  destruct (run_modes events (mounted a) st) as [_ Hmode]; [|exact Hrun|].
  { left. unfold silent, mounted. cbn. repeat split. exact Ha. }
  destruct st as [c g o t ap].
  unfold silent, playing, fading in Hmode. cbn [audioCtx gain oscillators timers app] in Hmode, Ht.
  destruct Hmode as [(_ & _ & _ & H0 & _) | [(_ & _ & _ & H0 & _) | (-> & -> & -> & -> & Hp)]];
    try (exfalso; apply Ht; exact H0).
  split.
  - cbn [step]. unfold toggleAmbiance. cbn [app]. rewrite Hp. reflexivity.
  - eexists. eexists. split; [reflexivity|]. split.
    + cbn [step]. unfold toggleAmbiance, onTimeout. cbn [app]. rewrite Hp. reflexivity.
    + unfold playing. cbn. repeat split.
Qed.

End AudioFacts.

(** ** Instances of the further properties *)

Section FurtherInstances.

Import Examples CoverageExamples.
Open Scope list_scope.

Lemma half_inUnit : TreeSpec.inUnit alwaysHalf.
Proof. intro n. unfold alwaysHalf. split; lra. Qed.

(** X1 at three frames from the first state. *)
Lemma tree_only_through_gather_witness :
  exists before mouse hd after,
    threeFrames = before ++ (mouse, Some hd) :: after /\
    phase (SceneContainer.runFrames before App.initialState) = GATHER /\
    gesture hd = FIST /\
    phase (SceneContainer.runFrames (before ++ [(mouse, Some hd)]) App.initialState) = TREE.
Proof.
  apply (tree_only_through_gather threeFrames App.initialState).
  - discriminate.
  - reflexivity.
Defined.

(** X3 at the centred hand and at a result without a hand. *)
Lemma tracker_and_pointer_take_turns_witness :
  (exists hd1,
     HandTracker.onResults hostIdentity (HandTracker.mkResults (Some [centredHand]))
       (Some restingHand) = Some (Some hd1) /\
     isTracking hd1 = true /\
     fst (SceneContainer.useFrame (SceneContainer.mkMouse 0 0) SNOW (Some hd1)) = Some hd1) /\
  (exists hd2,
     HandTracker.onResults hostIdentity (HandTracker.mkResults (Some [])) (Some restingHand)
       = Some (Some hd2) /\
     rawX hd2 = rawX restingHand /\ rawY hd2 = rawY restingHand /\
     fst (SceneContainer.useFrame (SceneContainer.mkMouse 0 0) SNOW (Some hd2)) =
       Some {| rawX := (SceneContainer.mouse_x (SceneContainer.mkMouse 0 0) + 1) / 2;
               rawY := (SceneContainer.mouse_y (SceneContainer.mkMouse 0 0) + 1) / 2;
               gesture := NONE;
               isTracking := false |}).
Proof.
  apply (tracker_and_pointer_take_turns hostIdentity centredHand []
           (HandTracker.mkResults (Some [])) restingHand (SceneContainer.mkMouse 0 0) SNOW).
  - reflexivity.
  - exact I.
Defined.

(** X4 at the centred hand. *)
Lemma hand_record_stays_in_frame_witness :
  Coverage.inFrame trackedHand /\ Coverage.inFrame trackedHand.
Proof.
  apply (hand_record_stays_in_frame hostIdentity
           (HandTracker.mkResults (Some [centredHand])) (SceneContainer.mkMouse 0 0) SNOW
           restingHand trackedHand trackedHand).
  - unfold Coverage.inFrame, restingHand. cbn. repeat split; lra.
  - intros landmarks others E. cbn [HandTracker.multiHandLandmarks] in E.
    injection E as <- _.
    apply Forall_forall. intros l Hl.
    apply (repeat_spec 21 (HandTracker.mkLandmark 0.5 0.5)) in Hl. subst l.
    unfold Coverage.normalized. cbn. repeat split; lra.
  - unfold Coverage.pointerInRange. cbn. repeat split; lra.
  - reflexivity.
  - reflexivity.
Defined.

(** X5 at a hand of 20 landmarks. *)
Lemma short_landmark_list_throws_witness :
  HandTracker.onResults hostIdentity (HandTracker.mkResults (Some [shortHand]))
    (Some restingHand) = None.
Proof.
  apply (short_landmark_list_throws hostIdentity shortHand [] (Some restingHand)).
  unfold shortHand. rewrite repeat_length. lia.
Defined.

(** X6 at two hands that differ in the thumb tip. *)
Lemma gesture_reads_five_landmarks_witness :
  HandTracker.onResults hostIdentity (HandTracker.mkResults (Some [centredHand]))
    (Some restingHand) =
  HandTracker.onResults hostIdentity (HandTracker.mkResults (Some [thumbMoved]))
    (Some restingHand) /\
  centredHand <> thumbMoved.
Proof.
  split.
  - apply (gesture_reads_five_landmarks hostIdentity centredHand thumbMoved [] []
             (Some restingHand)).
    + reflexivity.
    + reflexivity.
    + intros i Hi.
      repeat (destruct Hi as [<- | Hi]; [reflexivity|]). destruct Hi.
  - discriminate.
Defined.

(** X7 at the first palette of the application. *)
Lemma drone_frequencies_in_range_witness :
  List.length (Coverage.droneFrequencies (colors App.initialState)) =
    Nat.min 3 (List.length (colors App.initialState)) /\
  forall k tone,
    nth_error (Coverage.droneFrequencies (colors App.initialState)) k = Some tone ->
    exists f : Z,
      tone = Double.toNumber f /\
      (150 + 100 * Z.of_nat k <= f <= 449 + 100 * Z.of_nat k)%Z /\
      (150 <= f <= 649)%Z.
Proof.
  apply (drone_frequencies_in_range (colors App.initialState)).
  repeat constructor.
Defined.

(** X8 at a colour followed by a semicolon. *)
Lemma hexToFreq_ignores_what_follows_witness :
  Tone.hexToFreq "#00F0FF; opacity" (Double.toNumber 150)
  = Tone.hexToFreq "#00F0FF" (Double.toNumber 150).
Proof.
  apply (hexToFreq_ignores_what_follows "00F0FF" " opacity" ";"%char (Double.toNumber 150)).
  - reflexivity.
  - discriminate.
  - reflexivity.
  - intro E. discriminate E.
Defined.

(** X9 at a colour name. *)
Lemma hexToFreq_without_digits_is_NaN_witness :
  Tone.hexToFreq "red" (Double.toNumber 150) = Double.NaN.
Proof.
  apply (hexToFreq_without_digits_is_NaN "red" (Double.toNumber 150)).
  simpl. repeat split; try reflexivity; discriminate.
Defined.


(** X11 at the first palette, with every draw 0.5. *)
Lemma point_colours_are_dimmed_palette_colours_witness :
  exists td st' shades,
    ChristmasTree.useTreeData hostZero hostZero hostZero 3 hostWhite hostPrint alwaysHalf
      (colors App.initialState) 2 = ChristmasTree.Done td st' /\
    ChristmasTree.tree_colors td = flat_map (TreeCoverage.shaded hostWhite) shades /\
    List.length shades = ChristmasTree.pointCount td /\
    List.length (ChristmasTree.tree_colors td) = List.length (ChristmasTree.positions td) /\
    Forall (TreeCoverage.shadeOK (colors App.initialState)) shades.
Proof.
  apply (point_colours_are_dimmed_palette_colours hostZero hostZero hostZero 3 hostWhite
           hostPrint alwaysHalf (colors App.initialState) 0).
  exact half_inUnit.
Defined.

(** X12 at a branch of length 1 and droop 0.5 from the origin. *)
Lemma branch_tip_position_witness :
  ChristmasTree.currentX (TreeSpec.branchTip hostIdentity hostIdentity 0 0 0 1 1 0.5)
    == 0 + hostIdentity 1 * 1 /\
  ChristmasTree.currentZ (TreeSpec.branchTip hostIdentity hostIdentity 0 0 0 1 1 0.5)
    == 0 + hostIdentity 1 * 1 /\
  ChristmasTree.currentY (TreeSpec.branchTip hostIdentity hostIdentity 0 0 0 1 1 0.5)
    == 0 + 1 * (0.25 - 0.5 * (112 # 375)) /\
  0 + 1 * 0.07 < ChristmasTree.currentY (TreeSpec.branchTip hostIdentity hostIdentity 0 0 0 1 1 0.5).
Proof.
  apply (branch_tip_position hostIdentity hostIdentity 0 0 0 1 1 0.5).
  - lra.
  - lra.
Defined.

(** X13 at an empty object between fences. *)
Lemma fenced_response_is_unwrapped_witness :
  ThemeService.cleanUp (ThemeCoverage.fenced newline "{}" newline "") = "{}"%string /\
  ThemeService.generateTheme serviceFenced parseBraces "aurora"
    = ThemeService.Resolved (ThemeService.JObject []).
Proof.
  apply (fenced_response_is_unwrapped serviceFenced parseBraces "aurora" newline "{}" newline
           (ThemeService.JObject [])).
  - reflexivity.
  - reflexivity.
  - split; reflexivity.
  - discriminate.
  - reflexivity.
  - reflexivity.
Defined.

(** X14 at the same answer with a final line break. *)
Lemma trailing_whitespace_keeps_the_fence_witness :
  ThemeService.cleanUp (ThemeCoverage.fenced newline "{}" newline newline)
    = ("{}" ++ newline ++ "```")%string /\
  ThemeService.generateTheme serviceFencedNewline parseBraces "aurora"
    = ThemeService.Resolved ThemeService.fallback.
Proof.
  apply (trailing_whitespace_keeps_the_fence serviceFencedNewline parseBraces "aurora"
           newline "{}" newline newline).
  - reflexivity.
  - reflexivity.
  - reflexivity.
  - discriminate.
  - split; reflexivity.
  - discriminate.
  - reflexivity.
  - reflexivity.
Defined.

(** X15 at two frames, with every draw 0.5. *)
Lemma ambient_particles_stay_in_bounds_witness :
  List.length (Emanating.metaData
     (Emanating.runFrames hostZero hostZero alwaysHalf ambientTicks
        (Emanating.initialState 3 alwaysHalf))) = 800%nat /\
  List.length (Emanating.positions
     (Emanating.runFrames hostZero hostZero alwaysHalf ambientTicks
        (Emanating.initialState 3 alwaysHalf))) = 800%nat /\
  Forall Emanating.inBounds
    (Emanating.metaData
       (Emanating.runFrames hostZero hostZero alwaysHalf ambientTicks
          (Emanating.initialState 3 alwaysHalf))) /\
  Forall (fun xyz => -4 <= snd (fst xyz) /\ snd (fst xyz) <= 8)
    (Emanating.positions
       (Emanating.runFrames hostZero hostZero alwaysHalf ambientTicks
          (Emanating.initialState 3 alwaysHalf))).
Proof.
  apply (ambient_particles_stay_in_bounds hostZero hostZero 3 alwaysHalf half_inUnit
           ambientTicks).
  unfold ambientTicks, Emanating.tickOK, restingHand.
  repeat constructor; cbn; lra.
Defined.

(** X16 at a particle just below the ceiling and a frame of one second. *)
Lemma respawned_particle_sits_on_the_axis_witness :
  exists x z,
    Emanating.stepParticle hostIdentity hostIdentity alwaysHalf 1 0.5 1 risingParticle 0 =
      ({| Emanating.velocity := Emanating.velocity risingParticle;
          Emanating.angle := Emanating.angle risingParticle + 0.5 * 0.01;
          Emanating.radius := alwaysHalf 0%nat * 5.0;
          Emanating.y := -4 |},
       (x, -4, z), 1%nat) /\
    x == 0 /\ z == 0.
Proof.
  apply (respawned_particle_sits_on_the_axis hostIdentity hostIdentity alwaysHalf 1 0.5 1
           risingParticle 0).
  unfold risingParticle. cbn. lra.
Defined.

(** X17 at two hidden frames from a grown group. *)
Lemma tree_is_hidden_until_visible_witness :
  TreeGroup.scale (TreeGroup.runFrames hiddenTicks grownGroup) ==
    TreeGroup.scale grownGroup * 0.95 ^ Z.of_nat (List.length hiddenTicks) /\
  TreeGroup.rotationY (TreeGroup.runFrames hiddenTicks grownGroup) =
    TreeGroup.rotationY grownGroup /\
  (hiddenTicks <> [] -> TreeGroup.revealTime (TreeGroup.runFrames hiddenTicks grownGroup) = 0) /\
  TreeGroup.scale (TreeGroup.runFrames hiddenTicks TreeGroup.initialState) == 0.
Proof.
  apply (tree_is_hidden_until_visible hiddenTicks grownGroup).
  repeat constructor.
Defined.

(** X18 at a visible frame followed by a hidden one. *)
Lemma tree_scale_stays_bounded_witness :
  0 <= TreeGroup.scale (TreeGroup.runFrames mixedTicks TreeGroup.initialState) /\
  TreeGroup.scale (TreeGroup.runFrames mixedTicks TreeGroup.initialState) <= 1.5 /\
  0 <= TreeGroup.revealTime (TreeGroup.runFrames mixedTicks TreeGroup.initialState) /\
  TreeGroup.revealTime (TreeGroup.runFrames mixedTicks TreeGroup.initialState) <= 1.
Proof.
  apply (tree_scale_stays_bounded mixedTicks).
  unfold mixedTicks, TreeGroup.tickOK, restingHand.
  repeat constructor; cbn; lra.
Defined.

(** X19 at the second of two flakes, which is about to pass -10. *)
Lemma snow_flakes_fall_and_wrap_witness :
  Snowflakes.sized 2 (snd (Snowflakes.initialData alwaysHalf 2 0)) twoTargets
    (Snowflakes.useFrame hostZero hostIdentity (1, 1, 1) (0, 0.5, 1) alwaysHalf true SNOW
       0.016 0 (snd (Snowflakes.initialData alwaysHalf 2 0)) twoTargets twoFlakes) /\
  exists p',
    nth_error
      (Snowflakes.positions
         (Snowflakes.useFrame hostZero hostIdentity (1, 1, 1) (0, 0.5, 1) alwaysHalf true SNOW
            0.016 0 (snd (Snowflakes.initialData alwaysHalf 2 0)) twoTargets twoFlakes))
      1 = Some p' /\
    -10 <= snd (fst p') /\
    (snd (fst p') = 10 \/ snd (fst p') <= snd (fst (1, -9.995, 0))) /\
    nth_error
      (Snowflakes.colors
         (Snowflakes.useFrame hostZero hostIdentity (1, 1, 1) (0, 0.5, 1) alwaysHalf true SNOW
            0.016 0 (snd (Snowflakes.initialData alwaysHalf 2 0)) twoTargets twoFlakes))
      1 = Some (1, 1, 1).
Proof.
  apply (snow_flakes_fall_and_wrap hostZero hostIdentity (1, 1, 1) (0, 0.5, 1) alwaysHalf
           0.016 0 2 0 twoTargets twoFlakes 1 (1, -9.995, 0)).
  - exact half_inUnit.
  - repeat split.
  - reflexivity.
Defined.

(** X20 at the first of two flakes and a frame of 0.4 s. *)
Lemma gathering_flakes_scale_their_offset_witness :
  exists t c p' c',
    nth_error twoTargets 0 = Some t /\
    nth_error (Snowflakes.colors twoFlakes) 0 = Some c /\
    nth_error
      (Snowflakes.positions
         (Snowflakes.useFrame hostZero hostIdentity (1, 1, 1) (0, 0.5, 1) alwaysHalf true
            GATHER 0.4 0 (snd (Snowflakes.initialData alwaysHalf 2 0)) twoTargets twoFlakes))
      0 = Some p' /\
    nth_error
      (Snowflakes.colors
         (Snowflakes.useFrame hostZero hostIdentity (1, 1, 1) (0, 0.5, 1) alwaysHalf true
            GATHER 0.4 0 (snd (Snowflakes.initialData alwaysHalf 2 0)) twoTargets twoFlakes))
      0 = Some c' /\
    fst (fst p') - fst (fst t) == (1 - 2.5 * 0.4) * (fst (fst (0, 5, 0)) - fst (fst t)) /\
    snd (fst p') - snd (fst t) == (1 - 2.5 * 0.4) * (snd (fst (0, 5, 0)) - snd (fst t)) /\
    snd p' - snd t == (1 - 2.5 * 0.4) * (snd (0, 5, 0) - snd t) /\
    fst (fst c') - fst (fst (0, 0.5, 1)) == (1 - 2.5 * 0.4) * (fst (fst c) - fst (fst (0, 0.5, 1))) /\
    snd (fst c') - snd (fst (0, 0.5, 1)) == (1 - 2.5 * 0.4) * (snd (fst c) - snd (fst (0, 0.5, 1))) /\
    snd c' - snd (0, 0.5, 1) == (1 - 2.5 * 0.4) * (snd c - snd (0, 0.5, 1)) /\
    Snowflakes.rotationZ
      (Snowflakes.useFrame hostZero hostIdentity (1, 1, 1) (0, 0.5, 1) alwaysHalf true
         GATHER 0.4 0 (snd (Snowflakes.initialData alwaysHalf 2 0)) twoTargets twoFlakes)
      = Snowflakes.rotationZ twoFlakes + 0.4 * 0.2.
Proof.
  apply (gathering_flakes_scale_their_offset hostZero hostIdentity (1, 1, 1) (0, 0.5, 1)
           alwaysHalf 0.4 0 2 (snd (Snowflakes.initialData alwaysHalf 2 0)) twoTargets
           twoFlakes 0 (0, 5, 0)).
  - repeat split.
  - reflexivity.
Defined.


(** X22 at two clicks with a phase change between them. *)
Lemma audio_is_silent_playing_or_fading_witness :
  colors (Audio.app fadingState) = colors App.initialState /\
  (Audio.silent fadingState \/ Audio.playing fadingState \/ Audio.fading fadingState).
Proof.
  apply (audio_is_silent_playing_or_fading App.initialState buttonEvents fadingState).
  - reflexivity.
  - reflexivity.
Defined.

(** X23 at the same state. *)
Lemma button_is_dead_while_fading_witness :
  Audio.step Audio.Click fadingState = Some fadingState /\
  exists st1 st2,
    Audio.step Audio.Timeout fadingState = Some st1 /\
    Audio.step Audio.Click st1 = Some st2 /\ Audio.playing st2.
Proof.
  apply (button_is_dead_while_fading App.initialState buttonEvents fadingState).
  - reflexivity.
  - reflexivity.
  - discriminate.
Defined.

End FurtherInstances.
